(** * ETL "Reporte Maestro de Produccion": field normalizers, parsers and merge

    Shallow embedding of [src/etl_produccion.py].

    Text.  A Python [str] is a sequence of Unicode code points; it is
    modelled as [list N].  The character tables of the Python runtime
    (decimal digits, cased letters, alphanumerics, case mappings) are
    written out for the code points 0..255 (ASCII and the Latin-1
    supplement, which holds every accented letter the source names);
    the whitespace table is the complete [str.isspace] table.  Above
    255 the tables treat every code point as a caseless symbol that is
    neither a digit nor a word character, which is not so for all of
    them; statements that depend on the class of a code point are
    made for Latin-1 text ([latin1]).

    Numbers.  A Python [float] is kept by its exact value: [float]
    rounds the decimal it reads to the nearest binary64 number
    ([binary64]), infinity included, and the value of that number is
    written again as a decimal [mant * 10^(-scale)].  The cast to
    [int] gives an [int64], and the columns of integers are subtracted
    as [int64].

    Frames.  The labels of a frame are taken to be distinct, as
    [pd.read_csv] gives them; where a renaming could make two labels
    equal the statements assume it does not ([distintas]).

    Exceptions.  Fallible operations return [res]: [Ok v] or
    [Raise e]; [try ... except] is written out as a match on the
    raised exception. *)

From Stdlib Require Import ZArith NArith Lia Bool List Ascii String.
From Stdlib Require Import Sorting.Permutation Sorting.Sorted.
Import ListNotations.

Set Implicit Arguments.

Local Open Scope N_scope.

(** ** Code points and character classes *)

Abbreviation char := N (only parsing).
Definition str := list char.

Fixpoint txt (s : string) : str :=
  match s with
  | EmptyString => []
  | String a r => N_of_ascii a :: txt r
  end.

Definition in_range (lo hi c : char) : bool := (lo <=? c) && (c <=? hi).

(** [str.isspace] for one code point; also the class [\s] of [re] on
    [str] patterns. *)
Definition isspace (c : char) : bool :=
  in_range 9 13 c || in_range 28 32 c || (c =? 133) || (c =? 160)
  || (c =? 5760) || in_range 8192 8202 c || (c =? 8232) || (c =? 8233)
  || (c =? 8239) || (c =? 8287) || (c =? 12288).

(** Class [\d] of [re]. *)
Definition isdigit (c : char) : bool := in_range 48 57 c.

(** [str.isalpha] for one code point. *)
Definition isalpha (c : char) : bool :=
  in_range 65 90 c || in_range 97 122 c || (c =? 170) || (c =? 181)
  || (c =? 186) || in_range 192 214 c || in_range 216 246 c
  || in_range 248 255 c.

(** Class [\w] of [re]: alphanumeric (alphabetic, decimal, digit or
    numeric) or underscore. *)
Definition isword (c : char) : bool :=
  isalpha c || isdigit c || (c =? 178) || (c =? 179) || (c =? 185)
  || in_range 188 190 c || (c =? 95).

(** Cased code points, as [str.title] tests them. *)
Definition iscased (c : char) : bool := isalpha c.

Definition isupper_ascii (c : char) : bool := in_range 65 90 c.

(** [str.lower] on one code point. *)
Definition lower_char (c : char) : char :=
  if in_range 65 90 c || in_range 192 214 c || in_range 216 222 c
  then c + 32 else c.

(** Title-case mapping of one code point; sharp s maps to two code
    points, micro sign and y-diaeresis leave Latin-1. *)
Definition title_char (c : char) : str :=
  if in_range 97 122 c || in_range 224 246 c || in_range 248 254 c
  then [c - 32]
  else if c =? 223 then [83; 115]
  else if c =? 181 then [924]
  else if c =? 255 then [376]
  else [c].

(** ** String methods *)

Definition lower (s : str) : str := map lower_char s.

Fixpoint lstrip (s : str) : str :=
  match s with
  | c :: r => if isspace c then lstrip r else s
  | [] => []
  end.

Definition rstrip (s : str) : str := rev (lstrip (rev s)).

(** [str.strip()] *)
Definition strip (s : str) : str := rstrip (lstrip s).

(** [str.title()]: a code point that follows a cased one is lowered,
    any other is title-cased. *)
Fixpoint title_from (prev_cased : bool) (s : str) : str :=
  match s with
  | [] => []
  | c :: r =>
      (if prev_cased then [lower_char c] else title_char c)
        ++ title_from (iscased c) r
  end.

Definition title (s : str) : str := title_from false s.

Fixpoint starts_with (p s : str) : bool :=
  match p, s with
  | [], _ => true
  | a :: p', b :: s' => (a =? b) && starts_with p' s'
  | _ :: _, [] => false
  end.

(** [str.replace(old, new)] for a non-empty [old]: occurrences are
    found left to right and do not overlap.  [skip] counts the code
    points of the current occurrence still to be passed over. *)
Fixpoint replace_from (old new : str) (skip : nat) (s : str) : str :=
  match s with
  | [] => []
  | c :: r =>
      match skip with
      | S k => replace_from old new k r
      | O =>
          if starts_with old s
          then new ++ replace_from old new (List.length old - 1) r
          else c :: replace_from old new O r
      end
  end.

Definition replace (old new s : str) : str := replace_from old new O s.

(** [re.sub('[...]+', '', s)] for a character class: every maximal run
    of class members is deleted, so exactly the members go. *)
Definition sub_class_plus_empty (cls : char -> bool) (s : str) : str :=
  filter (fun c => negb (cls c)) s.

(** ** Scalars, exceptions *)

(** The values a cell of a frame or an argument of a normalizer can
    hold.  A finite float is carried by the text [str()] prints for it
    (for example 100.0 or 1e+16). *)
Inductive scalar :=
| SNone
| SNaN
| SStr (s : str)
| SInt (z : Z)
| SBool (b : bool)
| SFloat (repr : str).

(** [pd.isna] on a scalar. *)
Definition isna (v : scalar) : bool :=
  match v with SNone | SNaN => true | _ => false end.

Fixpoint digits_of_pos (fuel : nat) (n : N) (acc : str) : str :=
  match fuel with
  | O => acc
  | S f =>
      let acc' := (48 + n mod 10) :: acc in
      if n <? 10 then acc' else digits_of_pos f (n / 10) acc'
  end.

(** Decimal digits of a natural number, most significant first. *)
Definition digits_of_N (n : N) : str :=
  digits_of_pos (S (N.to_nat (N.log2 n))) n [].

(** [str(v)] *)
Definition py_str (v : scalar) : str :=
  match v with
  | SNone => txt "None"
  | SNaN => txt "nan"
  | SStr s => s
  | SInt z =>
      if (z <? 0)%Z then 45 :: digits_of_N (Z.abs_N z)
      else digits_of_N (Z.abs_N z)
  | SBool true => txt "True"
  | SBool false => txt "False"
  | SFloat r => r
  end.

Inductive exn :=
| ValueError
| TypeError
| KeyError
| FileNotFoundError
| EmptyDataError
| IndexError
| OtherException
| KeyboardInterrupt
| SystemExit (code : Z).

(** Subclasses of [Exception]; the last two derive from
    [BaseException] only. *)
Definition is_Exception (e : exn) : bool :=
  match e with
  | KeyboardInterrupt | SystemExit _ => false
  | _ => true
  end.

Inductive res (A : Type) :=
| Ok (a : A)
| Raise (e : exn).
Arguments Ok {A} a.
Arguments Raise {A} e.

Definition bind {A B} (m : res A) (k : A -> res B) : res B :=
  match m with Ok a => k a | Raise e => Raise e end.

Notation "x <- m ;; k" := (bind m (fun x => k))
  (at level 61, m at next level, right associativity).

(** ** [float(text)] *)

(** A float, by its exact value: [FNum m k] stands for [m * 10^(-k)]
    (every finite binary float is such a decimal), [FInf neg] for the
    infinity of that sign. *)
Inductive pyfloat :=
| FNum (mant : Z) (scale : Z)
| FInf (neg : bool)
| FNan.

Fixpoint take_while (p : char -> bool) (s : str) : str :=
  match s with
  | c :: r => if p c then c :: take_while p r else []
  | [] => []
  end.

Fixpoint drop_while (p : char -> bool) (s : str) : str :=
  match s with
  | c :: r => if p c then drop_while p r else s
  | [] => []
  end.

Definition digits_value (ds : str) : Z :=
  fold_left (fun acc c => (acc * 10 + Z.of_N (c - 48))%Z) ds 0%Z.

Fixpoint str_eqb (a b : str) : bool :=
  match a, b with
  | [], [] => true
  | x :: a', y :: b' => (x =? y) && str_eqb a' b'
  | _, _ => false
  end.

(** Underscores of a numeric literal: allowed only between two digits;
    they are removed before the number is read. *)
Fixpoint strip_underscores_from (prev : char) (s : str) : option str :=
  match s with
  | [] => if prev =? 95 then None else Some []
  | c :: r =>
      if c =? 95
      then (if isdigit prev then strip_underscores_from c r else None)
      else if (prev =? 95) && negb (isdigit c) then None
      else option_map (cons c) (strip_underscores_from c r)
  end.

Definition parse_sign (s : str) : bool * str :=
  match s with
  | c :: r =>
      if c =? 45 then (true, r)
      else if c =? 43 then (false, r)
      else (false, s)
  | [] => (false, s)
  end.

Definition signed (neg : bool) (m : Z) : Z := if neg then (- m)%Z else m.

(** Optional exponent part; [None] when what follows the mantissa is
    not an exponent that reaches the end of the text. *)
Definition parse_exponent (s : str) : option Z :=
  match s with
  | [] => Some 0%Z
  | c :: r =>
      if (c =? 101) || (c =? 69)
      then let (eneg, r') := parse_sign r in
           let ds := take_while isdigit r' in
           match ds, drop_while isdigit r' with
           | _ :: _, [] => Some (signed eneg (digits_value ds))
           | _, _ => None
           end
      else None
  end.

(** Decimal number after the sign: integer part, optional point and
    fraction (one of the two parts non-empty), optional exponent. *)
Definition parse_number (neg : bool) (s : str) : option pyfloat :=
  let ip := take_while isdigit s in
  let r1 := drop_while isdigit s in
  let '(fp, r2) :=
    match r1 with
    | c :: r =>
        if c =? 46 then (take_while isdigit r, drop_while isdigit r)
        else ([], r1)
    | [] => ([], r1)
    end in
  match ip ++ fp with
  | [] => None
  | ds =>
      match parse_exponent r2 with
      | Some e =>
          Some (FNum (signed neg (digits_value ds))
                     (Z.of_nat (List.length fp) - e))
      | None => None
      end
  end.

(** *** Rounding to binary64

    [float] returns the IEEE 754 double nearest to the decimal it
    reads, ties going to the even significand, and an infinity from
    [FLOAT_LIMIT] on. *)

(** Least magnitude that rounds to infinity: the largest float plus
    half a unit in its last place. *)
Definition FLOAT_LIMIT : Z := (2 ^ 1024 - 2 ^ 970)%Z.

(** Quotient of [n] by [d] rounded to the nearest integer, ties to
    the even one. *)
Definition div_half_even (n d : Z) : Z :=
  (let q := n / d in
   let r := n mod d in
   if 2 * r <? d then q
   else if d <? 2 * r then q + 1
   else if Z.even q then q else q + 1)%Z.

(** Exponent of the leading bit of [n / d], for positive [n] and [d]. *)
Definition floor_log2 (n d : Z) : Z :=
  (let e := Z.log2 n - Z.log2 d in
   if (if 0 <=? e then d * 2 ^ e <=? n else d <=? n * 2 ^ (- e))
   then e else e - 1)%Z.

(** The float nearest to [n / d], as an integer significand of at
    most 53 bits and a binary exponent not below -1074. *)
Definition nearest (n d : Z) : Z * Z :=
  (let e := Z.max (floor_log2 n d - 52) (-1074) in
   let m := if 0 <=? e then div_half_even n (d * 2 ^ e)
            else div_half_even (n * 2 ^ (- e)) d in
   (m, e))%Z.

(** [m * 2^e] as a decimal without trailing zeros after the point. *)
Definition dyadic (m e : Z) : Z * Z :=
  (if 0 <=? e then (m * 2 ^ e, 0)
   else
     let g := Z.gcd m (2 ^ (- e)) in
     let j := Z.log2 (2 ^ (- e) / g) in
     (m / g * 5 ^ j, j))%Z.

(** The float read from the decimal [m * 10^(-k)]. *)
Definition binary64 (m k : Z) : pyfloat :=
  (let n := if 0 <=? k then Z.abs m else Z.abs m * 10 ^ (- k) in
   let d := if 0 <=? k then 10 ^ k else 1 in
   if n =? 0 then FNum 0 0
   else if FLOAT_LIMIT * d <=? n then FInf (m <? 0)
   else
     let '(s, e) := nearest n d in
     let '(a, j) := dyadic s e in
     FNum (if m <? 0 then - a else a) j)%Z.

Definition redondear (f : pyfloat) : pyfloat :=
  match f with
  | FNum m k => binary64 m k
  | _ => f
  end.

Definition parse_float (s : str) : option pyfloat :=
  let (neg, r) := parse_sign s in
  let w := lower r in
  if str_eqb w (txt "inf") || str_eqb w (txt "infinity") then Some (FInf neg)
  else if str_eqb w (txt "nan") then Some FNan
  else parse_number neg r.

(** [float(s)] for a [str] argument: surrounding whitespace is
    ignored, a malformed literal raises [ValueError]. *)
Definition py_float (s : str) : res pyfloat :=
  match strip_underscores_from 0 (strip s) with
  | None => Raise ValueError
  | Some t =>
      match parse_float t with
      | Some f => Ok (redondear f)
      | None => Raise ValueError
      end
  end.

(** ** limpiar_cantidad *)

(** The class [[a-záéíóúñ\s/]] of the quantity clean-up. *)
Definition qty_noise (c : char) : bool :=
  in_range 97 122 c || (c =? 225) || (c =? 233) || (c =? 237)
  || (c =? 243) || (c =? 250) || (c =? 241) || isspace c || (c =? 47).

Definition fzero : pyfloat := FNum 0 0.

Definition limpiar_cantidad (valor : scalar) : res pyfloat :=
  if isna valor then Ok fzero
  else
    let texto := lower (strip (py_str valor)) in
    let texto := sub_class_plus_empty qty_noise texto in
    match py_float texto with
    | Ok f => Ok f
    | Raise ValueError | Raise TypeError => Ok fzero
    | Raise e => Raise e
    end.

Definition INT64_MIN : Z := (- 2 ^ 63)%Z.

Definition en_int64 (z : Z) : bool := ((INT64_MIN <=? z) && (z <? 2 ^ 63))%Z.

(** The integer part of a finite float, toward zero. *)
Definition truncar (m k : Z) : Z :=
  (if 0 <=? k then Z.quot m (10 ^ k) else m * 10 ^ (- k))%Z.

(** [Series.astype(int)] on one float: truncation toward zero to an
    [int64]; a non-finite value cannot be cast ([IntCastingNaNError],
    a [ValueError]), and a finite value outside the range of [int64]
    gives the least [int64], as the conversion instruction of x86-64
    does. *)
Definition astype_int (f : pyfloat) : res Z :=
  match f with
  | FNum m k =>
      let z := truncar m k in
      Ok (if en_int64 z then z else INT64_MIN)
  | _ => Raise ValueError
  end.

(** ** [datetime.strptime] and [strftime] *)

(** The directives and literal characters the formats of this program
    are made of. *)
Inductive fmt_item :=
| FmtY
| FmtM
| FmtD
| FmtLit (c : char).

Definition format := list fmt_item.

Record fields := mkFields { f_year : N; f_month : N; f_day : N }.

(** Values of the directives a format does not mention. *)
Definition default_fields : fields := mkFields 1900 1 1.

Definition orelse {A} (a b : option A) : option A :=
  match a with Some x => Some x | None => b end.

Definition dval (c : char) : N := c - 48.

Section Regex.
Variable R : Type.
Variable k : N -> str -> option R.

(** One alternative made of two character classes. *)
Definition two (p1 p2 : char -> bool) (s : str) : option R :=
  match s with
  | c1 :: c2 :: r =>
      if p1 c1 && p2 c2 then k (dval c1 * 10 + dval c2) r else None
  | _ => None
  end.

Definition one (p : char -> bool) (s : str) : option R :=
  match s with
  | c :: r => if p c then k (dval c) r else None
  | _ => None
  end.

Definition space_one (p : char -> bool) (s : str) : option R :=
  match s with
  | b :: c :: r => if (b =? 32) && p c then k (dval c) r else None
  | _ => None
  end.

(** [3[0-1]|[1-2]\d|0[1-9]|[1-9]| [1-9]], alternatives tried in
    order, each followed by the rest of the pattern. *)
Definition re_d (s : str) : option R :=
  orelse (two (N.eqb 51) (in_range 48 49) s)
 (orelse (two (in_range 49 50) isdigit s)
 (orelse (two (N.eqb 48) (in_range 49 57) s)
 (orelse (one (in_range 49 57) s)
         (space_one (in_range 49 57) s)))).

(** [1[0-2]|0[1-9]|[1-9]] *)
Definition re_m (s : str) : option R :=
  orelse (two (N.eqb 49) (in_range 48 50) s)
 (orelse (two (N.eqb 48) (in_range 49 57) s)
         (one (in_range 49 57) s)).

(** [\d\d\d\d] *)
Definition re_Y (s : str) : option R :=
  match s with
  | a :: b :: c :: d :: r =>
      if isdigit a && isdigit b && isdigit c && isdigit d
      then k (dval a * 1000 + dval b * 100 + dval c * 10 + dval d) r
      else None
  | _ => None
  end.
End Regex.

(** The compiled pattern of a format, run as [re.match] runs it: the
    first way through the alternatives that reaches the end of the
    pattern wins; the text left over is returned with the fields. *)
Fixpoint match_format (fmt : format) (f : fields) (s : str)
  : option (fields * str) :=
  match fmt with
  | [] => Some (f, s)
  | FmtY :: rest =>
      re_Y (fun y => match_format rest (mkFields y (f_month f) (f_day f))) s
  | FmtM :: rest =>
      re_m (fun m => match_format rest (mkFields (f_year f) m (f_day f))) s
  | FmtD :: rest =>
      re_d (fun d => match_format rest (mkFields (f_year f) (f_month f) d)) s
  | FmtLit c :: rest =>
      match s with
      | c' :: r => if c =? c' then match_format rest f r else None
      | [] => None
      end
  end.

Definition is_leap (y : N) : bool :=
  (y mod 4 =? 0) && (negb (y mod 100 =? 0) || (y mod 400 =? 0)).

Definition days_in_month (y m : N) : N :=
  match m with
  | 2 => if is_leap y then 29 else 28
  | 4 | 6 | 9 | 11 => 30
  | _ => 31
  end.

(** The range check of the [date] constructor. *)
Definition valid_date (y m d : N) : bool :=
  in_range 1 9999 y && in_range 1 12 m && in_range 1 (days_in_month y m) d.

Record date := mkDate { year : N; month : N; day : N }.

Definition same_item (a b : fmt_item) : bool :=
  match a, b with
  | FmtY, FmtY | FmtM, FmtM | FmtD, FmtD => true
  | _, _ => false
  end.

(** A directive used twice names a group twice, which the pattern
    compiler refuses. *)
Fixpoint repeated_directive (fmt : format) : bool :=
  match fmt with
  | [] => false
  | it :: rest => existsb (same_item it) rest || repeated_directive rest
  end.

(** [datetime.strptime(s, fmt)], date part.  [ValueError] when the
    text does not match, when text is left over, or when the fields
    are not a date of the calendar. *)
Definition strptime (s : str) (fmt : format) : res date :=
  if repeated_directive fmt then Raise OtherException
  else
    match match_format fmt default_fields s with
    | None => Raise ValueError
    | Some (f, rest) =>
        match rest with
        | _ :: _ => Raise ValueError
        | [] =>
            if valid_date (f_year f) (f_month f) (f_day f)
            then Ok (mkDate (f_year f) (f_month f) (f_day f))
            else Raise ValueError
        end
    end.

Definition digit_at (n p : N) : char := 48 + (n / p) mod 10.

Definition pad2 (n : N) : str := [digit_at n 10; digit_at n 1].
Definition pad4 (n : N) : str :=
  [digit_at n 1000; digit_at n 100; digit_at n 10; digit_at n 1].

(** The ISO 8601 text of a date, and its renderings in the six
    formats; the year is printed on four digits. *)
Definition strftime_iso (d : date) : str :=
  pad4 (year d) ++ [45] ++ pad2 (month d) ++ [45] ++ pad2 (day d).

(** [d.strftime('%Y-%m-%d')] as the C library of the platform writes
    it: month and day on two digits, the year without leading zeros
    (999-01-05 for the year 999).  It is the ISO text from the year
    1000 on. *)
Definition strftime_ymd (d : date) : str :=
  digits_of_N (year d) ++ [45] ++ pad2 (month d) ++ [45] ++ pad2 (day d).

Definition render_dmy (sep : char) (d : date) : str :=
  pad2 (day d) ++ [sep] ++ pad2 (month d) ++ [sep] ++ pad4 (year d).

Definition render_mdy (sep : char) (d : date) : str :=
  pad2 (month d) ++ [sep] ++ pad2 (day d) ++ [sep] ++ pad4 (year d).

Definition render_ymd (sep : char) (d : date) : str :=
  pad4 (year d) ++ [sep] ++ pad2 (month d) ++ [sep] ++ pad2 (day d).

(** ** estandarizar_fecha *)

Definition fmt_iso : format := [FmtY; FmtLit 45; FmtM; FmtLit 45; FmtD].
Definition fmt_dmy_slash : format := [FmtD; FmtLit 47; FmtM; FmtLit 47; FmtY].
Definition fmt_mdy_slash : format := [FmtM; FmtLit 47; FmtD; FmtLit 47; FmtY].
Definition fmt_dmy_dash : format := [FmtD; FmtLit 45; FmtM; FmtLit 45; FmtY].
Definition fmt_ymd_slash : format := [FmtY; FmtLit 47; FmtM; FmtLit 47; FmtD].
Definition fmt_dmy_dot : format := [FmtD; FmtLit 46; FmtM; FmtLit 46; FmtY].

Definition formatos_fijos : list format :=
  [fmt_iso; fmt_dmy_slash; fmt_mdy_slash; fmt_dmy_dash; fmt_ymd_slash;
   fmt_dmy_dot].

(** The loop over the formats: the first that parses returns; a
    [ValueError] moves on to the next; the text itself is returned
    when none parses. *)
Fixpoint probar_formatos (fecha_str : str) (formatos : list format)
  : res scalar :=
  match formatos with
  | [] => Ok (SStr fecha_str)
  | fmt :: rest =>
      match strptime fecha_str fmt with
      | Ok d => Ok (SStr (strftime_ymd d))
      | Raise ValueError => probar_formatos fecha_str rest
      | Raise e => Raise e
      end
  end.

Definition estandarizar_fecha (fecha_str : scalar)
  (formato_origen : option format) : res scalar :=
  if isna fecha_str then Ok SNone
  else
    let fecha_str := strip (py_str fecha_str) in
    let formatos :=
      match formato_origen with
      | Some ((_ :: _) as f) => [f]
      | _ => []
      end ++ formatos_fijos in
    probar_formatos fecha_str formatos.

(** ** estandarizar_producto *)

Definition estandarizar_producto (nombre : scalar) : res scalar :=
  if isna nombre then Ok nombre
  else
    let nombre := replace [34] [] (strip (py_str nombre)) in
    let nombre := title nombre in
    let nombre :=
      replace (txt " Del ") (txt " del ")
        (replace (txt " De ") (txt " de ") nombre) in
    Ok (SStr nombre).

(** ** estandarizar_maquina *)

(** Does [s] begin with one or more whitespace code points followed by
    a code point accepted by [right]?  [right] also sees what follows
    it, for the end-of-text anchor.  The whitespace run is taken whole:
    a shorter run would have to be followed by a whitespace code point,
    which [right] never accepts. *)
Definition gap_then (right : char -> str -> bool) (s : str) : bool :=
  match take_while isspace s, drop_while isspace s with
  | _ :: _, d :: r => right d r
  | _, _ => false
  end.

(** [re.sub] of a pattern [(L)\s+(R)] by [\1-\2]: matches are looked
    for left to right; at a match the left code point is kept, the
    whitespace run becomes one hyphen, the right code point is kept and
    the search resumes after it.  [skipping] is set while the
    whitespace run of a match is being passed over. *)
Fixpoint sub_gap (left : char -> bool) (right : char -> str -> bool)
  (skipping : bool) (s : str) : str :=
  match s with
  | [] => []
  | c :: r =>
      if skipping
      then (if isspace c then sub_gap left right true r
            else c :: sub_gap left right false r)
      else if left c && gap_then right r
           then c :: 45 :: sub_gap left right true r
           else c :: sub_gap left right false r
  end.

(** [$]: the end of the text, or just before a final newline. *)
Definition at_end (s : str) : bool :=
  match s with
  | [] => true
  | [c] => c =? 10
  | _ => false
  end.

(** [(\D)\s+(\d)] *)
Definition sub_numero (s : str) : str :=
  sub_gap (fun c => negb (isdigit c)) (fun d _ => isdigit d) false s.

(** [(\w)\s+([A-Z]$)] *)
Definition sub_letra (s : str) : str :=
  sub_gap isword (fun d r => isupper_ascii d && at_end r) false s.

Definition estandarizar_maquina (nombre : scalar) : res scalar :=
  if isna nombre then Ok nombre
  else
    let nombre := strip (py_str nombre) in
    let nombre := sub_numero nombre in
    let nombre := sub_letra nombre in
    Ok (SStr nombre).

(** ** Frames *)

(** A [DataFrame], column by column: the labels in order, each with
    its cells.  [getcol], [setcol] and [select] act on the first
    column that carries a label; pandas does otherwise when two
    columns carry one label, so the properties of the parsers are
    stated for frames whose labels are all different ([distintas]),
    as [read_csv] gives them, and whose columns have one length
    ([bien_formado]). *)
Definition frame := list (string * list scalar).

Fixpoint getcol (df : frame) (name : string) : res (list scalar) :=
  match df with
  | [] => Raise KeyError
  | (n, c) :: rest => if String.eqb n name then Ok c else getcol rest name
  end.

(** [df[name] = cells]: the column is replaced where it stands, or
    added last. *)
Fixpoint setcol (name : string) (cells : list scalar) (df : frame) : frame :=
  match df with
  | [] => [(name, cells)]
  | (n, c) :: rest =>
      if String.eqb n name then (n, cells) :: rest
      else (n, c) :: setcol name cells rest
  end.

Fixpoint lookup_name (m : list (string * string)) (n : string) : string :=
  match m with
  | [] => n
  | (old, new) :: rest => if String.eqb old n then new else lookup_name rest n
  end.

(** [df.rename(columns=m)] *)
Definition rename (m : list (string * string)) (df : frame) : frame :=
  map (fun nc => (lookup_name m (fst nc), snd nc)) df.

(** [df[names]] *)
Fixpoint select (names : list string) (df : frame) : res frame :=
  match names with
  | [] => Ok []
  | n :: rest =>
      c <- getcol df n ;;
      r <- select rest df ;;
      Ok ((n, c) :: r)
  end.

(** [len(df)] *)
Definition nfilas (df : frame) : nat :=
  match df with
  | [] => O
  | (_, c) :: _ => List.length c
  end.

(** [Series.apply(f)] for an [f] that may raise. *)
Fixpoint apply {A B} (f : A -> res B) (cells : list A) : res (list B) :=
  match cells with
  | [] => Ok []
  | v :: rest =>
      b <- f v ;;
      r <- apply f rest ;;
      Ok (b :: r)
  end.

Definition COLUMNAS_FINALES : list string :=
  ["Fecha"; "Producto"; "Cantidad"; "Maquina"; "Operador"]%string.

(** [df[col] = df[col].apply(f)] *)
Definition transformar (col : string) (f : scalar -> res scalar)
  (df : frame) : res frame :=
  c <- getcol df col ;;
  c' <- apply f c ;;
  Ok (setcol col c' df).

(** [.apply(limpiar_cantidad).astype(int)] *)
Definition cantidad_entera (cells : list scalar) : res (list scalar) :=
  fs <- apply limpiar_cantidad cells ;;
  zs <- apply astype_int fs ;;
  Ok (map SInt zs).

(** ** The three parsers

    Each takes what [pd.read_csv] gave for its file with its options
    (separator, skipped rows): a frame, or the exception raised. *)

Definition procesar_enero (lectura : res frame) : res (frame * nat) :=
  df <- lectura ;;
  let filas_originales := nfilas df in
  c <- getcol df "Cantidad" ;;
  c' <- cantidad_entera c ;;
  let df := setcol "Cantidad" c' df in
  df <- transformar "Fecha" (fun x => estandarizar_fecha x None) df ;;
  df <- transformar "Producto" estandarizar_producto df ;;
  df <- transformar "Maquina" estandarizar_maquina df ;;
  df <- select COLUMNAS_FINALES df ;;
  Ok (df, filas_originales).

Definition mapeo_febrero : list (string * string) :=
  [("Dia de Produccion", "Fecha"); ("Item", "Producto"); ("Qty", "Cantidad");
   ("Machine_ID", "Maquina"); ("Responsable", "Operador")]%string.

Definition procesar_febrero (lectura : res frame) : res (frame * nat) :=
  df <- lectura ;;
  let filas_originales := nfilas df in
  let df := rename mapeo_febrero df in
  df <- transformar "Fecha"
          (fun x => estandarizar_fecha x (Some fmt_dmy_slash)) df ;;
  c <- getcol df "Cantidad" ;;
  c' <- cantidad_entera c ;;
  let df := setcol "Cantidad" c' df in
  df <- transformar "Producto" estandarizar_producto df ;;
  df <- transformar "Maquina" estandarizar_maquina df ;;
  df <- select COLUMNAS_FINALES df ;;
  Ok (df, filas_originales).

Definition mapeo_marzo : list (string * string) :=
  [("FECHA", "Fecha"); ("PRODUCTO", "Producto"); ("MAQUINA", "Maquina");
   ("OPERADOR", "Operador")]%string.

Section Marzo.
(** The recogniser of numeric text inside [pd.to_numeric] belongs to
    pandas; it is a parameter: [None] for text that is not a number. *)
Variable numeric_text : str -> option pyfloat.

(** [pd.to_numeric(., errors='coerce')] on one cell; [None] stands
    for the NaN of a cell that is missing or not a number. *)
Definition to_numeric (v : scalar) : option pyfloat :=
  match v with
  | SNone | SNaN => None
  | SInt z => Some (FNum z 0)
  | SBool b => Some (FNum (if b then 1 else 0) 0)
  | SFloat r =>
      match py_float r with Ok f => Some f | Raise _ => None end
  | SStr s => numeric_text s
  end.

(** [.fillna(0).astype(int)] after [to_numeric] *)
Definition a_entero (v : scalar) : res Z :=
  match to_numeric v with
  | None => Ok 0%Z
  | Some f => astype_int f
  end.

Definition columna_entera (cells : list scalar) : res (list scalar) :=
  zs <- apply a_entero cells ;;
  Ok (map SInt zs).

(** [int64] arithmetic: the result modulo 2^64, in the signed
    range. *)
Definition wrap64 (z : Z) : Z := ((z - INT64_MIN) mod 2 ^ 64 + INT64_MIN)%Z.

(** Difference of two [int64] columns, cell by cell. *)
Definition restar (a b : list scalar) : list scalar :=
  map (fun p =>
         match p with
         | (SInt x, SInt y) => SInt (wrap64 (x - y))
         | _ => SNaN
         end) (combine a b).

Definition procesar_marzo (lectura : res frame) : res (frame * nat) :=
  df <- lectura ;;
  let filas_originales := nfilas df in
  a <- getcol df "CANT_APROBADA" ;;
  a' <- columna_entera a ;;
  let df := setcol "CANT_APROBADA" a' df in
  r <- getcol df "CANT_RECHAZADA" ;;
  r' <- columna_entera r ;;
  let df := setcol "CANT_RECHAZADA" r' df in
  a2 <- getcol df "CANT_APROBADA" ;;
  r2 <- getcol df "CANT_RECHAZADA" ;;
  let df := setcol "Cantidad" (restar a2 r2) df in
  let df := rename mapeo_marzo df in
  df <- transformar "Fecha" (fun x => estandarizar_fecha x None) df ;;
  df <- transformar "Producto" estandarizar_producto df ;;
  df <- transformar "Maquina" estandarizar_maquina df ;;
  df <- select COLUMNAS_FINALES df ;;
  Ok (df, filas_originales).
End Marzo.

(** ** Merge and validate *)

(** A row of the master table: the cells of Fecha, Producto, Cantidad,
    Maquina, Operador and Origen, in this order. *)
Definition fila := list scalar.

(** The rows of a frame, first to last. *)
Definition filas_de (df : frame) : list fila :=
  map (fun i => map (fun nc => nth i (snd nc) SNaN) df) (seq 0 (nfilas df)).

(** Comparison of [str] values: code point by code point. *)
Fixpoint str_leb (a b : str) : bool :=
  match a, b with
  | [], _ => true
  | _ :: _, [] => false
  | x :: a', y :: b' => (x <? y) || ((x =? y) && str_leb a' b')
  end.

(** The Fecha of a row as a sort key; a missing date has none. *)
Definition fecha_key (f : fila) : option str :=
  match f with
  | SStr s :: _ => Some s
  | _ => None
  end.

(** Ascending order of [sort_values(by='Fecha')]: text comparison,
    rows without a date last. *)
Definition fecha_leb (a b : fila) : bool :=
  match fecha_key a, fecha_key b with
  | Some x, Some y => str_leb x y
  | _, None => true
  | None, Some _ => false
  end.

(** [x] goes before the first row that does not precede it. *)
Fixpoint insertar (x : fila) (l : list fila) : list fila :=
  match l with
  | [] => [x]
  | y :: r => if fecha_leb x y then x :: y :: r else y :: insertar x r
  end.

(** [sort_values(by='Fecha', ascending=True)], as an insertion sort
    that keeps rows of equal Fecha in the order they had.  The order
    pandas gives to such rows depends on its sorting algorithm;
    nothing below depends on it. *)
Fixpoint sort_values (l : list fila) : list fila :=
  match l with
  | [] => []
  | x :: r => insertar x (sort_values r)
  end.

Definition scalar_eqb (a b : scalar) : bool :=
  match a, b with
  | SNone, SNone | SNaN, SNaN => true
  | SStr x, SStr y => str_eqb x y
  | SInt x, SInt y => (x =? y)%Z
  | SBool x, SBool y => Bool.eqb x y
  | SFloat x, SFloat y => str_eqb x y
  | _, _ => false
  end.

Fixpoint fila_eqb (a b : fila) : bool :=
  match a, b with
  | [], [] => true
  | x :: a', y :: b' => scalar_eqb x y && fila_eqb a' b'
  | _, _ => false
  end.

(** [df.duplicated()]: a row is marked when an equal row came before
    it; [seen] holds the rows passed so far. *)
Fixpoint duplicated_from (seen : list fila) (l : list fila) : list bool :=
  match l with
  | [] => []
  | x :: r => existsb (fila_eqb x) seen :: duplicated_from (x :: seen) r
  end.

Definition duplicated (l : list fila) : list bool := duplicated_from [] l.

(** Rows at the positions marked [false]. *)
Fixpoint unmarked (l : list fila) (marks : list bool) : list fila :=
  match l, marks with
  | x :: r, m :: ms => if m then unmarked r ms else x :: unmarked r ms
  | _, _ => []
  end.

(** [df.drop_duplicates()]: the rows [duplicated] does not mark. *)
Definition drop_duplicates (l : list fila) : list fila :=
  unmarked l (duplicated l).

(** [.sum()] of a column of marks *)
Definition suma (marks : list bool) : nat := count_occ bool_dec marks true.

(** Concatenation, sort and removal of duplicates; returns the master
    table and the number of duplicates reported. *)
Definition unificar (dataframes : list frame) : list fila * nat :=
  let df_maestro := List.concat (map filas_de dataframes) in
  let df_maestro := sort_values df_maestro in
  let duplicados := suma (duplicated df_maestro) in
  if (0 <? duplicados)%nat
  then (drop_duplicates df_maestro, duplicados)
  else (df_maestro, duplicados).

(** ** The run *)

(** What the file system holds for one input name: whether the file
    exists, its size in bytes, and what [pd.read_csv] does on it with
    the options of its parser. *)
Record fuente := mkFuente {
  existe : bool;
  tamano : N;
  lectura : res frame
}.

Record procesador := mkProcesador {
  mes : str;
  archivo : string;
  funcion : res frame -> res (frame * nat)
}.

(** [str.capitalize()] *)
Definition capitalize (s : str) : str :=
  match s with
  | [] => []
  | c :: r => title_char c ++ lower r
  end.

(** The body of the [try] for one source. *)
Definition intento (p : procesador) (f : fuente) : res frame :=
  if negb (existe f) then Raise FileNotFoundError
  else if tamano f =? 0 then Raise ValueError
  else
    r <- funcion p (lectura f) ;;
    let df := fst r in
    Ok (setcol "Origen" (repeat (SStr (capitalize (mes p))) (nfilas df)) df).

(** The loop over the sources: every [Exception] is caught and the
    file name noted; anything else leaves the loop. *)
Fixpoint fase1 (fs : string -> fuente) (ps : list procesador)
  (dataframes : list frame) (errores : list string)
  : res (list frame * list string) :=
  match ps with
  | [] => Ok (dataframes, errores)
  | p :: rest =>
      match intento p (fs (archivo p)) with
      | Ok df => fase1 fs rest (dataframes ++ [df]) errores
      | Raise e =>
          if is_Exception e
          then fase1 fs rest dataframes (errores ++ [archivo p])
          else Raise e
      end
  end.

(** No row names an operator: the ranking by operator is empty. *)
Definition sin_operadores (t : list fila) : bool :=
  forallb (fun f => isna (nth 4 f SNaN)) t.

(** State of a run when it ends: the output file if it was written,
    and how [ejecutar_etl] ended. *)
Record corrida := mkCorrida {
  salida : option (list fila);
  errores_de : list string;
  retorno : res (list fila)
}.

Section Corrida.
Variable numeric_text : str -> option pyfloat.

(** Outcome of the report and analytics code other than the look-up
    of the first operator of the ranking, as far as the run reaches
    it. *)
Variable resto_informe : list fila -> res unit.

Definition procesadores : list procesador :=
  [mkProcesador (txt "enero") "reporte_produccion_enero.csv"
     procesar_enero;
   mkProcesador (txt "febrero") "produccion_feb_sucio.csv"
     procesar_febrero;
   mkProcesador (txt "marzo") "prod_marzo_v2.csv"
     (procesar_marzo numeric_text)].

(** The report: [produccion_operador.index[0]] raises on an empty
    ranking. *)
Definition informe (t : list fila) : res unit :=
  _ <- resto_informe t ;;
  if sin_operadores t then Raise IndexError else Ok tt.

Definition ejecutar_etl (fs : string -> fuente) : corrida :=
  match fase1 fs procesadores [] [] with
  | Raise e => mkCorrida None [] (Raise e)
  | Ok (dataframes, errores) =>
      match dataframes with
      | [] => mkCorrida None errores (Raise (SystemExit 1))
      | _ :: _ =>
          let df_maestro := fst (unificar dataframes) in
          mkCorrida (Some df_maestro) errores
            (_ <- informe df_maestro ;; Ok df_maestro)
      end
  end.

(** Exit code of the process. *)
Definition codigo_salida (fs : string -> fuente) : Z :=
  match retorno (ejecutar_etl fs) with
  | Ok _ => 0
  | Raise KeyboardInterrupt => 0
  | Raise (SystemExit c) => c
  | Raise _ => 1
  end%Z.

(** The sources whose parser succeeded. *)
Definition exitos (fs : string -> fuente) : list frame :=
  match fase1 fs procesadores [] [] with
  | Ok (dataframes, _) => dataframes
  | Raise _ => []
  end.
End Corrida.

(** The machine-name rule as the specification words it, for
    comparison with [estandarizar_maquina]: only what ends the text is
    looked at.  [tail_len] gives the length of the trailing group (the
    run of digits, or the single capital letter); the group is joined
    by a hyphen to what precedes it when whitespace separates it from
    a code point accepted by [left]. *)
Definition hyphenate_trailing (tail_len : str -> nat)
  (left : char -> bool) (s : str) : str :=
  let r := rev s in
  let n := tail_len r in
  let t := firstn n r in
  let before := skipn n r in
  match t, take_while isspace before, drop_while isspace before with
  | _ :: _, _ :: _, c :: p =>
      if left c then rev (c :: p) ++ [45] ++ rev t else s
  | _, _, _ => s
  end.

Definition trailing_digits (r : str) : nat :=
  List.length (take_while isdigit r).

Definition trailing_capital (r : str) : nat :=
  match r with
  | c :: _ => if isupper_ascii c then 1%nat else 0%nat
  | [] => 0%nat
  end.

Definition normalizeMachine_spec (raw : str) : str :=
  let s := strip raw in
  let s := hyphenate_trailing trailing_digits
             (fun c => negb (isdigit c)) s in
  hyphenate_trailing trailing_capital isword s.

(** The product-name rule as the specification words it, for
    comparison with [estandarizar_producto]: the title-cased text is
    read as words separated by single spaces, and every interior word
    that is the connective De or Del is lowered. *)
Fixpoint split_space_from (cur : str) (s : str) : list str :=
  match s with
  | [] => [rev cur]
  | c :: r =>
      if c =? 32 then rev cur :: split_space_from [] r
      else split_space_from (c :: cur) r
  end.

Definition split_space (s : str) : list str := split_space_from [] s.

Fixpoint join_space (ws : list str) : str :=
  match ws with
  | [] => []
  | [w] => w
  | w :: rest => w ++ 32 :: join_space rest
  end.

Definition lower_connective (w : str) : str :=
  if str_eqb w (txt "De") || str_eqb w (txt "Del") then lower w else w.

(** The words after the first: all but the last go through [f]. *)
Fixpoint map_but_last (f : str -> str) (ws : list str) : list str :=
  match ws with
  | [] => []
  | [w] => [w]
  | w :: rest => f w :: map_but_last f rest
  end.

Definition map_interior (f : str -> str) (ws : list str) : list str :=
  match ws with
  | [] => []
  | w :: rest => w :: map_but_last f rest
  end.

Definition normalizeProduct_spec (raw : str) : str :=
  let s := title (replace [34] [] (strip raw)) in
  join_space (map_interior lower_connective (split_space s)).

(** ** Shapes of text used to state the properties *)

Definition nospace (c : char) : bool := negb (isspace c).

(** Neither whitespace nor a double quote. *)
Definition plain (c : char) : bool := nospace c && negb (c =? 34).

Definition noletter (c : char) : bool :=
  negb (in_range 65 90 c || in_range 97 122 c).

(** Is the number a float stands for an integer? *)
Definition is_integral (f : pyfloat) : bool :=
  match f with
  | FNum m k => (k <=? 0)%Z || (m mod 10 ^ k =? 0)%Z
  | _ => false
  end.

(** The quantity rule as the specification words it, for comparison
    with [limpiar_cantidad]: lowercase, then trim, then strip the
    noise, then read a number, 0 when that fails. *)
Definition normalizeQuantity_spec (raw : scalar) : pyfloat :=
  if isna raw then fzero
  else
    match py_float (sub_class_plus_empty qty_noise
                      (strip (lower (py_str raw)))) with
    | Ok f => f
    | Raise _ => fzero
    end.

(** The three layouts of the formats, by separator: [fmt_iso] is
    [fmt_ymd 45], [fmt_dmy_slash] is [fmt_dmy 47], and so on. *)
Definition fmt_ymd (sep : char) : format :=
  [FmtY; FmtLit sep; FmtM; FmtLit sep; FmtD].
Definition fmt_dmy (sep : char) : format :=
  [FmtD; FmtLit sep; FmtM; FmtLit sep; FmtY].
Definition fmt_mdy (sep : char) : format :=
  [FmtM; FmtLit sep; FmtD; FmtLit sep; FmtY].

Definition valid (d : date) : bool := valid_date (year d) (month d) (day d).

Definition fields_of (d : date) : fields :=
  mkFields (year d) (month d) (day d).


(** The shape dddd-dd-dd. *)
Definition is_iso_text (s : str) : bool :=
  match s with
  | [y1; y2; y3; y4; s1; m1; m2; s2; d1; d2] =>
      forallb isdigit [y1; y2; y3; y4; m1; m2; d1; d2]
      && (s1 =? 45) && (s2 =? 45)
  | _ => false
  end.

(** A recogniser of numeric text to run the March parser with: the
    literals [float] reads. *)
Definition numeric_text_float (s : str) : option pyfloat :=
  match py_float s with Ok f => Some f | Raise _ => None end.

(** A March file of two rows: 100 approved and 15 rejected, then 10
    approved and 25 rejected. *)
Definition marzo_ejemplo : frame :=
  [("FECHA", [SStr (txt "2026-03-02"); SStr (txt "2026-03-03")]);
   ("PRODUCTO", [SStr (txt "EJE PRINCIPAL"); SStr (txt "buje de bronce")]);
   ("CANT_APROBADA", [SInt 100; SInt 10]);
   ("CANT_RECHAZADA", [SInt 15; SInt 25]);
   ("MAQUINA", [SStr (txt "CNC 01"); SStr (txt "Fresadora B")]);
   ("OPERADOR", [SStr (txt "Ana"); SStr (txt "Luis")])]%string.

(** The concatenated table, and the same sorted by date. *)
Definition tabla_concatenada (dataframes : list frame) : list fila :=
  List.concat (map filas_de dataframes).

Definition tabla_ordenada (dataframes : list frame) : list fila :=
  sort_values (tabla_concatenada dataframes).

Definition fecha_le (a b : fila) : Prop := fecha_leb a b = true.

(** A January file of three rows; the third is the first again once
    normalized, the second has no quantity. *)
Definition enero_ejemplo : frame :=
  [("Fecha", [SStr (txt "2026-01-05"); SStr (txt "2026-01-03");
              SStr (txt "2026-01-05")]);
   ("Producto", [SStr (txt "eje principal"); SStr (txt "Tuerca Hex");
                 SStr (txt "EJE PRINCIPAL")]);
   ("Cantidad", [SFloat (txt "100.0"); SNaN; SFloat (txt "100.0")]);
   ("Maquina", [SStr (txt "CNC 01"); SStr (txt "Torno A");
                SStr (txt "CNC 01")]);
   ("Operador", [SStr (txt "Ana"); SStr (txt "Luis"); SStr (txt "Ana")])]%string.

(** A file system with the January and March files; the February file
    is absent. *)
Definition fs_ejemplo (name : string) : fuente :=
  if String.eqb name "reporte_produccion_enero.csv"
  then mkFuente true 300 (Ok enero_ejemplo)
  else if String.eqb name "prod_marzo_v2.csv"
  then mkFuente true 400 (Ok marzo_ejemplo)
  else mkFuente false 0 (Raise FileNotFoundError).



(** No file at all. *)
Definition fs_vacio (name : string) : fuente :=
  mkFuente false 0 (Raise FileNotFoundError).


(** A report whose remaining code completes. *)
Definition resto_ok (t : list fila) : res unit := Ok tt.

(** What the loop over the sources collects when nothing but
    [Exception]s is raised: the frames of the parsers that returned,
    and the names of the files whose parser raised. *)
Definition exitos_de (fs : string -> fuente) (ps : list procesador)
  : list frame :=
  flat_map (fun p => match intento p (fs (archivo p)) with
                     | Ok df => [df]
                     | Raise _ => []
                     end) ps.

Definition fallos_de (fs : string -> fuente) (ps : list procesador)
  : list string :=
  flat_map (fun p => match intento p (fs (archivo p)) with
                     | Ok _ => []
                     | Raise _ => [archivo p]
                     end) ps.

Definition solo_excepciones (fs : string -> fuente) (ps : list procesador)
  : bool :=
  forallb (fun p => match intento p (fs (archivo p)) with
                    | Ok _ => true
                    | Raise e => is_Exception e
                    end) ps.

(** A February file without its quantity column. *)
Definition febrero_sin_qty : frame :=
  [("Dia de Produccion", [SStr (txt "05/02/2026")]);
   ("Item", [SStr (txt "BUJE BRONCE")]);
   ("Machine_ID", [SStr (txt "CNC 02")]);
   ("Responsable", [SStr (txt "Marco")])]%string.

(** January present, February without a column, March of zero bytes. *)
Definition fs_con_fallos (name : string) : fuente :=
  if String.eqb name "reporte_produccion_enero.csv"
  then mkFuente true 300 (Ok enero_ejemplo)
  else if String.eqb name "produccion_feb_sucio.csv"
  then mkFuente true 90 (Ok febrero_sin_qty)
  else mkFuente true 0 (Raise EmptyDataError).


(** Chronological order of two dates. *)
Definition date_leb (a b : date) : bool :=
  (year a <? year b)
  || ((year a =? year b)
      && ((month a <? month b)
          || ((month a =? month b) && (day a <=? day b)))).

(** Labels of a frame, and whether a label is among them. *)
Definition nombres (df : frame) : list string := map fst df.

Definition tiene (df : frame) (n : string) : bool :=
  existsb (String.eqb n) (nombres df).

(** Every column has as many cells as the frame has rows. *)
Definition bien_formado (df : frame) : bool :=
  forallb (fun nc => Nat.eqb (List.length (snd nc)) (nfilas df)) df.

(** Labels with the number of cells under each. *)
Definition forma (df : frame) : list (string * nat) :=
  map (fun nc => (fst nc, List.length (snd nc))) df.

(** Every column has [n] cells. *)
Definition uniforme (n : nat) (df : frame) : bool :=
  forallb (fun nc => Nat.eqb (List.length (snd nc)) n) df.

(** A count cell as a clean file gives it: an integer, or missing. *)
Definition entero_o_nulo (v : scalar) : bool :=
  match v with
  | SInt _ | SNaN | SNone => true
  | _ => false
  end.

Definition COLUMNAS_MARZO : list string :=
  ["Fecha"; "Producto"; "Maquina"; "Operador"]%string.







(** Code points of ASCII and the Latin-1 supplement, the range of the
    character tables above. *)
Definition latin1 (c : char) : bool := c <? 256.

(** The dictionary [resumen] of the main loop, in the order of its
    keys: for each source whose attempt returned, the capitalized
    month with the number of rows its parser read and the number of
    rows of the frame appended. *)
Definition resumen_de (fs : string -> fuente) (ps : list procesador)
  : list (str * (nat * nat)) :=
  flat_map (fun p =>
    let f := fs (archivo p) in
    if negb (existe f) then []
    else if tamano f =? 0 then []
    else match funcion p (lectura f) with
         | Ok (df, filas_orig) =>
             let origen := capitalize (mes p) in
             let df := setcol "Origen" (repeat (SStr origen) (nfilas df)) df in
             [(origen, (filas_orig, nfilas df))]
         | Raise _ => []
         end) ps.

(** The totals of the final report and the test behind its Estado
    column. *)
Definition total_originales (resumen : list (str * (nat * nat))) : nat :=
  list_sum (map (fun e => fst (snd e)) resumen).

Definition total_finales (resumen : list (str * (nat * nat))) : nat :=
  list_sum (map (fun e => snd (snd e)) resumen).

Definition estado_ok (e : str * (nat * nat)) : bool :=
  Nat.eqb (fst (snd e)) (snd (snd e)).

(** Does the pattern [(L)\s+(R)] match somewhere in [s]? *)
Fixpoint hay_hueco (left : char -> bool) (right : char -> str -> bool)
  (s : str) : bool :=
  match s with
  | [] => false
  | c :: r => (left c && gap_then right r) || hay_hueco left right r
  end.

(** Is the first code point of [s] that is not whitespace accepted by
    [right]? *)
Definition primero (right : char -> str -> bool) (s : str) : bool :=
  match drop_while isspace s with
  | d :: r => right d r
  | [] => false
  end.

(** A text that does not end in whitespace; one that neither begins
    nor ends in whitespace. *)
Fixpoint fin_limpio (s : str) : bool :=
  match s with
  | [] => true
  | c :: r =>
      match r with
      | [] => negb (isspace c)
      | _ :: _ => fin_limpio r
      end
  end.

Definition limpio (s : str) : bool :=
  match s with
  | [] => true
  | c :: _ => negb (isspace c)
  end && fin_limpio s.

(** Are the labels all different?  [pd.read_csv] gives distinct
    labels; a renaming can make two of them equal. *)
Fixpoint distintas (l : list string) : bool :=
  match l with
  | [] => true
  | x :: r => negb (existsb (String.eqb x) r) && distintas r
  end.

(** A cell whose text is short enough for the number read from it to
    lie within the range of a float. *)
Definition texto_corto (v : scalar) : bool :=
  (List.length (py_str v) <? 300)%nat.

(** The cells of the Cantidad column, if there is one, are short. *)
Definition cantidades_cortas (df : frame) : bool :=
  match getcol df "Cantidad" with
  | Ok c => forallb texto_corto c
  | Raise _ => true
  end.

(** A word of a product name: not empty, made of code points below
    256 that are neither whitespace nor a double quote. *)
Definition palabra (w : str) : bool :=
  negb (str_eqb w []) && forallb plain w && forallb latin1 w.

(** No two neighbours in the list are both the word [c]. *)
Fixpoint sin_vecinos (c : str) (ws : list str) : bool :=
  match ws with
  | [] => true
  | a :: r =>
      negb (str_eqb a c
            && match r with b :: _ => str_eqb b c | [] => false end)
      && sin_vecinos c r
  end.

(** The word [c] written [c'], any other word as it is. *)
Definition baja (c c' w : str) : str := if str_eqb w c then c' else w.

(** The cells of a count column as [read_csv] types them: integers
    only, each an [int64], or no integer at all (a column that holds a
    float, a text or a missing cell has no integer cell). *)
Definition celdas_leidas (cells : list scalar) : bool :=
  forallb (fun v => match v with SInt z => en_int64 z | _ => false end)
    cells
  || forallb (fun v => match v with SInt _ => false | _ => true end)
       cells.

Definition cuentas_leidas (df : frame) : bool :=
  forallb (fun n => match getcol df n with
                    | Ok c => celdas_leidas c
                    | Raise _ => true
                    end) ["CANT_APROBADA"; "CANT_RECHAZADA"]%string.

(** The net quantity as the specification words it, for comparison
    with the March parser: each count read as a number, 0 when it is
    missing or not a number, and the difference of the two numbers. *)
Definition numero_spec (numeric_text : str -> option pyfloat)
  (v : scalar) : pyfloat :=
  match to_numeric numeric_text v with Some f => f | None => fzero end.

Definition resta_decimal (a b : pyfloat) : pyfloat :=
  match a, b with
  | FNum m1 k1, FNum m2 k2 =>
      FNum (m1 * 10 ^ k2 - m2 * 10 ^ k1) (k1 + k2)
  | _, _ => FNan
  end.

Definition netQuantity_spec (numeric_text : str -> option pyfloat)
  (va vr : scalar) : pyfloat :=
  resta_decimal (numero_spec numeric_text va) (numero_spec numeric_text vr).

(** Do two finite floats stand for the same number? *)
Definition mismo_numero (a b : pyfloat) : bool :=
  match a, b with
  | FNum m1 k1, FNum m2 k2 => (m1 * 10 ^ k2 =? m2 * 10 ^ k1)%Z
  | _, _ => false
  end.

(** A March file of one row whose counts are not whole: 1.5 approved
    and 0.75 rejected. *)
Definition marzo_fraccion : frame :=
  [("FECHA", [SStr (txt "2026-03-02")]);
   ("PRODUCTO", [SStr (txt "eje")]);
   ("CANT_APROBADA", [SFloat (txt "1.5")]);
   ("CANT_RECHAZADA", [SFloat (txt "0.75")]);
   ("MAQUINA", [SStr (txt "CNC 01")]);
   ("OPERADOR", [SStr (txt "Ana")])]%string.



(** * Properties *)

(** ** Character classes and trimming *)

Ltac charb :=
  unfold isword, iscased, isalpha, isupper_ascii, qty_noise, lower_char,
    isdigit, isspace, in_range in *;
  repeat rewrite ?andb_true_iff, ?orb_true_iff, ?andb_false_iff,
    ?orb_false_iff, ?negb_true_iff, ?negb_false_iff, ?N.leb_le,
    ?N.leb_gt, ?N.eqb_eq, ?N.eqb_neq in *;
  try lia.

Lemma digit_not_space c : isdigit c = true -> isspace c = false.
Proof. charb. Qed.

Lemma word_not_space c : isword c = true -> isspace c = false.
Proof. charb. Qed.

Lemma upper_not_space c : isupper_ascii c = true -> isspace c = false.
Proof. charb. Qed.

Lemma upper_not_digit c : isupper_ascii c = true -> isdigit c = false.
Proof. charb. Qed.

Lemma lstrip_head c r : isspace c = false -> lstrip (c :: r) = c :: r.
Proof. intros H; simpl; now rewrite H. Qed.

Lemma rstrip_last u c : isspace c = false -> rstrip (u ++ [c]) = u ++ [c].
Proof.
  intros H. unfold rstrip. rewrite rev_app_distr. simpl. rewrite H.
  simpl. now rewrite rev_involutive.
Qed.

Lemma lstrip_nospace_head s :
  match s with c :: _ => isspace c = false | [] => True end ->
  lstrip s = s.
Proof. destruct s as [|c r]; [reflexivity|apply lstrip_head]. Qed.

(** Trimming leaves alone a text whose ends are not whitespace. *)
Lemma strip_ends c u d :
  isspace c = false -> isspace d = false ->
  strip (c :: u ++ [d]) = c :: u ++ [d].
Proof.
  intros Hc Hd. unfold strip. rewrite lstrip_head by assumption.
  change (c :: u ++ [d]) with ((c :: u) ++ [d]).
  now apply rstrip_last.
Qed.

Lemma lstrip_idem s : lstrip (lstrip s) = lstrip s.
Proof.
  induction s as [|c r IH]; [reflexivity|]. simpl.
  destruct (isspace c) eqn:E; [exact IH|]. simpl. now rewrite E.
Qed.

Lemma lstrip_app_nospace u c r :
  isspace c = false -> lstrip (u ++ c :: r) = lstrip (u ++ [c]) ++ r.
Proof.
  intros H. induction u as [|a u IH]; simpl.
  - now rewrite H.
  - destruct (isspace a); [exact IH|]. simpl. now rewrite <- app_assoc.
Qed.

Lemma lstrip_all_space s : forallb isspace s = true -> lstrip s = [].
Proof.
  induction s as [|c r IH]; [reflexivity|]. simpl.
  intros H. apply andb_true_iff in H as [Hc Hr]. rewrite Hc. auto.
Qed.

Lemma lstrip_cases s :
  (lstrip s = [] /\ forallb isspace s = true)
  \/ exists ws c r, s = ws ++ c :: r /\ forallb isspace ws = true
                    /\ isspace c = false /\ lstrip s = c :: r.
Proof.
  induction s as [|a s IH]; [left; auto|]. simpl.
  destruct (isspace a) eqn:E.
  - destruct IH as [[H1 H2]|(ws & c & r & H1 & H2 & H3 & H4)].
    + left. auto.
    + right. exists (a :: ws), c, r. subst s. simpl. rewrite E, H2. auto.
  - right. exists [], a, s. auto.
Qed.

Lemma rstrip_cases s :
  (rstrip s = [] /\ forallb isspace s = true)
  \/ exists u c ws, s = u ++ c :: ws /\ forallb isspace ws = true
                    /\ isspace c = false /\ rstrip s = u ++ [c].
Proof.
  unfold rstrip.
  destruct (lstrip_cases (rev s)) as [[H1 H2]|(ws & c & r & H1 & H2 & H3 & H4)].
  - left. rewrite H1. split; [reflexivity|].
    rewrite forallb_forall in *. intros x Hx. apply H2.
    now apply in_rev in Hx.
  - right. exists (rev r), c, (rev ws).
    rewrite H4. simpl. repeat split; auto.
    + rewrite <- (rev_involutive s), H1, rev_app_distr. simpl.
      now rewrite <- app_assoc.
    + rewrite forallb_forall in *. intros x Hx. apply H2.
      now apply in_rev.
Qed.

Lemma rstrip_idem s : rstrip (rstrip s) = rstrip s.
Proof.
  destruct (rstrip_cases s) as [[H1 H2]|(u & c & ws & H1 & H2 & H3 & H4)].
  - rewrite H1. reflexivity.
  - rewrite H4. now apply rstrip_last.
Qed.

Lemma lstrip_rstrip_last u c :
  isspace c = false ->
  exists v, lstrip (u ++ [c]) = v ++ [c].
Proof.
  intros H. induction u as [|a u IH]; simpl.
  - rewrite H. now exists [].
  - destruct (isspace a); [exact IH|]. now exists (a :: u).
Qed.

(** [strip] is idempotent. *)
Lemma strip_idem s : strip (strip s) = strip s.
Proof.
  unfold strip.
  destruct (rstrip_cases (lstrip s)) as [[H1 H2]|(u & c & ws & H1 & H2 & H3 & H4)].
  - rewrite H1. reflexivity.
  - rewrite H4.
    assert (Hl : lstrip (u ++ [c]) = u ++ [c]).
    { destruct u as [|a u]; simpl.
      - now rewrite H3.
      - assert (Ha : isspace a = false).
        { destruct (lstrip_cases s) as [[E _]|(ws' & c' & r' & _ & _ & E1 & E2)].
          - rewrite E in H1. destruct u; discriminate.
          - rewrite E2 in H1. simpl in H1. injection H1 as -> _. exact E1. }
        now rewrite Ha. }
    rewrite Hl. now apply rstrip_last.
Qed.

Lemma lstrip_nospace_start q p :
  q <> [] -> forallb nospace q = true -> lstrip (q ++ p) = q ++ p.
Proof.
  destruct q as [|c q]; [congruence|]. intros _ H. simpl in H.
  apply andb_true_iff in H as [Hc _]. apply negb_true_iff in Hc.
  rewrite <- app_comm_cons. now apply lstrip_head.
Qed.

Lemma rstrip_nospace_end p q :
  q <> [] -> forallb nospace q = true -> rstrip (p ++ q) = p ++ q.
Proof.
  intros Hq H. destruct (exists_last Hq) as (q' & a & ->).
  rewrite forallb_app in H. apply andb_true_iff in H as [_ Ha].
  simpl in Ha. rewrite andb_true_r in Ha. apply negb_true_iff in Ha.
  rewrite app_assoc. now apply rstrip_last.
Qed.

Lemma strip_nospace_ends q p q' :
  q <> [] -> forallb nospace q = true ->
  q' <> [] -> forallb nospace q' = true ->
  strip (q ++ p ++ q') = q ++ p ++ q'.
Proof.
  intros H1 H2 H3 H4. unfold strip.
  rewrite lstrip_nospace_start by assumption.
  rewrite app_assoc. now apply rstrip_nospace_end.
Qed.

Lemma strip_nospace s : forallb nospace s = true -> strip s = s.
Proof.
  intros Hs. destruct s as [|a s]; [reflexivity|].
  pose proof (strip_nospace_ends (q := a :: s) [] (q' := a :: s)) as H.
  unfold strip in *.
  rewrite <- (app_nil_r (a :: s)) at 1.
  rewrite lstrip_nospace_start by (auto; discriminate).
  rewrite app_nil_r. rewrite <- (app_nil_l (a :: s)) at 1.
  rewrite rstrip_nospace_end by (auto; discriminate). reflexivity.
Qed.

Lemma digits_nospace ds :
  forallb isdigit ds = true -> forallb nospace ds = true.
Proof.
  rewrite !forallb_forall. intros H x Hx. unfold nospace.
  apply negb_true_iff, digit_not_space. auto.
Qed.

(** ** Quantity clean-up *)

Example limpiar_cantidad_pzas :
  limpiar_cantidad (SStr (txt "100 pzas")) = Ok (FNum 100 0).
Proof. reflexivity. Qed.

Example limpiar_cantidad_und :
  limpiar_cantidad (SStr (txt "  250   und ")) = Ok (FNum 250 0).
Proof. reflexivity. Qed.

Example limpiar_cantidad_frac :
  limpiar_cantidad (SStr (txt "2.5")) = Ok (FNum 25 1).
Proof. reflexivity. Qed.

Example limpiar_cantidad_float_cell :
  limpiar_cantidad (SFloat (txt "1e+16")) = Ok fzero.
Proof. reflexivity. Qed.

Example limpiar_cantidad_neg :
  limpiar_cantidad (SStr (txt "-5 pzas")) = Ok (FNum (-5) 0).
Proof. reflexivity. Qed.

(** ** Dates *)

Example fecha_iso :
  estandarizar_fecha (SStr (txt "2026-01-15")) None
  = Ok (SStr (txt "2026-01-15")).
Proof. reflexivity. Qed.

Example fecha_dmy :
  estandarizar_fecha (SStr (txt " 15/01/2026 ")) None
  = Ok (SStr (txt "2026-01-15")).
Proof. reflexivity. Qed.

Example fecha_mdy_ambiguous :
  estandarizar_fecha (SStr (txt "03/04/2026")) None
  = Ok (SStr (txt "2026-04-03")).
Proof. reflexivity. Qed.

Example fecha_passthrough :
  estandarizar_fecha (SStr (txt "31/02/2026")) None
  = Ok (SStr (txt "31/02/2026")).
Proof. reflexivity. Qed.

(** ** Product and machine names *)

Example producto_buje :
  estandarizar_producto (SStr (txt "BUJE BRONCE"))
  = Ok (SStr (txt "Buje Bronce")).
Proof. reflexivity. Qed.

Example producto_eje :
  estandarizar_producto (SStr (txt "eje del motor"))
  = Ok (SStr (txt "Eje del Motor")).
Proof. reflexivity. Qed.

Example producto_de_de :
  estandarizar_producto (SStr (txt "a de de b"))
  = Ok (SStr (txt "A de De B")).
Proof. reflexivity. Qed.

Example maquina_cnc :
  estandarizar_maquina (SStr (txt "CNC 01")) = Ok (SStr (txt "CNC-01")).
Proof. reflexivity. Qed.

Example maquina_fresadora :
  estandarizar_maquina (SStr (txt "Fresadora B"))
  = Ok (SStr (txt "Fresadora-B")).
Proof. reflexivity. Qed.

Example maquina_guion :
  estandarizar_maquina (SStr (txt "Ya-Tiene-Guion"))
  = Ok (SStr (txt "Ya-Tiene-Guion")).
Proof. reflexivity. Qed.

Example maquina_dos_grupos :
  estandarizar_maquina (SStr (txt "Linea 2 Torno 05"))
  = Ok (SStr (txt "Linea-2 Torno-05")).
Proof. reflexivity. Qed.

Example maquina_spec_cnc :
  normalizeMachine_spec (txt "CNC 01") = txt "CNC-01".
Proof. reflexivity. Qed.

Example maquina_spec_fresadora :
  normalizeMachine_spec (txt "Fresadora B") = txt "Fresadora-B".
Proof. reflexivity. Qed.

Example maquina_spec_dos_grupos :
  normalizeMachine_spec (txt "Linea 2 Torno 05") = txt "Linea 2 Torno-05".
Proof. reflexivity. Qed.

(** ** Quantities *)

Lemma In_lstrip c s : In c (lstrip s) -> In c s.
Proof.
  induction s as [|a s IH]; [easy|]. simpl.
  destruct (isspace a); [right; auto|auto].
Qed.

Lemma In_strip c s : In c (strip s) -> In c s.
Proof.
  unfold strip, rstrip. intros H. apply in_rev in H.
  apply In_lstrip in H. apply in_rev in H. now apply In_lstrip.
Qed.

Lemma In_drop_while p c s : In c (drop_while p s) -> In c s.
Proof.
  induction s as [|a s IH]; [easy|]. simpl.
  destruct (p a); [right; auto|auto].
Qed.

Lemma In_strip_underscores c s : forall prev t,
  strip_underscores_from prev s = Some t -> In c t -> In c s.
Proof.
  induction s as [|a s IH]; intros prev t H Hin; simpl in H.
  - destruct (prev =? 95); [discriminate|]. now injection H as <-.
  - destruct (a =? 95).
    + destruct (isdigit prev); [|discriminate]. right. eauto.
    + destruct ((prev =? 95) && negb (isdigit a)); [discriminate|].
      destruct (strip_underscores_from a s) as [t'|] eqn:E; [|discriminate].
      injection H as <-. destruct Hin as [->|Hin]; [now left|right; eauto].
Qed.

Lemma str_eqb_eq a : forall b, str_eqb a b = true -> a = b.
Proof.
  induction a as [|x a IH]; intros [|y b] H; try discriminate; auto.
  simpl in H. apply andb_true_iff in H as [Hx Hab].
  apply N.eqb_eq in Hx. f_equal; auto.
Qed.

Lemma digits_value_from_nonneg ds : forall acc,
  (0 <= acc)%Z ->
  (0 <= fold_left (fun a c => a * 10 + Z.of_N (c - 48)) ds acc)%Z.
Proof.
  induction ds as [|d ds IH]; intros acc H; simpl; [exact H|].
  apply IH. lia.
Qed.

Lemma digits_value_nonneg ds : (0 <= digits_value ds)%Z.
Proof. apply digits_value_from_nonneg. lia. Qed.

(** Lowering a letter gives a letter, and nothing else becomes one. *)
Lemma lower_char_letter c :
  noletter (lower_char c) = false -> noletter c = false.
Proof.
  unfold noletter, lower_char.
  destruct (in_range 65 90 c || in_range 192 214 c || in_range 216 222 c)
    eqn:E; charb.
Qed.

Lemma lower_char_minus c : lower_char c = 45 -> c = 45.
Proof.
  unfold lower_char.
  destruct (in_range 65 90 c || in_range 192 214 c || in_range 216 222 c)
    eqn:E; charb.
Qed.

Lemma lower_char_space c : isspace (lower_char c) = isspace c.
Proof.
  unfold lower_char.
  destruct (in_range 65 90 c || in_range 192 214 c || in_range 216 222 c)
    eqn:E; [|reflexivity].
  assert (isspace c = false) as -> by charb.
  charb.
Qed.

Lemma lstrip_lower s : lstrip (lower s) = lower (lstrip s).
Proof.
  induction s as [|c s IH]; [reflexivity|]. simpl.
  rewrite lower_char_space. destruct (isspace c); [exact IH|reflexivity].
Qed.

(** Lowering and trimming commute. *)
Lemma strip_lower s : strip (lower s) = lower (strip s).
Proof.
  unfold strip, rstrip, lower.
  fold (lower s). rewrite lstrip_lower. unfold lower.
  rewrite <- map_rev. fold (lower (rev (lstrip s))).
  rewrite lstrip_lower. unfold lower. now rewrite map_rev.
Qed.

(** After the clean-up no ASCII letter is left, lower or upper case. *)
Lemma cleaned_noletter s :
  forallb noletter (sub_class_plus_empty qty_noise (lower s)) = true.
Proof.
  apply forallb_forall. intros c Hc. unfold sub_class_plus_empty in Hc.
  apply filter_In in Hc as [Hin Hn]. unfold lower in Hin.
  apply in_map_iff in Hin as (x & <- & _).
  revert Hn. unfold noletter, lower_char.
  destruct (in_range 65 90 x || in_range 192 214 x || in_range 216 222 x)
    eqn:E; charb.
Qed.

Lemma cleaned_minus s :
  In 45 (sub_class_plus_empty qty_noise (lower (strip s))) -> In 45 s.
Proof.
  unfold sub_class_plus_empty. intros H. apply filter_In in H as [H _].
  unfold lower in H. apply in_map_iff in H as (x & Hx & Hin).
  apply lower_char_minus in Hx. subst x. now apply In_strip.
Qed.

Lemma noletter_In s c :
  forallb noletter s = true -> In c s -> noletter c = true.
Proof. rewrite forallb_forall. auto. Qed.

Lemma parse_sign_spec s neg r :
  parse_sign s = (neg, r) ->
  (forall c, In c r -> In c s) /\ (neg = true -> In 45 s).
Proof.
  unfold parse_sign. destruct s as [|c s'].
  - intros [= <- <-]. split; [auto|discriminate].
  - destruct (N.eqb_spec c 45) as [->|_].
    + intros [= <- <-]. split; [intros; now right|intros; now left].
    + destruct (c =? 43); intros [= <- <-]; split;
        try discriminate; auto; intros; now right.
Qed.

(** A word of letters is never read from a text without letters. *)
Lemma no_keyword r (w : string) c0 rest :
  txt w = c0 :: rest -> noletter c0 = false ->
  forallb noletter r = true -> str_eqb (lower r) (txt w) = false.
Proof.
  intros Hw Hc0 Hr. destruct (str_eqb (lower r) (txt w)) eqn:E; [|reflexivity].
  apply str_eqb_eq in E. rewrite Hw in E.
  destruct r as [|x r']; [discriminate|]. simpl in E. injection E as Ex _.
  simpl in Hr. apply andb_true_iff in Hr as [Hx _].
  rewrite <- Ex in Hc0. apply lower_char_letter in Hc0. congruence.
Qed.

Lemma parse_exponent_noletter s e :
  forallb noletter s = true -> parse_exponent s = Some e -> e = 0%Z.
Proof.
  unfold parse_exponent. destruct s as [|c r]; [now intros _ [= <-]|].
  intros H. simpl in H. apply andb_true_iff in H as [Hc _].
  destruct ((c =? 101) || (c =? 69)) eqn:E; [|discriminate].
  exfalso. revert Hc E. unfold noletter. charb.
Qed.

Unset Implicit Arguments.

(** *** Rounding to binary64 *)

Section Redondeo.
Local Open Scope Z_scope.

Lemma div_half_even_1 n : div_half_even n 1 = n.
Proof. unfold div_half_even. now rewrite Z.div_1_r, Z.mod_1_r. Qed.

Lemma div_half_even_nonneg n d :
  0 <= n -> 0 < d -> 0 <= div_half_even n d.
Proof.
  intros Hn Hd. unfold div_half_even.
  pose proof (Z.div_pos n d Hn Hd).
  destruct (2 * (n mod d) <? d); [lia|].
  destruct (d <? 2 * (n mod d)); [lia|].
  destruct (Z.even (n / d)); lia.
Qed.

Lemma nearest_nonneg n d s e :
  0 <= n -> 0 < d -> nearest n d = (s, e) -> 0 <= s.
Proof.
  intros Hn Hd. unfold nearest. intros [= <- <-].
  destruct (Z.leb_spec 0 (Z.max (floor_log2 n d - 52) (-1074))).
  - apply div_half_even_nonneg; [lia|].
    apply Z.mul_pos_pos; [lia|]. apply Z.pow_pos_nonneg; lia.
  - apply div_half_even_nonneg; [|lia].
    apply Z.mul_nonneg_nonneg; [lia|]. apply Z.pow_nonneg. lia.
Qed.

Lemma dyadic_shape s e a j :
  0 <= s -> dyadic s e = (a, j) -> 0 <= a /\ 0 <= j.
Proof.
  unfold dyadic. intros Hs. destruct (0 <=? e).
  - intros [= <- <-]. split; [|lia].
    apply Z.mul_nonneg_nonneg; [lia|]. apply Z.pow_nonneg. lia.
  - intros [= <- <-]. split; [|apply Z.log2_nonneg].
    apply Z.mul_nonneg_nonneg; [|apply Z.pow_nonneg; lia].
    apply Z_div_nonneg_nonneg; [lia|apply Z.gcd_nonneg].
Qed.

(** An integer comes back whole from a negative binary exponent. *)
Lemma dyadic_int n e : e < 0 -> dyadic (n * 2 ^ (- e)) e = (n, 0).
Proof.
  intros He. unfold dyadic. destruct (Z.leb_spec 0 e); [lia|].
  assert (Hp : 0 < 2 ^ (- e)) by (apply Z.pow_pos_nonneg; lia).
  set (p := 2 ^ (- e)) in *.
  rewrite Z.gcd_comm, (Z.mul_comm n p), Z.gcd_mul_diag_l by lia.
  rewrite Z.div_same by lia.
  rewrite (Z.mul_comm p n), Z.div_mul by lia.
  cbn [Z.log2 Z.pow Z.pow_pos]. f_equal. lia.
Qed.

Lemma nearest_int n s e :
  nearest n 1 = (s, e) ->
  dyadic s e = (if 0 <=? e then s * 2 ^ e else n, 0).
Proof.
  unfold nearest. intros [= <- <-].
  set (e := Z.max (floor_log2 n 1 - 52) (-1074)).
  destruct (Z.leb_spec 0 e) as [He|He].
  - unfold dyadic. destruct (Z.leb_spec 0 e); [reflexivity|lia].
  - rewrite div_half_even_1. now apply dyadic_int.
Qed.

Lemma floor_log2_le n : floor_log2 n 1 <= Z.log2 n.
Proof.
  unfold floor_log2. cbn [Z.log2]. rewrite Z.sub_0_r.
  destruct (if 0 <=? Z.log2 n then _ else _); lia.
Qed.

Lemma small_below_limit : 2 ^ 53 <= FLOAT_LIMIT /\ 10 ^ 300 <= FLOAT_LIMIT.
Proof. split; apply Z.leb_le; vm_compute; reflexivity. Qed.

(** An integer of at most 53 bits is a float. *)
Lemma binary64_exact m : Z.abs m < 2 ^ 53 -> binary64 m 0 = FNum m 0.
Proof.
  intros Hm. unfold binary64. cbn [Z.leb Z.compare Z.pow Z.pow_pos].
  change (Pos.iter (Z.mul 10) 1 1) with 1.
  destruct (Z.eqb_spec (Z.abs m) 0) as [E|E]; [f_equal; lia|].
  destruct (Z.leb_spec (FLOAT_LIMIT * 1) (Z.abs m)) as [L|_].
  - exfalso. destruct small_below_limit as [B _]. lia.
  - destruct (nearest (Z.abs m) 1) as [s e] eqn:En.
    rewrite (nearest_int _ _ _ En).
    unfold nearest in En. injection En as Es Ee.
    pose proof (floor_log2_le (Z.abs m)) as F.
    assert (Lg : Z.log2 (Z.abs m) < 53) by (apply Z.log2_lt_pow2; lia).
    destruct (Z.leb_spec 0 e) as [He|He].
    + assert (E0 : e = 0) by lia. rewrite E0 in *. rewrite Ee in Es.
      cbn [Z.leb Z.compare Z.pow Z.mul Pos.mul] in Es.
      rewrite div_half_even_1 in Es. subst s.
      cbn [Z.pow]. rewrite Z.mul_1_r.
      destruct (Z.ltb_spec m 0); f_equal; lia.
    + destruct (Z.ltb_spec m 0); f_equal; lia.
Qed.

(** What is read from an integer is an integer. *)
Lemma binary64_scale0 m a j : binary64 m 0 = FNum a j -> j = 0.
Proof.
  unfold binary64. cbn [Z.leb Z.compare Z.pow Z.pow_pos].
  change (Pos.iter (Z.mul 10) 1 1) with 1.
  destruct (Z.abs m =? 0); [now intros [= _ <-]|].
  destruct (FLOAT_LIMIT * 1 <=? Z.abs m); [discriminate|].
  destruct (nearest (Z.abs m) 1) as [s e] eqn:En.
  rewrite (nearest_int _ _ _ En). now intros [= _ <-].
Qed.

Lemma binary64_sign m k a j :
  binary64 m k = FNum a j ->
  0 <= j /\ (0 <= m -> 0 <= a).
Proof.
  unfold binary64.
  set (n := if 0 <=? k then Z.abs m else Z.abs m * 10 ^ (- k)).
  set (d := if 0 <=? k then 10 ^ k else 1).
  assert (Hn : 0 <= n).
  { unfold n. destruct (0 <=? k); [lia|].
    apply Z.mul_nonneg_nonneg; [lia|]. apply Z.pow_nonneg. lia. }
  assert (Hd : 0 < d).
  { unfold d. destruct (Z.leb_spec 0 k); [|lia].
    apply Z.pow_pos_nonneg; lia. }
  destruct (n =? 0); [intros [= <- <-]; lia|].
  destruct (FLOAT_LIMIT * d <=? n); [discriminate|].
  destruct (nearest n d) as [s e] eqn:En.
  destruct (dyadic s e) as [a' j'] eqn:Ed.
  intros [= <- <-].
  destruct (dyadic_shape _ _ _ _ (nearest_nonneg _ _ _ _ Hn Hd En) Ed).
  destruct (Z.ltb_spec m 0); lia.
Qed.

(** A decimal below 10^300 is read as a finite float. *)
Lemma binary64_finite m k :
  0 <= k -> Z.abs m < 10 ^ 300 -> exists a j, binary64 m k = FNum a j.
Proof.
  intros Hk Hm. unfold binary64.
  destruct (Z.leb_spec 0 k); [|lia].
  destruct (Z.abs m =? 0); [eauto|].
  destruct (Z.leb_spec (FLOAT_LIMIT * 10 ^ k) (Z.abs m)) as [L|_].
  - exfalso. destruct small_below_limit as [_ B].
    assert (P : 0 < 10 ^ k) by (apply Z.pow_pos_nonneg; lia).
    set (x := 10 ^ 300) in *. set (y := 10 ^ k) in *.
    set (l := FLOAT_LIMIT) in *. clearbody x y l. nia.
  - destruct (nearest (Z.abs m) (10 ^ k)) as [s e].
    destruct (dyadic s e) as [a j]. eauto.
Qed.

End Redondeo.

(** *** Lengths *)

Lemma length_lstrip s : (List.length (lstrip s) <= List.length s)%nat.
Proof.
  induction s as [|c s IH]; [simpl; lia|]. simpl.
  destruct (isspace c); simpl; lia.
Qed.

Lemma length_strip s : (List.length (strip s) <= List.length s)%nat.
Proof.
  unfold strip, rstrip. rewrite length_rev.
  pose proof (length_lstrip (rev (lstrip s))).
  pose proof (length_lstrip s). rewrite length_rev in *. lia.
Qed.

Lemma length_strip_underscores s : forall prev t,
  strip_underscores_from prev s = Some t ->
  (List.length t <= List.length s)%nat.
Proof.
  induction s as [|a s IH]; intros prev t H; simpl in H.
  - destruct (prev =? 95); [discriminate|]. injection H as <-. simpl. lia.
  - destruct (a =? 95).
    + destruct (isdigit prev); [|discriminate].
      specialize (IH _ _ H). simpl. lia.
    + destruct ((prev =? 95) && negb (isdigit a)); [discriminate|].
      destruct (strip_underscores_from a s) as [t'|] eqn:E; [|discriminate].
      injection H as <-. specialize (IH _ _ E). simpl. lia.
Qed.

Lemma length_parse_sign s neg r :
  parse_sign s = (neg, r) -> (List.length r <= List.length s)%nat.
Proof.
  unfold parse_sign. destruct s as [|c s']; [intros [= <- <-]; lia|].
  destruct (c =? 45); [intros [= <- <-]; simpl; lia|].
  destruct (c =? 43); intros [= <- <-]; simpl; lia.
Qed.

Lemma take_drop_while (p : N -> bool) s :
  take_while p s ++ drop_while p s = s.
Proof.
  induction s as [|c s IH]; [reflexivity|]. simpl.
  destruct (p c); [simpl; now rewrite IH|reflexivity].
Qed.

Lemma forallb_take_while (p : N -> bool) s :
  forallb p (take_while p s) = true.
Proof.
  induction s as [|c s IH]; [reflexivity|]. simpl.
  destruct (p c) eqn:E; [simpl; now rewrite E|reflexivity].
Qed.

Lemma digits_value_from_lt ds : forall acc,
  forallb isdigit ds = true -> (0 <= acc)%Z ->
  (fold_left (fun a c => a * 10 + Z.of_N (c - 48)) ds acc
   < (acc + 1) * 10 ^ Z.of_nat (List.length ds))%Z.
Proof.
  induction ds as [|d ds IH]; intros acc H Ha.
  - simpl. lia.
  - cbn [forallb] in H. apply andb_true_iff in H as [Hd Hds].
    cbn [fold_left List.length]. rewrite Nat2Z.inj_succ, Z.pow_succ_r by lia.
    assert (Hd9 : (Z.of_N (d - 48) <= 9)%Z) by (revert Hd; charb).
    specialize (IH (acc * 10 + Z.of_N (d - 48))%Z Hds ltac:(lia)).
    assert (P : (0 < 10 ^ Z.of_nat (List.length ds))%Z)
      by (apply Z.pow_pos_nonneg; lia).
    set (x := (10 ^ Z.of_nat (List.length ds))%Z) in *. clearbody x. nia.
Qed.

(** A run of [n] digits writes a number below [10^n]. *)
Lemma digits_value_lt ds :
  forallb isdigit ds = true ->
  (digits_value ds < 10 ^ Z.of_nat (List.length ds))%Z.
Proof.
  intros H. pose proof (digits_value_from_lt ds 0%Z H ltac:(lia)) as B.
  unfold digits_value. lia.
Qed.

Lemma pow10_le (a b : nat) :
  (a <= b)%nat -> (10 ^ Z.of_nat a <= 10 ^ Z.of_nat b)%Z.
Proof. intros H. apply Z.pow_le_mono_r; lia. Qed.

(** What is read after the sign from a text without letters: digits,
    with as many decimals as stand after the point. *)
Lemma parse_number_noletter neg s f :
  forallb noletter s = true -> parse_number neg s = Some f ->
  exists m k, f = FNum (signed neg m) k /\ (0 <= m)%Z /\ (0 <= k)%Z
              /\ (m < 10 ^ Z.of_nat (List.length s))%Z
              /\ (~ In 46 s -> k = 0%Z).
Proof.
  intros Hs. unfold parse_number.
  pose proof (take_drop_while isdigit s) as Hsplit.
  set (ip := take_while isdigit s) in *.
  set (r1 := drop_while isdigit s) in *.
  assert (Hr1 : forall c, In c r1 -> In c s)
    by (intros c; apply In_drop_while).
  destruct (match r1 with
            | [] => ([], r1)
            | c :: r => if c =? 46
                        then (take_while isdigit r, drop_while isdigit r)
                        else ([], r1)
            end) as [fp r2] eqn:E.
  assert (Hr2 : forall c, In c r2 -> In c s).
  { destruct r1 as [|c r]; [injection E as <- <-; auto|].
    destruct (c =? 46); injection E as <- <-; auto.
    intros x Hx. apply Hr1. right. eapply In_drop_while; eauto. }
  assert (Hfp : forallb isdigit fp = true
                /\ (List.length fp <= List.length r1)%nat
                /\ (~ In 46 s -> fp = [])).
  { destruct r1 as [|c r]; [injection E as <- <-; auto|].
    destruct (N.eqb_spec c 46) as [->|_]; injection E as <- <-.
    - split; [apply forallb_take_while|]. split.
      + pose proof (take_drop_while isdigit r) as T.
        apply (f_equal (@List.length N)) in T. rewrite length_app in T.
        simpl. lia.
      + intros Hno. exfalso. apply Hno, Hr1. now left.
    - split; [reflexivity|]. split; [simpl; lia|reflexivity]. }
  destruct Hfp as (Dfp & Lfp & Nfp).
  destruct (ip ++ fp) as [|d ds] eqn:Eds; [discriminate|].
  destruct (parse_exponent r2) as [e|] eqn:Ee; [|discriminate].
  intros [= <-].
  assert (e = 0%Z) as ->.
  { eapply parse_exponent_noletter; [|exact Ee].
    apply forallb_forall. intros x Hx. eapply noletter_In; eauto. }
  exists (digits_value (d :: ds)), (Z.of_nat (List.length fp) - 0)%Z.
  split; [reflexivity|]. split; [apply digits_value_nonneg|].
  split; [lia|]. split.
  - rewrite <- Eds.
    assert (D : forallb isdigit (ip ++ fp) = true).
    { rewrite forallb_app, Dfp. unfold ip.
      now rewrite forallb_take_while. }
    pose proof (digits_value_lt _ D) as B.
    assert (L : (List.length (ip ++ fp) <= List.length s)%nat).
    { rewrite length_app.
      pose proof (f_equal (@List.length N) Hsplit) as T.
      rewrite length_app in T. lia. }
    pose proof (pow10_le _ _ L). lia.
  - intros Hno. rewrite (Nfp Hno). simpl. lia.
Qed.

(** What [float] reads from a text without ASCII letters is the float
    nearest to a plain decimal: no NaN, no exponent; the decimal has
    no more digits than the text has code points, is negative only
    when the text holds a minus sign, and has decimals only when the
    text holds a point. *)
Lemma py_float_noletter s f :
  forallb noletter s = true -> py_float s = Ok f ->
  exists m k, f = binary64 m k /\ (0 <= k)%Z
              /\ (~ In 45 s -> (0 <= m)%Z)
              /\ (Z.abs m < 10 ^ Z.of_nat (List.length s))%Z
              /\ (~ In 46 s -> k = 0%Z).
Proof.
  intros Hs. unfold py_float.
  destruct (strip_underscores_from 0 (strip s)) as [t|] eqn:Et; [|discriminate].
  assert (Ht : forall c, In c t -> In c s).
  { intros c Hc. apply In_strip. eapply In_strip_underscores; eauto. }
  assert (Lt : (List.length t <= List.length s)%nat).
  { pose proof (length_strip_underscores _ _ _ Et).
    pose proof (length_strip s). lia. }
  unfold parse_float. destruct (parse_sign t) as [neg r] eqn:Esg.
  destruct (parse_sign_spec _ Esg) as [Hr Hneg].
  pose proof (length_parse_sign _ _ _ Esg) as Lr.
  assert (Nr : forallb noletter r = true).
  { apply forallb_forall. intros x Hx. eapply noletter_In; eauto. }
  rewrite (no_keyword r "inf" eq_refl eq_refl Nr).
  rewrite (no_keyword r "infinity" eq_refl eq_refl Nr).
  rewrite (no_keyword r "nan" eq_refl eq_refl Nr). cbn [orb].
  destruct (parse_number neg r) as [g|] eqn:Eg; [|discriminate].
  intros [= <-].
  destruct (parse_number_noletter _ _ _ Nr Eg)
    as (m & k & -> & Hm & Hk & Hlt & Hpt).
  exists (signed neg m), k. cbn [redondear].
  split; [reflexivity|]. split; [exact Hk|]. split; [|split].
  - intros Hno. destruct neg; [|exact Hm].
    exfalso. apply Hno, Ht, Hneg. reflexivity.
  - assert (L : (List.length r <= List.length s)%nat) by lia.
    pose proof (pow10_le _ _ L).
    unfold signed. destruct neg; lia.
  - intros Hno. apply Hpt. intros Hin. apply Hno, Ht, Hr, Hin.
Qed.

Lemma py_float_raises s e : py_float s = Raise e -> e = ValueError.
Proof.
  unfold py_float.
  destruct (strip_underscores_from 0 (strip s)) as [t|]; [|now intros [= <-]].
  destruct (parse_float t); [discriminate|now intros [= <-]].
Qed.

(** *** What the clean-up leaves *)

Lemma filter_lstrip (p : N -> bool) s :
  (forall c, isspace c = true -> p c = false) ->
  filter p (lstrip s) = filter p s.
Proof.
  intros H. induction s as [|c s IH]; [reflexivity|]. simpl.
  destruct (isspace c) eqn:E; [|reflexivity].
  now rewrite (H c E).
Qed.

Lemma filter_strip (p : N -> bool) s :
  (forall c, isspace c = true -> p c = false) ->
  filter p (strip s) = filter p s.
Proof.
  intros H. unfold strip, rstrip.
  rewrite filter_rev, filter_lstrip, <- filter_rev, rev_involutive by exact H.
  now apply filter_lstrip.
Qed.

(** Trimming changes nothing to what is left after the clean-up. *)
Lemma cleaned_strip s :
  sub_class_plus_empty qty_noise (lower (strip s))
  = sub_class_plus_empty qty_noise (lower s).
Proof.
  rewrite <- strip_lower. unfold sub_class_plus_empty.
  apply filter_strip. intros c H. unfold qty_noise. rewrite H.
  now rewrite !orb_true_r.
Qed.

Lemma cleaned_length s :
  (List.length (sub_class_plus_empty qty_noise (lower (strip s)))
   <= List.length s)%nat.
Proof.
  unfold sub_class_plus_empty, lower.
  pose proof (filter_length_le (fun c => negb (qty_noise c))
                (map lower_char (strip s))) as F.
  rewrite length_map in F. pose proof (length_strip s). lia.
Qed.

Lemma cleaned_In c s :
  In c (sub_class_plus_empty qty_noise (lower (strip s))) ->
  exists x, In x s /\ lower_char x = c.
Proof.
  unfold sub_class_plus_empty. intros H. apply filter_In in H as [H _].
  unfold lower in H. apply in_map_iff in H as (x & Hx & Hin).
  exists x. split; [now apply In_strip|exact Hx].
Qed.

Lemma lower_char_point c : lower_char c = 46 -> c = 46.
Proof.
  unfold lower_char.
  destruct (in_range 65 90 c || in_range 192 214 c || in_range 216 222 c)
    eqn:E; charb.
Qed.

Lemma cleaned_noise s :
  forallb (fun c => qty_noise (lower_char c)) s = true ->
  sub_class_plus_empty qty_noise (lower s) = [].
Proof.
  unfold sub_class_plus_empty, lower.
  induction s as [|c s IH]; [reflexivity|]. cbn [forallb map filter].
  intros H. apply andb_true_iff in H as [Hc Hs]. rewrite Hc. cbn [negb].
  auto.
Qed.

Lemma digits_noletter ds :
  forallb isdigit ds = true -> forallb noletter ds = true.
Proof.
  rewrite !forallb_forall. intros H c Hc. specialize (H c Hc).
  revert H. unfold noletter. charb.
Qed.

Lemma strip_underscores_digits ds : forall prev,
  forallb isdigit ds = true -> prev <> 95 ->
  strip_underscores_from prev ds = Some ds.
Proof.
  induction ds as [|c ds IH]; intros prev H Hp; simpl.
  - apply N.eqb_neq in Hp. now rewrite Hp.
  - simpl in H. apply andb_true_iff in H as [Hc Hds].
    assert (Hc95 : c <> 95) by (revert Hc; charb).
    pose proof Hc95 as Hc95'. apply N.eqb_neq in Hc95'. rewrite Hc95', Hc.
    rewrite andb_false_r. now rewrite (IH c Hds Hc95).
Qed.

Lemma take_while_all (p : N -> bool) s :
  forallb p s = true -> take_while p s = s /\ drop_while p s = [].
Proof.
  induction s as [|c s IH]; [auto|]. simpl. intros H.
  apply andb_true_iff in H as [Hc Hs]. rewrite Hc.
  destruct (IH Hs) as [-> ->]. auto.
Qed.

Lemma digits_below_53 ds :
  forallb isdigit ds = true -> (List.length ds <=? 15)%nat = true ->
  (Z.abs (digits_value ds) < 2 ^ 53)%Z.
Proof.
  intros Hd Hl. apply Nat.leb_le in Hl.
  pose proof (digits_value_lt ds Hd) as B.
  pose proof (digits_value_nonneg ds) as P.
  pose proof (pow10_le _ _ Hl) as Q.
  assert (10 ^ Z.of_nat 15 < 2 ^ 53)%Z by (vm_compute; reflexivity).
  lia.
Qed.

(** [float] on a run of at most fifteen decimal digits gives their
    value. *)
Lemma py_float_digits ds :
  ds <> [] -> forallb isdigit ds = true ->
  (List.length ds <=? 15)%nat = true ->
  py_float ds = Ok (FNum (digits_value ds) 0).
Proof.
  intros Hne Hd Hl. unfold py_float.
  rewrite strip_nospace by now apply digits_nospace.
  rewrite strip_underscores_digits by (auto; discriminate).
  unfold parse_float.
  assert (Hs : parse_sign ds = (false, ds)).
  { destruct ds as [|c r]; [congruence|]. unfold parse_sign.
    simpl in Hd. apply andb_true_iff in Hd as [Hc _].
    assert (c <> 45 /\ c <> 43) as [H1 H2] by (revert Hc; charb).
    apply N.eqb_neq in H1, H2. now rewrite H1, H2. }
  rewrite Hs.
  pose proof (digits_noletter _ Hd) as Hn.
  rewrite (no_keyword ds "inf" eq_refl eq_refl Hn).
  rewrite (no_keyword ds "infinity" eq_refl eq_refl Hn).
  rewrite (no_keyword ds "nan" eq_refl eq_refl Hn). cbn [orb].
  unfold parse_number. destruct (take_while_all isdigit ds Hd) as [-> ->].
  rewrite app_nil_r. destruct ds as [|c r]; [congruence|].
  cbn [parse_exponent signed List.length Z.of_nat Z.sub redondear].
  now rewrite binary64_exact by now apply digits_below_53.
Qed.

(** On a cell of fewer than 300 code points the clean-up ends with a
    finite float: 0 on a missing cell, not negative without a minus
    sign, whole without a point. *)
Lemma limpiar_cantidad_finite v :
  texto_corto v = true ->
  exists m k, limpiar_cantidad v = Ok (FNum m k) /\ (0 <= k)%Z
              /\ (isna v = true -> m = 0%Z /\ k = 0%Z)
              /\ (~ In 45 (py_str v) -> (0 <= m)%Z)
              /\ (~ In 46 (py_str v) -> k = 0%Z).
Proof.
  intros Hc. unfold limpiar_cantidad. destruct (isna v) eqn:E.
  - exists 0%Z, 0%Z. repeat split; lia.
  - set (texto := sub_class_plus_empty qty_noise (lower (strip (py_str v)))).
    pose proof (cleaned_noletter (strip (py_str v))) as Hn. fold texto in Hn.
    destruct (py_float texto) as [f|e] eqn:Ef.
    + destruct (py_float_noletter _ _ Hn Ef) as (m & k & -> & Hk & Hm & Hlt & Hpt).
      assert (B : (Z.abs m < 10 ^ 300)%Z).
      { unfold texto_corto in Hc. apply Nat.ltb_lt in Hc.
        pose proof (cleaned_length (py_str v)) as L. fold texto in L.
        assert (L' : (List.length texto <= 300)%nat) by lia.
        pose proof (pow10_le _ _ L'). change (Z.of_nat 300) with 300%Z in *.
        lia. }
      destruct (binary64_finite m k Hk B) as (a & j & Ea).
      rewrite Ea. destruct (binary64_sign _ _ _ _ Ea) as (Hj & Hpos).
      exists a, j. split; [reflexivity|]. split; [exact Hj|].
      split; [discriminate|]. split.
      * intros Hno. apply Hpos, Hm. intros Hin. apply Hno.
        destruct (cleaned_In _ _ Hin) as (x & Hx & Ex).
        apply lower_char_minus in Ex. now subst x.
      * intros Hno. assert (k = 0%Z) as ->.
        { apply Hpt. intros Hin. apply Hno.
          destruct (cleaned_In _ _ Hin) as (x & Hx & Ex).
          apply lower_char_point in Ex. now subst x. }
        now apply (binary64_scale0 m a j).
    + rewrite (py_float_raises _ _ Ef). exists 0%Z, 0%Z.
      repeat split; try lia; discriminate.
Qed.

(** C1 (as worded) fails: the value returned is a float that need not
    be an integer. *)
Lemma cantidad_not_always_integral :
  ~ (forall v f, limpiar_cantidad v = Ok f -> is_integral f = true).
Proof.
  intros H. specialize (H (SStr (txt "2.5")) (FNum 25 1) eq_refl).
  discriminate.
Qed.

(** C1 (amended): for every input [limpiar_cantidad] returns without
    raising.  A missing input gives 0; otherwise the text form is
    lowercased and trimmed (in either order), freed of the letters a-z,
    the accented vowels, n-tilde, whitespace and slashes, and read as a
    number, 0 when it cannot be read, as when nothing else was there.
    A run of up to fifteen digits between blanks and unit noise gives
    the number the digits write.  The result is a float, not always
    an integer (2.5 stays 2.5).  On an input of fewer than 300 code
    points it is finite, the cast to integer the parsers apply next
    succeeds on it, it is not negative when the text form holds no
    minus sign, and it is whole when the text form holds no point.  A
    run of 400 digits is read as infinity, and the cast raises. *)
Theorem cantidad_total :
  (forall v, exists f, limpiar_cantidad v = Ok f)
  /\ (forall v f, limpiar_cantidad v = Ok f ->
        normalizeQuantity_spec v = f)
  /\ (forall v, isna v = true -> limpiar_cantidad v = Ok fzero)
  /\ (forall s, forallb (fun c => qty_noise (lower_char c)) s = true ->
        limpiar_cantidad (SStr s) = Ok fzero)
  /\ (forall v e, isna v = false -> forallb latin1 (py_str v) = true ->
        py_float (sub_class_plus_empty qty_noise
                    (lower (strip (py_str v)))) = Raise e ->
        limpiar_cantidad v = Ok fzero)
  /\ (forall ws ds unit,
        forallb isspace ws = true ->
        ds <> [] -> forallb isdigit ds = true ->
        (List.length ds <=? 15)%nat = true ->
        forallb (fun c => qty_noise (lower_char c)) unit = true ->
        limpiar_cantidad (SStr (ws ++ ds ++ unit))
        = Ok (FNum (digits_value ds) 0)
        /\ (0 <= digits_value ds)%Z)
  /\ (forall v, texto_corto v = true ->
        exists m k z,
          limpiar_cantidad v = Ok (FNum m k) /\ (0 <= k)%Z
          /\ astype_int (FNum m k) = Ok z
          /\ (~ In 45 (py_str v) -> (0 <= m)%Z)
          /\ (~ In 46 (py_str v) -> k = 0%Z))
  /\ (limpiar_cantidad (SStr (repeat 57 400)) = Ok (FInf false)
      /\ astype_int (FInf false) = Raise ValueError).
Proof.
  split; [|split; [|split; [|split; [|split; [|split; [|split]]]]]].
  - intros v. unfold limpiar_cantidad. destruct (isna v); [eauto|].
    destruct (py_float _) as [f|e] eqn:E; [eauto|].
    rewrite (py_float_raises _ _ E). eauto.
  - intros v f. unfold limpiar_cantidad, normalizeQuantity_spec.
    rewrite strip_lower. destruct (isna v); [now intros [= <-]|].
    destruct (py_float _) as [g|e] eqn:E; [now intros [= <-]|].
    rewrite (py_float_raises _ _ E). now intros [= <-].
  - intros v H. unfold limpiar_cantidad. now rewrite H.
  - intros s H. unfold limpiar_cantidad. cbn [isna py_str].
    rewrite cleaned_strip, (cleaned_noise s H). reflexivity.
  - intros v e Hna _ H. unfold limpiar_cantidad. rewrite Hna, H.
    now rewrite (py_float_raises _ _ H).
  - intros ws ds unit Hws Hne Hd Hl Hu.
    split; [|apply digits_value_nonneg].
    unfold limpiar_cantidad. cbn [isna py_str]. rewrite cleaned_strip.
    assert (E : sub_class_plus_empty qty_noise (lower (ws ++ ds ++ unit))
                = ds).
    { unfold sub_class_plus_empty, lower.
      rewrite !map_app, !filter_app.
      fold (lower ws) (lower ds) (lower unit).
      fold (sub_class_plus_empty qty_noise (lower ws)).
      fold (sub_class_plus_empty qty_noise (lower ds)).
      fold (sub_class_plus_empty qty_noise (lower unit)).
      rewrite (cleaned_noise unit Hu), app_nil_r.
      rewrite cleaned_noise.
      - cbn [app]. unfold sub_class_plus_empty, lower.
        clear Hne Hl. induction ds as [|c ds IH]; [reflexivity|].
        cbn [forallb] in Hd. apply andb_true_iff in Hd as [Hc Hds].
        cbn [map filter].
        assert (lower_char c = c) as ->.
        { unfold lower_char.
          destruct (in_range 65 90 c || in_range 192 214 c
                    || in_range 216 222 c) eqn:E;
            [exfalso; revert Hc E; charb|reflexivity]. }
        assert (qty_noise c = false) as -> by (revert Hc; charb).
        cbn [negb]. now rewrite (IH Hds).
      - rewrite forallb_forall in *. intros c Hc.
        unfold qty_noise. rewrite lower_char_space, (Hws c Hc).
        now rewrite !orb_true_r. }
    rewrite E, py_float_digits by assumption. reflexivity.
  - intros v Hc.
    destruct (limpiar_cantidad_finite v Hc) as (m & k & E & Hk & _ & Hm & Hp).
    exists m, k. eexists. split; [exact E|]. split; [exact Hk|].
    split; [reflexivity|]. split; assumption.
  - split; [vm_compute; reflexivity|reflexivity].
Qed.

(** A quantity with unit noise gives the number written. *)
Lemma cantidad_total_witness :
  limpiar_cantidad (SStr (txt "100 pzas")) = Ok (FNum 100 0)
  /\ (0 <= 100)%Z.
Proof.
  destruct cantidad_total as (_ & _ & _ & _ & _ & H & _).
  apply (H [] (txt "100") (txt " pzas")); try reflexivity.
  discriminate.
Defined.

Example cantidad_empty : limpiar_cantidad (SStr []) = Ok fzero.
Proof. reflexivity. Qed.

Example cantidad_null : limpiar_cantidad SNaN = Ok fzero.
Proof. reflexivity. Qed.

Set Implicit Arguments.

(** ** Dates: parsing the six renderings *)

Lemma digit_at_isdigit n p : isdigit (digit_at n p) = true.
Proof.
  unfold digit_at, isdigit, in_range.
  pose proof (N.mod_lt (n / p) 10 ltac:(lia)) as H.
  set (x := (n / p) mod 10) in *. clearbody x.
  apply andb_true_iff. split; apply N.leb_le; lia.
Qed.

Lemma dval_digit_at n p : dval (digit_at n p) = (n / p) mod 10.
Proof.
  unfold dval, digit_at. set (x := (n / p) mod 10). clearbody x. lia.
Qed.

Lemma pad4_value y :
  y < 10000 ->
  dval (digit_at y 1000) * 1000 + dval (digit_at y 100) * 100
  + dval (digit_at y 10) * 10 + dval (digit_at y 1) = y.
Proof.
  intros H. rewrite !dval_digit_at.
  rewrite N.div_1_r.
  pose proof (N.div_mod y 10 ltac:(lia)).
  pose proof (N.div_mod (y / 10) 10 ltac:(lia)).
  pose proof (N.div_mod (y / 10 / 10) 10 ltac:(lia)).
  pose proof (N.mod_lt y 10 ltac:(lia)).
  pose proof (N.mod_lt (y / 10) 10 ltac:(lia)).
  pose proof (N.mod_lt (y / 10 / 10) 10 ltac:(lia)).
  assert (E1 : y / 100 = y / 10 / 10) by (now rewrite N.Div0.div_div).
  assert (E2 : y / 1000 = y / 10 / 10 / 10) by (now rewrite !N.Div0.div_div).
  rewrite E1, E2.
  assert (y / 10 / 10 / 10 < 10).
  { rewrite !N.Div0.div_div. apply N.Div0.div_lt_upper_bound. lia. }
  rewrite (N.mod_small (y / 10 / 10 / 10) 10) by assumption.
  set (q1 := y / 10) in *. set (q2 := q1 / 10) in *.
  set (q3 := q2 / 10) in *.
  set (r0 := y mod 10) in *. set (r1 := q1 mod 10) in *.
  set (r2 := q2 mod 10) in *.
  clearbody q3 r0 r1 r2. clearbody q2. clearbody q1.
  lia.
Qed.

Ltac small_cases :=
  repeat match goal with
         | p : positive |- _ => destruct p as [p|p|]; try lia
         end.

Section Patterns.
Variable R : Type.
Variable k : N -> str -> option R.

Lemma re_Y_pad4 y r : y < 10000 -> re_Y k (pad4 y ++ r) = k y r.
Proof.
  intros H. unfold pad4. cbn [app re_Y].
  rewrite !digit_at_isdigit. cbn [andb]. now rewrite pad4_value.
Qed.

(** A two-digit month is read whole when the rest of the pattern
    accepts what follows. *)
Lemma re_m_pad2 m r x :
  1 <= m <= 12 -> k m r = Some x -> re_m k (pad2 m ++ r) = Some x.
Proof.
  intros H Hk.
  destruct m as [|p]; [lia|].
  small_cases;
    unfold re_m, two, one, pad2; cbn; now rewrite Hk.
Qed.

Lemma re_d_pad2 d r x :
  1 <= d <= 31 -> k d r = Some x -> re_d k (pad2 d ++ r) = Some x.
Proof.
  intros H Hk.
  destruct d as [|p]; [lia|].
  small_cases;
    unfold re_d, two, one, space_one, pad2; cbn; now rewrite Hk.
Qed.

End Patterns.

Section PatternFailure.
Variable R : Type.
Variable k : N -> str -> option R.


End PatternFailure.

Lemma mf_Y rest f s :
  match_format (FmtY :: rest) f s
  = re_Y (fun y => match_format rest (mkFields y (f_month f) (f_day f))) s.
Proof. reflexivity. Qed.

Lemma mf_M rest f s :
  match_format (FmtM :: rest) f s
  = re_m (fun m => match_format rest (mkFields (f_year f) m (f_day f))) s.
Proof. reflexivity. Qed.

Lemma mf_D rest f s :
  match_format (FmtD :: rest) f s
  = re_d (fun d => match_format rest (mkFields (f_year f) (f_month f) d)) s.
Proof. reflexivity. Qed.

Lemma mf_lit c rest f r :
  match_format (FmtLit c :: rest) f (c :: r) = match_format rest f r.
Proof. cbn [match_format]. now rewrite N.eqb_refl. Qed.





Lemma days_in_month_bounds y m : 28 <= days_in_month y m <= 31.
Proof.
  unfold days_in_month.
  destruct m as [|p]; [lia|].
  do 4 (try destruct p as [p|p|]); try lia; destruct (is_leap y); lia.
Qed.

Lemma valid_bounds d :
  valid d = true ->
  year d < 10000 /\ 1 <= year d /\ 1 <= month d <= 12 /\ 1 <= day d <= 31.
Proof.
  unfold valid, valid_date, in_range. intros H.
  pose proof (days_in_month_bounds (year d) (month d)).
  repeat rewrite ?andb_true_iff, ?N.leb_le in H. lia.
Qed.


(** Each layout reads back its own rendering. *)
Lemma match_ymd sep d f :
  valid d = true ->
  match_format (fmt_ymd sep) f (render_ymd sep d) = Some (fields_of d, []).
Proof.
  intros H. destruct (valid_bounds d H) as (Hy & _ & Hm & Hd).
  unfold fmt_ymd, render_ymd. rewrite mf_Y, re_Y_pad4 by assumption.
  cbn [app]. rewrite mf_lit, mf_M.
  apply re_m_pad2; [assumption|]. rewrite mf_lit, mf_D.
  rewrite <- (app_nil_r (pad2 (day d))).
  apply re_d_pad2; [assumption|]. reflexivity.
Qed.

Lemma match_dmy sep d f :
  valid d = true ->
  match_format (fmt_dmy sep) f (render_dmy sep d) = Some (fields_of d, []).
Proof.
  intros H. destruct (valid_bounds d H) as (Hy & _ & Hm & Hd).
  unfold fmt_dmy, render_dmy. rewrite mf_D.
  apply re_d_pad2; [assumption|]. cbn [app]. rewrite mf_lit, mf_M.
  apply re_m_pad2; [assumption|]. rewrite mf_lit, mf_Y.
  rewrite <- (app_nil_r (pad4 (year d))).
  rewrite re_Y_pad4 by assumption. reflexivity.
Qed.

Lemma match_mdy sep d f :
  valid d = true ->
  match_format (fmt_mdy sep) f (render_mdy sep d) = Some (fields_of d, []).
Proof.
  intros H. destruct (valid_bounds d H) as (Hy & _ & Hm & Hd).
  unfold fmt_mdy, render_mdy. rewrite mf_M.
  apply re_m_pad2; [assumption|]. cbn [app]. rewrite mf_lit, mf_D.
  apply re_d_pad2; [assumption|]. rewrite mf_lit, mf_Y.
  rewrite <- (app_nil_r (pad4 (year d))).
  rewrite re_Y_pad4 by assumption. reflexivity.
Qed.


Lemma strptime_ok s fmt d :
  repeated_directive fmt = false ->
  match_format fmt default_fields s = Some (fields_of d, []) ->
  valid d = true ->
  strptime s fmt = Ok d.
Proof.
  intros Hr Hm Hv. unfold strptime. rewrite Hr, Hm.
  unfold fields_of. cbn [f_year f_month f_day].
  unfold valid in Hv. rewrite Hv. now destruct d.
Qed.

Lemma strptime_fail s fmt :
  repeated_directive fmt = false ->
  match_format fmt default_fields s = None ->
  strptime s fmt = Raise ValueError.
Proof. intros Hr Hm. unfold strptime. now rewrite Hr, Hm. Qed.

Lemma strptime_valid s fmt d : strptime s fmt = Ok d -> valid d = true.
Proof.
  unfold strptime. destruct (repeated_directive fmt); [discriminate|].
  destruct (match_format fmt default_fields s) as [[f [|c r]]|];
    try discriminate.
  destruct (valid_date (f_year f) (f_month f) (f_day f)) eqn:E;
    [|discriminate].
  intros [= <-]. exact E.
Qed.

Lemma probar_step_ok s fmt rest d :
  strptime s fmt = Ok d ->
  probar_formatos s (fmt :: rest) = Ok (SStr (strftime_ymd d)).
Proof. intros H. cbn [probar_formatos]. now rewrite H. Qed.

Lemma probar_step_fail s fmt rest :
  strptime s fmt = Raise ValueError ->
  probar_formatos s (fmt :: rest) = probar_formatos s rest.
Proof. intros H. cbn [probar_formatos]. now rewrite H. Qed.



Ltac this_format_reads lem :=
  apply probar_step_ok; apply strptime_ok; [reflexivity| |assumption];
  apply lem; assumption.

(** The ISO rendering is read by the first format. *)
Lemma probar_iso d :
  valid d = true ->
  probar_formatos (strftime_iso d) formatos_fijos = Ok (SStr (strftime_ymd d)).
Proof.
  intros H. unfold formatos_fijos.
  this_format_reads (match_ymd 45).
Qed.







Lemma pad2_nospace n : forallb nospace (pad2 n) = true.
Proof. apply digits_nospace. simpl. now rewrite !digit_at_isdigit. Qed.

Lemma pad4_nospace n : forallb nospace (pad4 n) = true.
Proof. apply digits_nospace. simpl. now rewrite !digit_at_isdigit. Qed.

Lemma render_nospace a b c sep :
  forallb nospace a = true -> forallb nospace b = true ->
  forallb nospace c = true -> isspace sep = false ->
  forallb nospace (a ++ [sep] ++ b ++ [sep] ++ c) = true.
Proof.
  intros Ha Hb Hc Hs. rewrite !forallb_app, Ha, Hb, Hc.
  simpl. unfold nospace. now rewrite Hs.
Qed.

Lemma strip_render_ymd sep d :
  isspace sep = false -> strip (render_ymd sep d) = render_ymd sep d.
Proof.
  intros H. apply strip_nospace.
  apply render_nospace; auto using pad2_nospace, pad4_nospace.
Qed.



Lemma fecha_text s :
  estandarizar_fecha (SStr s) None = probar_formatos (strip s) formatos_fijos.
Proof. reflexivity. Qed.

Unset Implicit Arguments.

(** *** The year as [strftime] writes it *)

Lemma digits_of_pos_length fuel : forall n acc (k : nat),
  n < 10 ^ N.of_nat k -> (1 <= k)%nat ->
  (List.length (digits_of_pos fuel n acc) <= List.length acc + k)%nat.
Proof.
  induction fuel as [|f IH]; intros n acc k Hn Hk; cbn [digits_of_pos].
  - lia.
  - destruct (N.ltb_spec n 10) as [L|L]; [simpl; lia|].
    destruct k as [|[|k]]; [lia|simpl in Hn; lia|].
    specialize (IH (n / 10) ((48 + n mod 10) :: acc) (S k)).
    cbn [List.length] in IH.
    assert (n / 10 < 10 ^ N.of_nat (S k)).
    { apply N.Div0.div_lt_upper_bound.
      rewrite <- N.pow_succ_r', <- Nat2N.inj_succ. exact Hn. }
    specialize (IH H ltac:(lia)). lia.
Qed.

(** Before the year 1000 the year takes fewer than four digits. *)
Lemma digits_of_N_short y :
  y < 1000 -> (List.length (digits_of_N y) <= 3)%nat.
Proof.
  intros H. unfold digits_of_N.
  apply (digits_of_pos_length _ y [] 3%nat); [exact H|lia].
Qed.

(** From the year 1000 on it takes four. *)
Lemma digits_of_N_pad4 y :
  1000 <= y -> y < 10000 -> digits_of_N y = pad4 y.
Proof.
  intros Hlo Hhi. unfold digits_of_N.
  assert (L : 9 <= N.log2 y).
  { change 9 with (N.log2 512). apply N.log2_le_mono. lia. }
  destruct (N.to_nat (N.log2 y)) as [|[|[|f]]] eqn:E; try lia.
  cbn [digits_of_pos].
  assert (A : y / 10 / 10 / 10 = y / 1000)
    by (rewrite !N.Div0.div_div; reflexivity).
  assert (B : y / 10 / 10 = y / 100)
    by (rewrite !N.Div0.div_div; reflexivity).
  assert (y / 10 >= 100 /\ y / 100 >= 10 /\ y / 1000 < 10) as (P & Q & R).
  { pose proof (N.Div0.div_mod y 10) as D1.
    pose proof (N.mod_lt y 10 ltac:(lia)) as M1.
    pose proof (N.Div0.div_mod y 100) as D2.
    pose proof (N.mod_lt y 100 ltac:(lia)) as M2.
    pose proof (N.Div0.div_mod y 1000) as D3.
    pose proof (N.mod_lt y 1000 ltac:(lia)) as M3.
    set (a := y / 10) in *. set (b := y / 100) in *.
    set (c := y / 1000) in *.
    set (a' := y mod 10) in *. set (b' := y mod 100) in *.
    set (c' := y mod 1000) in *.
    clearbody a b c a' b' c'. lia. }
  rewrite A, B.
  destruct (N.ltb_spec y 10); [lia|].
  destruct (N.ltb_spec (y / 10) 10); [lia|].
  destruct (N.ltb_spec (y / 100) 10); [lia|].
  destruct (N.ltb_spec (y / 1000) 10); [|lia].
  unfold pad4, digit_at. now rewrite N.div_1_r.
Qed.

(** From the year 1000 on [strftime] writes the ISO text. *)
Lemma strftime_ymd_iso d :
  valid d = true -> 1000 <= year d -> strftime_ymd d = strftime_iso d.
Proof.
  intros V H. unfold strftime_ymd, strftime_iso.
  destruct (valid_bounds d V) as (Hy & _).
  rewrite digits_of_N_pad4 by lia. reflexivity.
Qed.


(** Before the year 1000 what [strftime] writes is too short for an
    ISO text. *)
Lemma strftime_ymd_short d :
  year d < 1000 -> is_iso_text (strftime_ymd d) = false.
Proof.
  intros H. pose proof (digits_of_N_short (year d) H) as L.
  unfold strftime_ymd, pad2.
  destruct (digits_of_N (year d)) as [|a [|b [|c [|e r]]]];
    try reflexivity.
  simpl in L. lia.
Qed.

Lemma strftime_ymd_shape d :
  valid d = true -> is_iso_text (strftime_ymd d) = true ->
  1000 <= year d /\ strftime_ymd d = strftime_iso d.
Proof.
  intros V H. destruct (N.lt_ge_cases (year d) 1000) as [L|L].
  - rewrite (strftime_ymd_short d L) in H. discriminate.
  - split; [exact L|now apply strftime_ymd_iso].
Qed.

(** The ISO text of a date is read as that date. *)
Lemma fecha_iso_fixed d :
  valid d = true ->
  estandarizar_fecha (SStr (strftime_iso d)) None
  = Ok (SStr (strftime_ymd d)).
Proof.
  intros H. rewrite fecha_text.
  change (strftime_iso d) with (render_ymd 45 d) at 1.
  rewrite strip_render_ymd by reflexivity. now apply probar_iso.
Qed.


(** Nor is the text always an ISO text: the year 999 is written on
    three digits. *)
Example fecha_anno_999 :
  estandarizar_fecha (SStr (txt "0999-01-05")) None
  = Ok (SStr (txt "999-01-05")).
Proof. reflexivity. Qed.



Set Implicit Arguments.

(** ** Dates: idempotence *)

(** What the loop returns is the text itself or the text [strftime]
    writes for a date of the calendar. *)
Lemma probar_formatos_result s fmts r :
  probar_formatos s fmts = Ok r ->
  r = SStr s \/ exists d, valid d = true /\ r = SStr (strftime_ymd d).
Proof.
  induction fmts as [|fmt rest IH]; cbn [probar_formatos].
  - intros [= <-]. now left.
  - destruct (strptime s fmt) as [d|e] eqn:E.
    + intros [= <-]. right. exists d. split; [|reflexivity].
      eapply strptime_valid; eauto.
    + destruct e; try discriminate. exact IH.
Qed.

(** C8: when the normalization of an input (without a hint) is an ISO
    YYYY-MM-DD text, normalizing that text again returns it
    unchanged. *)
Theorem fecha_idempotent (v : scalar) (out : str) :
  estandarizar_fecha v None = Ok (SStr out) ->
  is_iso_text out = true ->
  estandarizar_fecha (SStr out) None = Ok (SStr out).
Proof.
  intros H Hiso. unfold estandarizar_fecha in H at 1.
  destruct (isna v); [discriminate|]. cbn [app] in H.
  destruct (probar_formatos_result _ _ H) as [E|(d & Hd & E)];
    injection E as ->.
  - rewrite fecha_text, strip_idem. exact H.
  - destruct (strftime_ymd_shape d Hd Hiso) as [_ E].
    rewrite E at 1. now apply fecha_iso_fixed.
Qed.

(** 15/01/2026 normalizes to 2026-01-15, which normalizes to itself. *)
Lemma fecha_idempotent_witness :
  estandarizar_fecha (SStr (txt "2026-01-15")) None
  = Ok (SStr (txt "2026-01-15")).
Proof.
  apply (fecha_idempotent (SStr (txt "15/01/2026"))); reflexivity.
Defined.

(** ** Machine names: the hyphenation rules *)

Section SubGap.
Variable left : char -> bool.
Variable right : char -> str -> bool.

Lemma gap_then_nospace_head c r : isspace c = false ->
  gap_then right (c :: r) = false.
Proof. intros H. unfold gap_then. simpl. now rewrite H. Qed.

Lemma take_while_space_run ws d r :
  forallb isspace ws = true -> isspace d = false ->
  take_while isspace (ws ++ d :: r) = ws
  /\ drop_while isspace (ws ++ d :: r) = d :: r.
Proof.
  intros Hws Hd. induction ws as [|w ws IH]; simpl.
  - now rewrite Hd.
  - simpl in Hws. apply andb_true_iff in Hws as [Hw Hws].
    rewrite Hw. destruct (IH Hws) as [-> ->]. auto.
Qed.

Lemma gap_then_run w ws d r :
  forallb isspace (w :: ws) = true -> isspace d = false ->
  gap_then right ((w :: ws) ++ d :: r) = right d r.
Proof.
  intros Hws Hd. unfold gap_then.
  destruct (take_while_space_run (w :: ws) d r Hws Hd) as [-> ->].
  reflexivity.
Qed.

Lemma sub_gap_cons c r :
  sub_gap left right false (c :: r)
  = if left c && gap_then right r
    then c :: 45 :: sub_gap left right true r
    else c :: sub_gap left right false r.
Proof. reflexivity. Qed.

(** No match starts inside a text free of whitespace. *)
Lemma sub_gap_nospace s :
  forallb nospace s = true -> sub_gap left right false s = s.
Proof.
  induction s as [|c r IH]; [reflexivity|]. simpl.
  intros H. apply andb_true_iff in H as [_ Hr].
  rewrite (IH Hr).
  destruct r as [|c' r']; [unfold gap_then; simpl; now rewrite andb_false_r|].
  simpl in Hr. apply andb_true_iff in Hr as [Hc' _].
  unfold nospace in Hc'. apply negb_true_iff in Hc'.
  now rewrite gap_then_nospace_head, andb_false_r.
Qed.

(** Passing over the whitespace run of a match. *)
Lemma sub_gap_skip ws d r :
  forallb isspace ws = true -> isspace d = false ->
  sub_gap left right true (ws ++ d :: r)
  = d :: sub_gap left right false r.
Proof.
  intros Hws Hd. induction ws as [|w ws IH]; simpl.
  - now rewrite Hd.
  - simpl in Hws. apply andb_true_iff in Hws as [Hw Hws].
    rewrite Hw. auto.
Qed.

(** The first whitespace run of a text, when it lies between an
    accepted left and an accepted right code point, becomes a
    hyphen, and the search goes on after the right code point. *)
Lemma sub_gap_first u c w ws d r :
  forallb nospace u = true -> isspace c = false -> left c = true ->
  forallb isspace (w :: ws) = true -> isspace d = false ->
  right d r = true ->
  sub_gap left right false (u ++ c :: (w :: ws) ++ d :: r)
  = u ++ c :: 45 :: d :: sub_gap left right false r.
Proof.
  intros Hu Hc Hl Hws Hd Hr.
  induction u as [|a u IH].
  - rewrite app_nil_l, sub_gap_cons.
    rewrite Hl, gap_then_run, Hr by assumption. cbn [andb].
    now rewrite sub_gap_skip.
  - simpl in Hu. apply andb_true_iff in Hu as [_ Hu].
    rewrite <- (app_comm_cons u _ a), sub_gap_cons, (IH Hu).
    assert (G : gap_then right (u ++ c :: (w :: ws) ++ d :: r) = false).
    { destruct u as [|b u]; [rewrite app_nil_l|rewrite <- (app_comm_cons u _ b)].
      - now apply gap_then_nospace_head.
      - simpl in Hu. apply andb_true_iff in Hu as [Hb _].
        apply negb_true_iff in Hb. now apply gap_then_nospace_head. }
    now rewrite G, andb_false_r.
Qed.

(** The first whitespace run of a text is left as it is when what
    follows it is not an accepted right code point, and the search
    goes on inside the run. *)
Lemma sub_gap_first_refused u c ws d r :
  forallb nospace u = true -> isspace c = false ->
  forallb isspace ws = true -> isspace d = false ->
  right d r = false ->
  sub_gap left right false (u ++ c :: ws ++ d :: r)
  = u ++ c :: ws ++ sub_gap left right false (d :: r).
Proof.
  intros Hu Hc Hws Hd Hr.
  assert (W : forall ws, forallb isspace ws = true ->
    gap_then right (ws ++ d :: r) = false).
  { intros [|w' ws'] H'; cbn [app].
    - now apply gap_then_nospace_head.
    - change (w' :: ws' ++ d :: r) with ((w' :: ws') ++ d :: r).
      now rewrite gap_then_run. }
  assert (S1 : forall ws, forallb isspace ws = true ->
    sub_gap left right false (ws ++ d :: r)
    = ws ++ sub_gap left right false (d :: r)).
  { intros ws0. induction ws0 as [|w' ws' IH']; intros H'; [reflexivity|].
    simpl in H'. apply andb_true_iff in H' as [_ H'].
    rewrite <- app_comm_cons, sub_gap_cons, (W ws' H'), andb_false_r.
    now rewrite (IH' H'). }
  induction u as [|a u IH].
  - rewrite app_nil_l, sub_gap_cons, (W ws Hws), andb_false_r.
    now rewrite (S1 ws Hws).
  - simpl in Hu. apply andb_true_iff in Hu as [_ Hu].
    rewrite <- (app_comm_cons u _ a), sub_gap_cons, (IH Hu).
    assert (G : gap_then right (u ++ c :: ws ++ d :: r) = false).
    { destruct u as [|b u]; [rewrite app_nil_l|rewrite <- (app_comm_cons u _ b)].
      - now apply gap_then_nospace_head.
      - simpl in Hu. apply andb_true_iff in Hu as [Hb _].
        apply negb_true_iff in Hb. now apply gap_then_nospace_head. }
    now rewrite G, andb_false_r.
Qed.
End SubGap.

(** C6 (as worded) fails: with two digit groups the code hyphenates
    both, where the trailing-group reading hyphenates the last one
    only. *)
Lemma maquina_not_only_last_group :
  estandarizar_maquina (SStr (txt "Linea 2 Torno 05"))
    = Ok (SStr (txt "Linea-2 Torno-05"))
  /\ normalizeMachine_spec (txt "Linea 2 Torno 05")
    = txt "Linea 2 Torno-05"
  /\ estandarizar_maquina (SStr (txt "Linea 2 Torno 05"))
    <> Ok (SStr (normalizeMachine_spec (txt "Linea 2 Torno 05"))).
Proof.
  split; [reflexivity|]. split; [reflexivity|]. vm_compute. discriminate.
Qed.

(** C6 (amended): [estandarizar_maquina] trims, then turns into one
    hyphen every whitespace run that lies between a non-digit and a
    digit (each digit group of the text, left to right, not only the
    last), then the whitespace run between a word character and a
    single capital letter A-Z that ends the text; a capital letter
    that something follows is not hyphenated.  Digits and non-digits
    are told apart here on code points below 256, where the digits are
    0 to 9.  A name without whitespace is unchanged, and the three
    documented names come out as CNC-01, Fresadora-B and
    Ya-Tiene-Guion. *)
Theorem maquina_hyphenation :
  estandarizar_maquina (SStr (txt "CNC 01")) = Ok (SStr (txt "CNC-01"))
  /\ estandarizar_maquina (SStr (txt "Fresadora B"))
     = Ok (SStr (txt "Fresadora-B"))
  /\ estandarizar_maquina (SStr (txt "Ya-Tiene-Guion"))
     = Ok (SStr (txt "Ya-Tiene-Guion"))
  /\ (forall s, forallb nospace s = true ->
        estandarizar_maquina (SStr s) = Ok (SStr s))
  /\ (forall u c w ws d r,
        forallb nospace (u ++ [c]) = true ->
        forallb latin1 (u ++ c :: r) = true -> isdigit c = false ->
        forallb isspace (w :: ws) = true -> isdigit d = true ->
        sub_numero (u ++ c :: (w :: ws) ++ d :: r)
        = u ++ c :: 45 :: d :: sub_numero r)
  /\ (forall u c w ws d ds,
        forallb nospace (u ++ [c]) = true ->
        forallb latin1 (u ++ [c]) = true -> isdigit c = false ->
        forallb isspace (w :: ws) = true ->
        forallb isdigit (d :: ds) = true ->
        estandarizar_maquina (SStr (u ++ c :: (w :: ws) ++ d :: ds))
        = Ok (SStr (u ++ c :: 45 :: d :: ds)))
  /\ (forall u c w ws L,
        forallb nospace (u ++ [c]) = true ->
        forallb latin1 (u ++ [c]) = true -> isword c = true ->
        forallb isspace (w :: ws) = true -> isupper_ascii L = true ->
        estandarizar_maquina (SStr (u ++ c :: (w :: ws) ++ [L]))
        = Ok (SStr (u ++ [c; 45; L])))
  /\ (forall u c w ws L v,
        forallb nospace (u ++ [c]) = true ->
        forallb isspace (w :: ws) = true -> isupper_ascii L = true ->
        v <> [] -> forallb nospace v = true ->
        estandarizar_maquina (SStr (u ++ c :: (w :: ws) ++ L :: v))
        = Ok (SStr (u ++ c :: (w :: ws) ++ L :: v)))
  /\ estandarizar_maquina (SStr (txt "Linea B 7"))
     = Ok (SStr (txt "Linea B-7"))
  /\ estandarizar_maquina (SStr (txt "Torno B C"))
     = Ok (SStr (txt "Torno B-C")).
Proof.
  assert (Split : forall u c, forallb nospace (u ++ [c]) = true ->
            forallb nospace u = true /\ isspace c = false).
  { intros u c H. rewrite forallb_app in H.
    apply andb_true_iff in H as [Hu Hc]. simpl in Hc.
    rewrite andb_true_r in Hc. now apply negb_true_iff in Hc. }
  assert (Num : forall u c w ws d r,
            forallb nospace (u ++ [c]) = true -> isdigit c = false ->
            forallb isspace (w :: ws) = true -> isdigit d = true ->
            sub_numero (u ++ c :: (w :: ws) ++ d :: r)
            = u ++ c :: 45 :: d :: sub_numero r).
  { intros u c w ws d r Hu Hc Hws Hd. destruct (Split _ _ Hu) as [Hu' Hc'].
    unfold sub_numero. apply sub_gap_first; auto using digit_not_space.
    now rewrite Hc. }
  assert (Trim : forall u c m q, forallb nospace (u ++ [c]) = true ->
            q <> [] -> forallb nospace q = true ->
            strip (u ++ c :: m ++ q) = u ++ c :: m ++ q).
  { intros u c m q Hu Hq Hq'.
    replace (u ++ c :: m ++ q) with ((u ++ [c]) ++ m ++ q)
      by (now rewrite <- app_assoc).
    apply strip_nospace_ends; auto. now destruct u. }
  split; [reflexivity|]. split; [reflexivity|]. split; [reflexivity|].
  split; [|split; [|split; [|split; [|split; [|split; reflexivity]]]]].
  - intros s Hs. unfold estandarizar_maquina. cbn [isna py_str].
    pose proof (strip_nospace s Hs) as St.
    rewrite St. unfold sub_numero, sub_letra.
    now rewrite (sub_gap_nospace _ _ s Hs), (sub_gap_nospace _ _ s Hs).
  - intros u c w ws d r Hu _. now apply Num.
  - intros u c w ws d ds Hu _ Hc Hws Hds.
    unfold estandarizar_maquina. cbn [isna py_str].
    pose proof (digits_nospace _ Hds) as Hds'.
    change ((w :: ws) ++ d :: ds) with ((w :: ws) ++ (d :: ds)).
    rewrite Trim by (auto; discriminate).
    pose proof Hds as Hd. simpl in Hd. apply andb_true_iff in Hd as [Hd Hds2].
    rewrite Num by assumption.
    assert (E : sub_numero ds = ds).
    { unfold sub_numero. apply sub_gap_nospace. now apply digits_nospace. }
    rewrite E. unfold sub_letra. rewrite sub_gap_nospace; [reflexivity|].
    destruct (Split _ _ Hu) as [Hu' Hc'].
    rewrite forallb_app. rewrite Hu'. cbn [andb forallb].
    unfold nospace at 1. rewrite Hc'. cbn [negb andb].
    unfold nospace at 1. cbn [isspace]. exact Hds'.
  - intros u c w ws L Hu _ Hc Hws HL.
    unfold estandarizar_maquina. cbn [isna py_str].
    destruct (Split _ _ Hu) as [Hu' Hc'].
    pose proof (upper_not_space _ HL) as HLs.
    assert (HLn : forallb nospace [L] = true).
    { simpl. unfold nospace. now rewrite HLs. }
    rewrite Trim by (auto; discriminate).
    assert (E : sub_numero (u ++ c :: (w :: ws) ++ [L])
                = u ++ c :: (w :: ws) ++ [L]).
    { unfold sub_numero.
      rewrite sub_gap_first_refused; auto using upper_not_digit.
      rewrite (sub_gap_nospace _ _ [L] HLn). reflexivity. }
    rewrite E. unfold sub_letra.
    rewrite sub_gap_first; auto.
    now rewrite HL.
  - intros u c w ws L v Hu Hws HL Hv Hvn.
    unfold estandarizar_maquina. cbn [isna py_str].
    destruct (Split _ _ Hu) as [Hu' Hc'].
    pose proof (upper_not_space _ HL) as HLs.
    assert (HLn : forallb nospace (L :: v) = true).
    { cbn [forallb]. unfold nospace at 1. now rewrite HLs, Hvn. }
    rewrite Trim by (auto; discriminate).
    unfold sub_numero, sub_letra.
    rewrite sub_gap_first_refused; auto using upper_not_digit.
    rewrite (sub_gap_nospace _ _ (L :: v) HLn).
    rewrite sub_gap_first_refused; auto.
    + now rewrite (sub_gap_nospace _ _ (L :: v) HLn).
    + destruct v as [|a [|b v']]; [congruence| |now rewrite andb_false_r].
      cbn [at_end]. simpl in Hvn. rewrite andb_true_r in Hvn.
      destruct (N.eqb_spec a 10) as [->|]; [discriminate|].
      now rewrite andb_false_r.
Qed.

(** The rules at work on one name of each kind. *)
Lemma maquina_hyphenation_witness :
  estandarizar_maquina (SStr (txt "Torno  5")) = Ok (SStr (txt "Torno-5"))
  /\ estandarizar_maquina (SStr (txt "Prensa 2 C"))
     = Ok (SStr (txt "Prensa-2-C"))
  /\ estandarizar_maquina (SStr (txt "Eje B2"))
     = Ok (SStr (txt "Eje B2")).
Proof.
  destruct maquina_hyphenation as (_ & _ & _ & _ & _ & Hd & _ & Hv & _).
  split; [|split].
  - apply (Hd (txt "Torn") 111 32 [32] 53 []); reflexivity.
  - reflexivity.
  - apply (Hv (txt "Ej") 101 32 [] 66 (txt "2")); [| | |discriminate|];
      reflexivity.
Defined.

(** ** Product names *)

Example producto_spec_eje :
  normalizeProduct_spec (txt "eje del motor") = txt "Eje del Motor".
Proof. reflexivity. Qed.

Example producto_spec_de_de :
  normalizeProduct_spec (txt "a de de b") = txt "A de de B".
Proof. reflexivity. Qed.

Example producto_spec_final_de :
  normalizeProduct_spec (txt "tapa de") = txt "Tapa De".
Proof. reflexivity. Qed.

(** C7 (as worded) fails: of two connectives separated by one space
    the second is an interior standalone word too, and the code leaves
    it capitalised. *)
Lemma producto_adjacent_connectives :
  estandarizar_producto (SStr (txt "a de de b"))
    = Ok (SStr (txt "A de De B"))
  /\ normalizeProduct_spec (txt "a de de b") = txt "A de de B"
  /\ estandarizar_producto (SStr (txt "a de de b"))
    <> Ok (SStr (normalizeProduct_spec (txt "a de de b"))).
Proof.
  split; [reflexivity|]. split; [reflexivity|]. vm_compute. discriminate.
Qed.

Lemma starts_with_In p s c :
  starts_with p s = true -> In c p -> In c s.
Proof.
  revert s. induction p as [|a p IH]; intros s H Hin; [easy|].
  destruct s as [|b s]; [discriminate|]. simpl in H.
  apply andb_true_iff in H as [Hab Hp]. apply N.eqb_eq in Hab. subst b.
  destruct Hin as [->|Hin]; [now left|right; eauto].
Qed.

Lemma starts_with_refl p s : starts_with p (p ++ s) = true.
Proof. induction p; simpl; [easy|]. now rewrite N.eqb_refl. Qed.

(** Passing over the rest of an occurrence. *)
Lemma replace_from_skip old new p s :
  replace_from old new (List.length p) (p ++ s) = replace old new s.
Proof. induction p; simpl; auto. Qed.

(** A stretch that does not hold the first code point of [old] is
    copied. *)
Lemma replace_copy a old new x s :
  ~ In a x ->
  replace (a :: old) new (x ++ s) = x ++ replace (a :: old) new s.
Proof.
  unfold replace. induction x as [|c x IH]; intros H; [reflexivity|].
  cbn [app replace_from starts_with].
  destruct (N.eqb_spec a c) as [->|_]; [exfalso; apply H; now left|].
  cbn [andb]. f_equal. apply IH. intros Hx. apply H. now right.
Qed.

(** The occurrence found is replaced, and the search resumes after
    it. *)
Lemma replace_here a old new s :
  replace (a :: old) new ((a :: old) ++ s) = new ++ replace (a :: old) new s.
Proof.
  unfold replace at 1. cbn [app replace_from].
  change (a :: old ++ s) with ((a :: old) ++ s).
  rewrite starts_with_refl. f_equal.
  replace (List.length (a :: old) - 1)%nat with (List.length old)
    by (simpl; lia).
  apply replace_from_skip.
Qed.

Lemma replace_absent a old new x :
  ~ In a x -> replace (a :: old) new x = x.
Proof.
  intros H. rewrite <- (app_nil_r x) at 1.
  rewrite replace_copy by assumption. now rewrite app_nil_r.
Qed.

Lemma nospace_no_32 x : forallb nospace x = true -> ~ In 32 x.
Proof.
  rewrite forallb_forall. intros H Hin. specialize (H _ Hin).
  discriminate.
Qed.

Lemma title_char_nospace c :
  isspace c = false -> forallb nospace (title_char c) = true.
Proof.
  intros H. unfold title_char, nospace.
  destruct (in_range 97 122 c || in_range 224 246 c || in_range 248 254 c)
    eqn:E1; [simpl; rewrite andb_true_r; apply negb_true_iff; charb|].
  destruct (c =? 223); [reflexivity|].
  destruct (c =? 181); [reflexivity|].
  destruct (c =? 255); [reflexivity|].
  simpl. now rewrite H.
Qed.

Lemma lower_char_nospace c : isspace c = false -> isspace (lower_char c) = false.
Proof.
  intros H. unfold lower_char.
  destruct (in_range 65 90 c || in_range 192 214 c || in_range 216 222 c)
    eqn:E; [charb|exact H].
Qed.

(** Title-casing brings no whitespace into a text that has none. *)
Lemma title_from_nospace b x :
  forallb nospace x = true -> forallb nospace (title_from b x) = true.
Proof.
  revert b. induction x as [|c x IH]; intros b H; [reflexivity|].
  simpl in H. apply andb_true_iff in H as [Hc Hx].
  apply negb_true_iff in Hc. cbn [title_from].
  rewrite forallb_app, (IH _ Hx), andb_true_r.
  destruct b; [|now apply title_char_nospace].
  simpl. unfold nospace. now rewrite lower_char_nospace.
Qed.

(** A space ends a word: what follows is title-cased afresh. *)
Lemma title_from_space b x y :
  title_from b (x ++ 32 :: y) = title_from b x ++ 32 :: title y.
Proof.
  revert b. induction x as [|c x IH]; intros b.
  - destruct b; reflexivity.
  - cbn [app title_from]. now rewrite IH, <- app_assoc.
Qed.

Lemma replace_miss old new c r :
  starts_with old (c :: r) = false ->
  replace old new (c :: r) = c :: replace old new r.
Proof. intros H. unfold replace. cbn [replace_from]. now rewrite H. Qed.

Lemma starts_with_needs_space p y :
  In 32 p -> forallb nospace y = true -> starts_with p y = false.
Proof.
  intros Hp Hy. destruct (starts_with p y) eqn:E; [|reflexivity].
  exfalso. apply (nospace_no_32 _ Hy). eapply starts_with_In; eauto.
Qed.

Lemma plain_nospace x : forallb plain x = true -> forallb nospace x = true.
Proof.
  rewrite !forallb_forall. intros H c Hc. specialize (H c Hc).
  unfold plain in H. now apply andb_true_iff in H as [H _].
Qed.

Lemma plain_no_quote x : forallb plain x = true -> ~ In 34 x.
Proof.
  rewrite forallb_forall. intros H Hin. specialize (H _ Hin).
  unfold plain in H. apply andb_true_iff in H as [_ H]. discriminate.
Qed.

(** Trimming and quote removal leave [x ++ m ++ y] alone when [x] and
    [y] are plain words and [m] holds no quote. *)
Lemma prepare_plain x m y :
  x <> [] -> y <> [] -> forallb plain x = true -> forallb plain y = true ->
  ~ In 34 m ->
  replace [34] [] (strip (x ++ m ++ y)) = x ++ m ++ y.
Proof.
  intros Hx Hy Px Py Hm.
  rewrite strip_nospace_ends by auto using plain_nospace.
  apply replace_absent. rewrite !in_app_iff.
  intros [H|[H|H]]; [apply (plain_no_quote _ Px)|apply Hm
                     |apply (plain_no_quote _ Py)]; exact H.
Qed.

Unset Implicit Arguments.

Ltac sin_condicional t :=
  lazymatch t with
  | context [if _ then _ else _] => fail
  | _ => idtac
  end.

Ltac compare_all :=
  repeat first
    [ progress cbn [orb andb negb]
    | match goal with
      | |- context [N.leb ?a ?b] =>
          sin_condicional a; sin_condicional b;
          destruct (N.leb_spec a b); try lia
      | |- context [N.eqb ?a ?b] =>
          sin_condicional a; sin_condicional b;
          destruct (N.eqb_spec a b); try lia
      end ];
  try reflexivity; try lia; try (f_equal; lia).

Lemma lower_char_quote c : (lower_char c =? 34) = (c =? 34).
Proof. unfold lower_char, in_range. compare_all. Qed.

(** Removing the double quotes is removing the code point 34. *)
Lemma replace_quote_filter s :
  replace [34] [] s = filter (fun c => negb (c =? 34)) s.
Proof.
  unfold replace. induction s as [|c r IH]; [reflexivity|].
  cbn [replace_from starts_with List.length Nat.sub app filter].
  rewrite andb_true_r, IH, (N.eqb_sym 34 c).
  now destruct (c =? 34).
Qed.

Lemma replace_from_In c old new s : forall k,
  In c (replace_from old new k s) -> In c new \/ In c s.
Proof.
  induction s as [|a r IH]; intros k H; cbn [replace_from] in H;
    [destruct H|].
  destruct k as [|k].
  - destruct (starts_with old (a :: r)).
    + apply in_app_or in H as [H|H]; [now left|].
      destruct (IH _ H) as [H'|H']; [now left|right; now right].
    + destruct H as [<-|H]; [right; now left|].
      destruct (IH _ H) as [H'|H']; [now left|right; now right].
  - destruct (IH _ H) as [H'|H']; [now left|right; now right].
Qed.

Lemma title_from_quote s : forall b,
  In 34 (title_from b s) -> In 34 s.
Proof.
  induction s as [|c r IH]; intros b H; [destruct H|].
  cbn [title_from] in H. apply in_app_or in H as [H|H].
  - left. destruct b.
    + destruct H as [H|[]]. apply N.eqb_eq in H.
      rewrite lower_char_quote in H. now apply N.eqb_eq in H.
    + revert H. unfold title_char, in_range.
      compare_all; cbn; intuition lia.
  - right. eauto.
Qed.

(** No double quote is left in what the steps of
    [estandarizar_producto] give. *)
Lemma producto_pasos_sin_comillas s :
  ~ In 34 (replace (txt " Del ") (txt " del ")
             (replace (txt " De ") (txt " de ")
                (title (replace [34] [] (strip s))))).
Proof.
  intros Hin.
  apply replace_from_In in Hin as [Hin|Hin];
    [cbn in Hin; intuition discriminate|].
  apply replace_from_In in Hin as [Hin|Hin];
    [cbn in Hin; intuition discriminate|].
  apply title_from_quote in Hin.
  rewrite replace_quote_filter in Hin.
  apply filter_In in Hin as [_ Hq]. discriminate.
Qed.

(** *** Words joined by single spaces *)

Lemma join_space_cons w r :
  r <> [] -> join_space (w :: r) = w ++ 32 :: join_space r.
Proof. destruct r; [congruence|reflexivity]. Qed.

Lemma map_but_last_cons (f : str -> str) w r :
  r <> [] -> map_but_last f (w :: r) = f w :: map_but_last f r.
Proof. destruct r; [congruence|reflexivity]. Qed.

Lemma map_but_last_nonempty (f : str -> str) (ws : list str) :
  ws <> [] -> map_but_last f ws <> [].
Proof. destruct ws as [|a [|b r]]; [congruence|discriminate..]. Qed.

Lemma join_space_last (ws : list str) :
  ws <> [] -> exists p, join_space ws = p ++ last ws [].
Proof.
  induction ws as [|w r IH]; [congruence|]. intros _.
  destruct r as [|w' r']; [now exists []|].
  destruct (IH ltac:(discriminate)) as (p & Hp).
  exists (w ++ 32 :: p).
  rewrite join_space_cons by discriminate. rewrite Hp.
  change (last (w :: w' :: r') []) with (last (w' :: r') []).
  now rewrite <- app_assoc.
Qed.

Lemma title_join_space (ws : list str) :
  title (join_space ws) = join_space (map title ws).
Proof.
  induction ws as [|w r IH]; [reflexivity|].
  destruct r as [|w' r']; [reflexivity|].
  rewrite join_space_cons by discriminate.
  cbn [map].
  rewrite (join_space_cons (title w) (title w' :: map title r'))
    by discriminate.
  unfold title at 1. rewrite title_from_space. now rewrite IH.
Qed.

Lemma join_space_In c ws :
  In c (join_space ws) -> c = 32 \/ exists w, In w ws /\ In c w.
Proof.
  induction ws as [|w r IH]; [intros []|].
  destruct r as [|w' r'].
  - intros H. right. exists w. split; [now left|exact H].
  - rewrite join_space_cons by discriminate. intros H.
    apply in_app_or in H as [H|[H|H]].
    + right. exists w. split; [now left|exact H].
    + now left.
    + destruct (IH H) as [E|(x & Hx & Hc)]; [now left|].
      right. exists x. split; [now right|exact Hc].
Qed.

(** Trimming and quote removal leave single-spaced words alone. *)
Lemma prepare_palabras (ws : list str) :
  ws <> [] -> forallb palabra ws = true ->
  replace [34] [] (strip (join_space ws)) = join_space ws.
Proof.
  intros Hne Hws. rewrite forallb_forall in Hws.
  assert (W : forall w, In w ws ->
            w <> [] /\ forallb plain w = true).
  { intros w Hw. specialize (Hws w Hw). unfold palabra in Hws.
    apply andb_true_iff in Hws as [Hws _].
    apply andb_true_iff in Hws as [He Hp]. split; [|exact Hp].
    intros ->. discriminate. }
  assert (S : strip (join_space ws) = join_space ws).
  { unfold strip. destruct ws as [|w r]; [congruence|].
    destruct (W w ltac:(now left)) as [Hw Pw].
    assert (L : lstrip (join_space (w :: r)) = join_space (w :: r)).
    { destruct r as [|w' r'].
      - cbn [join_space]. rewrite <- (app_nil_r w).
        apply lstrip_nospace_start; auto using plain_nospace.
      - rewrite join_space_cons by discriminate.
        apply lstrip_nospace_start; auto using plain_nospace. }
    rewrite L.
    destruct (join_space_last (w :: r) ltac:(discriminate)) as (p & ->).
    assert (Hl : In (last (w :: r) []) (w :: r)).
    { destruct (exists_last (l := w :: r) ltac:(discriminate))
        as (q & a & E).
      rewrite E, last_last. apply in_or_app. right. now left. }
    destruct (W _ Hl) as [Hx Px].
    apply rstrip_nospace_end; auto using plain_nospace. }
  rewrite S. apply replace_absent. intros H.
  apply join_space_In in H as [H|(w & Hw & Hc)]; [discriminate|].
  destruct (W w Hw) as [_ Pw]. exact (plain_no_quote _ Pw Hc).
Qed.

Section Conectivo.
Variables c c' : str.
Hypothesis c_nospace : forallb nospace c = true.

(** [c] followed by a space begins a word followed by a space exactly
    when the word is [c]. *)
Lemma starts_with_palabra w rest :
  forallb nospace w = true ->
  starts_with (c ++ [32]) (w ++ 32 :: rest) = str_eqb w c.
Proof.
  clear c'. revert c_nospace. revert w.
  induction c as [|x c0 IH]; intros w Hc Hw.
  - destruct w as [|a w]; [reflexivity|].
    cbn [app starts_with str_eqb]. simpl in Hw.
    apply andb_true_iff in Hw as [Ha _].
    destruct (N.eqb_spec 32 a) as [<-|]; [discriminate|reflexivity].
  - simpl in Hc. apply andb_true_iff in Hc as [Hx Hc].
    destruct w as [|a w].
    + cbn [app starts_with str_eqb].
      destruct (N.eqb_spec x 32) as [->|]; [discriminate|reflexivity].
    + simpl in Hw. apply andb_true_iff in Hw as [_ Hw].
      cbn [app starts_with str_eqb]. rewrite (IH w Hc Hw).
      now rewrite (N.eqb_sym x a).
Qed.

Lemma starts_with_sola w :
  forallb nospace w = true -> starts_with (c ++ [32]) w = false.
Proof.
  intros Hw. apply starts_with_needs_space; [|exact Hw].
  apply in_or_app. right. now left.
Qed.

(** The words after a first one: every word [c] but the last becomes
    [c'], as long as no two neighbours are both [c]. *)
Lemma replace_palabras n : forall ws : list str,
  (List.length ws <= n)%nat -> ws <> [] ->
  forallb (forallb nospace) ws = true -> sin_vecinos c ws = true ->
  replace (32 :: c ++ [32]) (32 :: c' ++ [32]) (32 :: join_space ws)
  = 32 :: join_space (map_but_last (baja c c') ws).
Proof.
  induction n as [|n IH]; intros ws Hn Hne Hws Hv;
    [destruct ws; [congruence|simpl in Hn; lia]|].
  destruct ws as [|w r]; [congruence|].
  cbn [forallb] in Hws. apply andb_true_iff in Hws as [Hw Hr].
  destruct r as [|w' r'].
  - cbn [join_space map_but_last].
    rewrite replace_miss
      by (cbn [app starts_with]; rewrite N.eqb_refl; cbn [andb];
          now apply starts_with_sola).
    now rewrite (replace_absent 32 (c ++ [32]))
      by now apply nospace_no_32.
  - pose proof Hr as Hr0.
    cbn [forallb] in Hr. apply andb_true_iff in Hr as [Hw' Hr'].
    cbn [sin_vecinos] in Hv. apply andb_true_iff in Hv as [Hv1 Hv2].
    fold (sin_vecinos c (w' :: r')) in Hv2.
    rewrite join_space_cons by discriminate.
    rewrite (map_but_last_cons (baja c c') w (w' :: r'))
      by discriminate.
    rewrite (join_space_cons _ (map_but_last (baja c c') (w' :: r')))
      by (apply map_but_last_nonempty; discriminate).
    unfold baja at 1. destruct (str_eqb w c) eqn:E.
    + apply str_eqb_eq in E. subst w. cbn [andb negb] in Hv1.
      apply negb_true_iff in Hv1.
      replace (32 :: c ++ 32 :: join_space (w' :: r'))
        with ((32 :: c ++ [32]) ++ join_space (w' :: r'))
        by (cbn [app]; now rewrite <- app_assoc).
      rewrite (replace_here 32 (c ++ [32])).
      destruct r' as [|w'' r''].
      * cbn [join_space map_but_last].
        rewrite (replace_absent 32 (c ++ [32]))
          by now apply nospace_no_32.
        cbn [app]. now rewrite <- app_assoc.
      * rewrite join_space_cons by discriminate.
        rewrite (replace_copy 32 (c ++ [32]))
          by now apply nospace_no_32.
        rewrite IH; [|simpl in *; lia|discriminate|exact Hr'|].
        2:{ cbn [sin_vecinos] in Hv2.
            apply andb_true_iff in Hv2 as [_ Hv2]. exact Hv2. }
        rewrite (map_but_last_cons (baja c c') w' (w'' :: r''))
          by discriminate.
        rewrite (join_space_cons _
                   (map_but_last (baja c c') (w'' :: r'')))
          by (apply map_but_last_nonempty; discriminate).
        unfold baja at 2. rewrite Hv1.
        cbn [app]. now rewrite <- app_assoc.
    + rewrite replace_miss.
      2:{ cbn [app starts_with]. rewrite N.eqb_refl. cbn [andb].
          now rewrite starts_with_palabra. }
      rewrite (replace_copy 32 (c ++ [32])) by now apply nospace_no_32.
      rewrite IH; [reflexivity|simpl in *; lia|discriminate
                   |exact Hr0|exact Hv2].
Qed.

(** Single-spaced words: every word [c] that is neither first nor
    last becomes [c']. *)
Lemma replace_join_space (ws : list str) :
  ws <> [] -> forallb (forallb nospace) ws = true ->
  sin_vecinos c ws = true ->
  replace (32 :: c ++ [32]) (32 :: c' ++ [32]) (join_space ws)
  = join_space (map_interior (baja c c') ws).
Proof.
  intros Hne Hws Hv. destruct ws as [|w r]; [congruence|].
  cbn [forallb] in Hws. apply andb_true_iff in Hws as [Hw Hr].
  cbn [sin_vecinos] in Hv. apply andb_true_iff in Hv as [_ Hv].
  destruct r as [|w' r'].
  - cbn [join_space map_interior map_but_last].
    now apply (replace_absent 32 (c ++ [32])), nospace_no_32.
  - rewrite join_space_cons by discriminate.
    rewrite (replace_copy 32 (c ++ [32])) by now apply nospace_no_32.
    rewrite (replace_palabras (List.length (w' :: r')))
      by (auto; discriminate).
    cbn [map_interior].
    rewrite (join_space_cons _
               (map_but_last (baja c c') (w' :: r')))
      by (apply map_but_last_nonempty; discriminate).
    reflexivity.
Qed.
End Conectivo.

Section Palabras.
Variable c : str.
Variable f : str -> str.
Hypothesis f_c : forall w, str_eqb (f w) c = str_eqb w c.

Lemma sin_vecinos_but_last (ws : list str) :
  sin_vecinos c (map_but_last f ws) = sin_vecinos c ws.
Proof.
  induction ws as [|w r IH]; [reflexivity|].
  destruct r as [|w' r']; [reflexivity|].
  rewrite map_but_last_cons by discriminate.
  cbn [sin_vecinos] in *. rewrite IH, f_c. f_equal. f_equal. f_equal.
  destruct r'; cbn [map_but_last]; [reflexivity|apply f_c].
Qed.

Lemma sin_vecinos_interior (ws : list str) :
  sin_vecinos c (map_interior f ws) = sin_vecinos c ws.
Proof.
  destruct ws as [|w r]; [reflexivity|]. cbn [map_interior].
  pose proof (sin_vecinos_but_last r) as H.
  cbn [sin_vecinos]. rewrite H. f_equal. f_equal. f_equal.
  destruct r as [|w' [|w'' r'']]; cbn [map_but_last];
    [reflexivity|reflexivity|apply f_c].
Qed.
End Palabras.

Lemma map_but_last_In (f : str -> str) x ws :
  In x (map_but_last f ws) -> exists w, In w ws /\ (x = w \/ x = f w).
Proof.
  induction ws as [|w r IH]; [intros []|].
  destruct r as [|w' r'].
  - intros [<-|[]]. exists w. split; [now left|now left].
  - rewrite map_but_last_cons by discriminate. intros [<-|H].
    + exists w. split; [now left|now right].
    + destruct (IH H) as (y & Hy & Hx). exists y. split; [now right|exact Hx].
Qed.

Lemma map_interior_nospace c c' (ws : list str) :
  forallb nospace c' = true ->
  forallb (forallb nospace) ws = true ->
  forallb (forallb nospace) (map_interior (baja c c') ws) = true.
Proof.
  intros Hc Hws. rewrite forallb_forall in Hws.
  apply forallb_forall. intros x Hx.
  destruct ws as [|w r]; [destruct Hx|]. cbn [map_interior] in Hx.
  destruct Hx as [<-|Hx]; [apply Hws; now left|].
  apply map_but_last_In in Hx as (y & Hy & [->| ->]).
  - apply Hws. now right.
  - unfold baja. destruct (str_eqb y c); [exact Hc|].
    apply Hws. now right.
Qed.

Lemma map_but_last_compose (f g : str -> str) (ws : list str) :
  map_but_last g (map_but_last f ws)
  = map_but_last (fun w => g (f w)) ws.
Proof.
  induction ws as [|w r IH]; [reflexivity|].
  destruct r as [|w' r']; [reflexivity|].
  rewrite !(map_but_last_cons _ w (w' :: r')) by discriminate.
  rewrite map_but_last_cons
    by (apply map_but_last_nonempty; discriminate).
  now rewrite IH.
Qed.

Lemma map_but_last_ext (f g : str -> str) (ws : list str) :
  (forall w, f w = g w) -> map_but_last f ws = map_but_last g ws.
Proof.
  intros H. induction ws as [|w r IH]; [reflexivity|].
  destruct r as [|w' r']; [reflexivity|].
  rewrite !(map_but_last_cons _ w (w' :: r')) by discriminate.
  now rewrite IH, H.
Qed.

(** Lowering De and then Del is lowering the connectives. *)
Lemma baja_conectivos w :
  baja (txt "Del") (txt "del") (baja (txt "De") (txt "de") w)
  = lower_connective w.
Proof.
  unfold baja, lower_connective.
  destruct (str_eqb w (txt "De")) eqn:E1.
  - apply str_eqb_eq in E1. subst w. reflexivity.
  - destruct (str_eqb w (txt "Del")) eqn:E2; [|reflexivity].
    apply str_eqb_eq in E2. subst w. reflexivity.
Qed.

Lemma baja_de_del w :
  str_eqb (baja (txt "De") (txt "de") w) (txt "Del")
  = str_eqb w (txt "Del").
Proof.
  unfold baja. destruct (str_eqb w (txt "De")) eqn:E; [|reflexivity].
  apply str_eqb_eq in E. subst w. reflexivity.
Qed.

Lemma palabras_title (ws : list str) :
  forallb palabra ws = true ->
  forallb (forallb nospace) (map title ws) = true.
Proof.
  rewrite !forallb_forall. intros H x Hx.
  apply in_map_iff in Hx as (w & <- & Hw). specialize (H w Hw).
  unfold palabra in H. apply andb_true_iff in H as [H _].
  apply andb_true_iff in H as [_ H].
  apply title_from_nospace. now apply plain_nospace.
Qed.

(** Single-spaced words: each is title-cased, and the connectives that
    are neither first nor last are lowered. *)
Lemma producto_palabras (ws : list str) :
  ws <> [] -> forallb palabra ws = true ->
  sin_vecinos (txt "De") (map title ws) = true ->
  sin_vecinos (txt "Del") (map title ws) = true ->
  estandarizar_producto (SStr (join_space ws))
  = Ok (SStr (join_space (map_interior lower_connective (map title ws)))).
Proof.
  intros Hne Hws Hde Hdel.
  unfold estandarizar_producto. cbn [isna py_str].
  rewrite prepare_palabras by assumption.
  rewrite title_join_space.
  assert (Hne' : map title ws <> []) by (destruct ws; [congruence|discriminate]).
  pose proof (palabras_title ws Hws) as Hn.
  assert (M : map_interior (baja (txt "Del") (txt "del"))
                (map_interior (baja (txt "De") (txt "de")) (map title ws))
              = map_interior lower_connective (map title ws)).
  { destruct (map title ws) as [|w r]; [reflexivity|].
    cbn [map_interior]. f_equal.
    rewrite map_but_last_compose. apply map_but_last_ext.
    apply baja_conectivos. }
  change (txt " De ") with (32 :: txt "De" ++ [32]).
  change (txt " de ") with (32 :: txt "de" ++ [32]).
  change (txt " Del ") with (32 :: txt "Del" ++ [32]).
  change (txt " del ") with (32 :: txt "del" ++ [32]).
  rewrite replace_join_space by (auto; reflexivity).
  rewrite replace_join_space.
  - now rewrite M.
  - reflexivity.
  - destruct (map title ws); [congruence|discriminate].
  - apply map_interior_nospace; [reflexivity|exact Hn].
  - rewrite sin_vecinos_interior; [exact Hdel|apply baja_de_del].
Qed.

(** A double quote whose removal bares no blank at an end of the text
    changes nothing. *)
Lemma producto_comilla x y :
  strip (x ++ 34 :: y) = x ++ 34 :: y -> strip (x ++ y) = x ++ y ->
  estandarizar_producto (SStr (x ++ 34 :: y))
  = estandarizar_producto (SStr (x ++ y)).
Proof.
  intros H1 H2. unfold estandarizar_producto. cbn [isna py_str].
  rewrite H1, H2, !replace_quote_filter, !filter_app.
  cbn [filter]. rewrite N.eqb_refl. reflexivity.
Qed.

Set Implicit Arguments.

(** C7 (amended): [estandarizar_producto] trims, drops every double
    quote, title-cases, and then lowers the connectives only where the
    exact texts " De " and " Del " are found, left to right and
    without overlap.  For words (not empty, of code points below 256,
    without whitespace or double quote) joined by single spaces, no
    two neighbours of which are both De or both Del once title-cased,
    every word is title-cased and every De and Del that is neither the
    first nor the last word is lowered; the second of two equal
    connectives that share a single space keeps its capital.  No
    double quote is left in the name, and a double quote changes
    nothing in the name of a text of code points below 256 when its
    removal bares no blank at an end of the text.  BUJE BRONCE gives
    Buje Bronce and eje del motor gives Eje del Motor. *)
Theorem producto_connectives :
  estandarizar_producto (SStr (txt "BUJE BRONCE"))
    = Ok (SStr (txt "Buje Bronce"))
  /\ estandarizar_producto (SStr (txt "eje del motor"))
    = Ok (SStr (txt "Eje del Motor"))
  /\ (forall ws : list str, ws <> [] -> forallb palabra ws = true ->
        sin_vecinos (txt "De") (map title ws) = true ->
        sin_vecinos (txt "Del") (map title ws) = true ->
        estandarizar_producto (SStr (join_space ws))
        = Ok (SStr (join_space
                      (map_interior lower_connective (map title ws)))))
  /\ estandarizar_producto (SStr (txt "tapa de de motor"))
    = Ok (SStr (txt "Tapa de De Motor"))
  /\ estandarizar_producto (SStr (txt "eje de acero del motor de"))
    = Ok (SStr (txt "Eje de Acero del Motor De"))
  /\ (forall s t, estandarizar_producto (SStr s) = Ok (SStr t) ->
        ~ In 34 t)
  /\ (forall x y, forallb latin1 (x ++ y) = true ->
        strip (x ++ 34 :: y) = x ++ 34 :: y ->
        strip (x ++ y) = x ++ y ->
        estandarizar_producto (SStr (x ++ 34 :: y))
        = estandarizar_producto (SStr (x ++ y)))
  /\ estandarizar_producto
       (SStr (34 :: txt "buje" ++ 34 :: txt " de 3/4" ++ [34]))
     = Ok (SStr (txt "Buje de 3/4")).
Proof.
  split; [reflexivity|]. split; [reflexivity|].
  split; [exact producto_palabras|].
  split; [reflexivity|]. split; [reflexivity|].
  split; [|split; [|reflexivity]].
  - intros s t H. unfold estandarizar_producto in H.
    cbn [isna py_str] in H. injection H as <-.
    apply producto_pasos_sin_comillas.
  - intros x y _. apply producto_comilla.
Qed.

(** The rules on a name with both connectives and an accented word,
    and on a name with a double quote in it. *)
Lemma producto_connectives_witness :
  estandarizar_producto (SStr (txt "brida de acero del eje"))
  = Ok (SStr (txt "Brida de Acero del Eje"))
  /\ estandarizar_producto (SStr (txt "buje" ++ 34 :: txt " bronce"))
     = Ok (SStr (txt "Buje Bronce")).
Proof.
  destruct producto_connectives as (_ & _ & Hws & _ & _ & _ & Hq & _).
  split.
  - apply (Hws [txt "brida"; txt "de"; txt "acero"; txt "del"; txt "eje"]);
      [discriminate|reflexivity..].
  - rewrite (Hq (txt "buje") (txt " bronce")); reflexivity.
Defined.

(** ** The three text normalizers never raise *)

Lemma strptime_raises s fmt e :
  repeated_directive fmt = false -> strptime s fmt = Raise e ->
  e = ValueError.
Proof.
  intros Hr. unfold strptime. rewrite Hr.
  destruct (match_format fmt default_fields s) as [[f [|c r]]|];
    try (now intros [= <-]).
  destruct (valid_date (f_year f) (f_month f) (f_day f));
    [discriminate|now intros [= <-]].
Qed.

(** The loop ends with a text whenever no format names a directive
    twice. *)
Lemma probar_formatos_total s fmts :
  forallb (fun f => negb (repeated_directive f)) fmts = true ->
  exists t, probar_formatos s fmts = Ok (SStr t).
Proof.
  induction fmts as [|fmt rest IH]; intros H; cbn [probar_formatos].
  - now exists s.
  - simpl in H. apply andb_true_iff in H as [Hf Hrest].
    apply negb_true_iff in Hf.
    destruct (strptime s fmt) as [d|e] eqn:E.
    + now exists (strftime_ymd d).
    + rewrite (strptime_raises _ _ Hf E). auto.
Qed.

(** C10: the date, product and machine normalizers return a value for
    every scalar.  A missing input (None or NaN) gives None for a date
    and comes back as it is for product and machine; any other scalar,
    text or not, is handled exactly as its [str()] text is, and the
    result is a text.  Dates are taken with the two hints the parsers
    pass: none, and day/month/year. *)
Theorem normalizers_total (v : scalar) :
  (isna v = true ->
     estandarizar_fecha v None = Ok SNone
     /\ estandarizar_fecha v (Some fmt_dmy_slash) = Ok SNone
     /\ estandarizar_producto v = Ok v
     /\ estandarizar_maquina v = Ok v)
  /\ (isna v = false ->
     (exists t, estandarizar_fecha v None = Ok (SStr t))
     /\ (exists t, estandarizar_fecha v (Some fmt_dmy_slash) = Ok (SStr t))
     /\ (exists t, estandarizar_producto v = Ok (SStr t))
     /\ (exists t, estandarizar_maquina v = Ok (SStr t))
     /\ estandarizar_fecha v None
        = estandarizar_fecha (SStr (py_str v)) None
     /\ estandarizar_fecha v (Some fmt_dmy_slash)
        = estandarizar_fecha (SStr (py_str v)) (Some fmt_dmy_slash)
     /\ estandarizar_producto v = estandarizar_producto (SStr (py_str v))
     /\ estandarizar_maquina v = estandarizar_maquina (SStr (py_str v)))
  /\ (exists r, estandarizar_fecha v None = Ok r)
  /\ (exists r, estandarizar_fecha v (Some fmt_dmy_slash) = Ok r)
  /\ (exists r, estandarizar_producto v = Ok r)
  /\ (exists r, estandarizar_maquina v = Ok r).
Proof.
  assert (N1 : isna v = false ->
               exists t, estandarizar_fecha v None = Ok (SStr t)).
  { intros E. unfold estandarizar_fecha. rewrite E.
    now apply probar_formatos_total. }
  assert (N2 : isna v = false ->
               exists t, estandarizar_fecha v (Some fmt_dmy_slash)
                         = Ok (SStr t)).
  { intros E. unfold estandarizar_fecha. rewrite E.
    now apply probar_formatos_total. }
  unfold estandarizar_producto, estandarizar_maquina in *.
  destruct (isna v) eqn:E.
  - assert (F : forall h, estandarizar_fecha v h = Ok SNone).
    { intros h. unfold estandarizar_fecha. now rewrite E. }
    repeat split; try discriminate; eauto.
  - destruct (N1 eq_refl) as [t1 H1]. destruct (N2 eq_refl) as [t2 H2].
    repeat split; try discriminate; eauto;
      unfold estandarizar_fecha; rewrite E; reflexivity.
Qed.

(** An integer cell and a missing cell through the three normalizers. *)
Lemma normalizers_total_witness :
  estandarizar_maquina (SInt 7) = estandarizar_maquina (SStr (txt "7"))
  /\ estandarizar_producto SNaN = Ok SNaN
  /\ estandarizar_fecha SNaN None = Ok SNone.
Proof.
  destruct (normalizers_total (SInt 7)) as (_ & H & _).
  destruct (H eq_refl) as (_ & _ & _ & _ & _ & _ & _ & Hm).
  destruct (normalizers_total SNaN) as (Hn & _).
  destruct (Hn eq_refl) as (Hf & _ & Hp & _).
  repeat split; assumption.
Defined.

(** ** Frames and the March parser *)

Lemma bind_ok {A B} (m : res A) (k : A -> res B) r :
  bind m k = Ok r -> exists a, m = Ok a /\ k a = Ok r.
Proof. destruct m as [a|e]; [eauto|discriminate]. Qed.

Ltac bind_inv H :=
  let a := fresh "x" in
  let E := fresh "E" in
  apply bind_ok in H; destruct H as (a & E & H).

Lemma getcol_setcol_same n c df : getcol (setcol n c df) n = Ok c.
Proof.
  induction df as [|[m c'] df IH]; simpl.
  - now rewrite String.eqb_refl.
  - destruct (String.eqb m n) eqn:E; simpl; rewrite E; [reflexivity|exact IH].
Qed.

Lemma getcol_setcol_other n m c df :
  n <> m -> getcol (setcol n c df) m = getcol df m.
Proof.
  intros H. induction df as [|[k c'] df IH]; simpl.
  - destruct (String.eqb_spec n m); [contradiction|reflexivity].
  - destruct (String.eqb_spec k n) as [->|Hk]; simpl.
    + destruct (String.eqb_spec n m); [contradiction|reflexivity].
    + destruct (String.eqb k m); [reflexivity|exact IH].
Qed.

Lemma getcol_rename m df n :
  (forall k, lookup_name m k = n <-> k = n) ->
  getcol (rename m df) n = getcol df n.
Proof.
  intros H. induction df as [|[k c] df IH]; [reflexivity|].
  cbn [rename map getcol fst snd]. fold (rename m df). rewrite IH.
  destruct (String.eqb_spec (lookup_name m k) n) as [E|E];
    destruct (String.eqb_spec k n) as [E'|E']; try reflexivity.
  - apply (proj1 (H k)) in E. contradiction.
  - apply (proj2 (H k)) in E'. contradiction.
Qed.

Lemma mapeo_marzo_cantidad k :
  lookup_name mapeo_marzo k = "Cantidad"%string <-> k = "Cantidad"%string.
Proof.
  unfold mapeo_marzo. cbn [lookup_name].
  repeat match goal with
         | |- context [String.eqb ?a k] =>
             destruct (String.eqb_spec a k) as [<-|?]
         end; split; intros H; try discriminate; auto.
Qed.

Lemma getcol_transformar col f df df' n :
  transformar col f df = Ok df' -> col <> n -> getcol df' n = getcol df n.
Proof.
  unfold transformar. intros H Hn. bind_inv H. bind_inv H.
  injection H as <-. now apply getcol_setcol_other.
Qed.

Lemma getcol_select names df out n :
  select names df = Ok out -> In n names -> getcol out n = getcol df n.
Proof.
  revert out. induction names as [|m names IH]; intros out H Hin; [easy|].
  cbn [select] in H. bind_inv H. bind_inv H. injection H as <-.
  cbn [getcol]. destruct (String.eqb_spec m n) as [->|Hm]; [now rewrite E|].
  destruct Hin as [->|Hin]; [contradiction|]. now apply IH.
Qed.

Lemma apply_nth {A B} (f : A -> res B) l : forall l' i v,
  apply f l = Ok l' -> nth_error l i = Some v ->
  exists b, f v = Ok b /\ nth_error l' i = Some b.
Proof.
  induction l as [|a l IH]; intros l' i v H Hn.
  - destruct i; discriminate.
  - cbn [apply] in H. bind_inv H. bind_inv H. injection H as <-.
    destruct i as [|i]; simpl in Hn |- *.
    + injection Hn as <-. eauto.
    + eauto.
Qed.

Lemma restar_nth a b i x y :
  nth_error a i = Some (SInt x) -> nth_error b i = Some (SInt y) ->
  nth_error (restar a b) i = Some (SInt (wrap64 (x - y))).
Proof.
  revert b i. induction a as [|u a IH]; intros [|w b] [|i] Ha Hb;
    try discriminate; simpl in *.
  - now injection Ha as ->; injection Hb as ->.
  - now apply IH.
Qed.

Lemma INT64_MIN_en_int64 : en_int64 INT64_MIN = true.
Proof. reflexivity. Qed.

(** What [astype(int)] gives is an [int64]. *)
Lemma astype_int_en_int64 f z : astype_int f = Ok z -> en_int64 z = true.
Proof.
  destruct f as [m k| |]; try discriminate. cbn [astype_int].
  destruct (en_int64 (truncar m k)) eqn:E; intros [= <-];
    [exact E|reflexivity].
Qed.

Lemma a_entero_en_int64 (numeric_text : str -> option pyfloat) v z :
  a_entero numeric_text v = Ok z -> en_int64 z = true.
Proof.
  unfold a_entero. destruct (to_numeric numeric_text v) as [f|].
  - apply astype_int_en_int64.
  - now intros [= <-].
Qed.

(** Within the range of [int64] the arithmetic is exact. *)
Lemma wrap64_en_int64 z : en_int64 z = true -> wrap64 z = z.
Proof.
  unfold en_int64, wrap64, INT64_MIN. intros H.
  apply andb_true_iff in H as [H1 H2].
  apply Z.leb_le in H1. apply Z.ltb_lt in H2.
  rewrite Z.mod_small by lia. lia.
Qed.

Lemma astype_int_entero z :
  en_int64 z = true -> astype_int (FNum z 0) = Ok z.
Proof.
  intros H. cbn [astype_int]. unfold truncar. cbn.
  now rewrite Z.quot_1_r, H.
Qed.

(** [float] reads the runs of at most fifteen digits as the numbers
    they write. *)
Lemma numeric_text_float_digits ds :
  ds <> [] -> forallb isdigit ds = true ->
  (List.length ds <=? 15)%nat = true ->
  numeric_text_float ds = Some (FNum (digits_value ds) 0).
Proof.
  intros H1 H2 H3. unfold numeric_text_float.
  now rewrite (py_float_digits ds H1 H2 H3).
Qed.

Example marzo_ejemplo_procesado :
  procesar_marzo numeric_text_float (Ok marzo_ejemplo)
  = Ok ([("Fecha", [SStr (txt "2026-03-02"); SStr (txt "2026-03-03")]);
         ("Producto", [SStr (txt "Eje Principal");
                       SStr (txt "Buje de Bronce")]);
         ("Cantidad", [SInt 85; SInt (-15)]);
         ("Maquina", [SStr (txt "CNC-01"); SStr (txt "Fresadora-B")]);
         ("Operador", [SStr (txt "Ana"); SStr (txt "Luis")])]%string, 2%nat).
Proof. vm_compute. reflexivity. Qed.

Example marzo_fraccion_procesado :
  procesar_marzo numeric_text_float (Ok marzo_fraccion)
  = Ok ([("Fecha", [SStr (txt "2026-03-02")]);
         ("Producto", [SStr (txt "Eje")]);
         ("Cantidad", [SInt 1]);
         ("Maquina", [SStr (txt "CNC-01")]);
         ("Operador", [SStr (txt "Ana")])]%string, 1%nat).
Proof. vm_compute. reflexivity. Qed.

(** C4 (as worded) fails: the counts are cut down to integers before
    the subtraction, so 1.5 approved and 0.75 rejected give 1 - 0 = 1
    and not the difference 0.75 of the two numbers. *)
Lemma marzo_cantidad_truncada :
  mismo_numero
    (netQuantity_spec numeric_text_float (SFloat (txt "1.5"))
       (SFloat (txt "0.75")))
    (FNum 75 2) = true
  /\ ~ (forall numeric_text df out n ca cr cant i va vr z,
          procesar_marzo numeric_text (Ok df) = Ok (out, n) ->
          getcol df "CANT_APROBADA" = Ok ca ->
          getcol df "CANT_RECHAZADA" = Ok cr ->
          getcol out "Cantidad" = Ok cant ->
          nth_error ca i = Some va -> nth_error cr i = Some vr ->
          nth_error cant i = Some (SInt z) ->
          mismo_numero (FNum z 0) (netQuantity_spec numeric_text va vr)
          = true).
Proof.
  split; [vm_compute; reflexivity|]. intros H.
  specialize (H numeric_text_float marzo_fraccion _ _
                [SFloat (txt "1.5")] [SFloat (txt "0.75")] [SInt 1]
                0%nat (SFloat (txt "1.5")) (SFloat (txt "0.75")) 1%Z
                marzo_fraccion_procesado eq_refl eq_refl eq_refl
                eq_refl eq_refl eq_refl).
  vm_compute in H. discriminate.
Qed.

(** C4 (amended): in every frame the March parser returns, the
    Cantidad of each row is the approved count minus the rejected
    count of that row, each first turned into a 64-bit integer by
    [to_numeric] (coerce), [fillna(0)] and [astype(int)], and the
    difference is taken in 64-bit arithmetic: it is the difference of
    the two integers whenever that lies in the range of [int64].  A
    missing cell and a text that is not a number count as 0, an
    integer cell counts as itself, a float cell counts as its integer
    part (1.5 as 1, -1.5 as -1), a text of at most fifteen digits as
    the number it writes, and an infinite count makes the parser
    fail.  The difference is not clamped: 100 and 15 give 85, 10 and
    25 give -15.  (The frame is one [read_csv] gives: its labels are
    distinct, also once renamed, and an integer cell of a count column
    is an [int64] in a column of integers.) *)
Theorem marzo_cantidad_neta (numeric_text : str -> option pyfloat)
  (df out : frame) (n : nat) :
  (forall ds, ds <> [] -> forallb isdigit ds = true ->
     (List.length ds <=? 15)%nat = true ->
     numeric_text ds = Some (FNum (digits_value ds) 0)) ->
  distintas (nombres (rename mapeo_marzo df)) = true ->
  cuentas_leidas df = true ->
  procesar_marzo numeric_text (Ok df) = Ok (out, n) ->
  (exists ca cr cant,
     getcol df "CANT_APROBADA" = Ok ca
     /\ getcol df "CANT_RECHAZADA" = Ok cr
     /\ getcol out "Cantidad" = Ok cant
     /\ forall i va vr,
          nth_error ca i = Some va -> nth_error cr i = Some vr ->
          exists za zr,
            a_entero numeric_text va = Ok za
            /\ a_entero numeric_text vr = Ok zr
            /\ en_int64 za = true /\ en_int64 zr = true
            /\ nth_error cant i = Some (SInt (wrap64 (za - zr)))
            /\ (en_int64 (za - zr) = true ->
                nth_error cant i = Some (SInt (za - zr))))
  /\ a_entero numeric_text SNaN = Ok 0%Z
  /\ a_entero numeric_text SNone = Ok 0%Z
  /\ (forall s, numeric_text s = None ->
        a_entero numeric_text (SStr s) = Ok 0%Z)
  /\ (forall z, en_int64 z = true ->
        a_entero numeric_text (SInt z) = Ok z)
  /\ (forall r m k, py_float r = Ok (FNum m k) ->
        en_int64 (truncar m k) = true ->
        a_entero numeric_text (SFloat r) = Ok (truncar m k))
  /\ a_entero numeric_text (SFloat (txt "100.0")) = Ok 100%Z
  /\ a_entero numeric_text (SFloat (txt "1.5")) = Ok 1%Z
  /\ a_entero numeric_text (SFloat (txt "-1.5")) = Ok (-1)%Z
  /\ a_entero numeric_text (SFloat (txt "inf")) = Raise ValueError
  /\ (forall ds, ds <> [] -> forallb isdigit ds = true ->
        (List.length ds <=? 15)%nat = true ->
        a_entero numeric_text (SStr ds) = Ok (digits_value ds))
  /\ wrap64 (100 - 15) = 85%Z
  /\ wrap64 (10 - 25) = (-15)%Z.
Proof.
  intros Hnt _ _ H. split.
  2:{ split; [reflexivity|]. split; [reflexivity|].
      split; [intros s Hs; unfold a_entero, to_numeric; now rewrite Hs|].
      split; [intros z Hz; unfold a_entero, to_numeric;
              now apply astype_int_entero|].
      split; [intros r m k Hr Hz; unfold a_entero, to_numeric;
              rewrite Hr; cbn [astype_int]; now rewrite Hz|].
      split; [vm_compute; reflexivity|].
      split; [vm_compute; reflexivity|].
      split; [vm_compute; reflexivity|].
      split; [vm_compute; reflexivity|].
      split; [|split; vm_compute; reflexivity].
      intros ds H1 H2 H3. unfold a_entero, to_numeric.
      rewrite (Hnt ds H1 H2 H3). apply astype_int_entero.
      pose proof (digits_below_53 ds H2 H3) as B.
      unfold en_int64, INT64_MIN.
      apply andb_true_iff. split; [apply Z.leb_le|apply Z.ltb_lt]; lia. }
  unfold procesar_marzo in H. cbn [bind] in H.
  apply bind_ok in H as (ca & Eca & H).
  apply bind_ok in H as (ca' & Eca' & H).
  apply bind_ok in H as (cr & Ecr & H).
  apply bind_ok in H as (cr' & Ecr' & H).
  apply bind_ok in H as (a2 & Ea2 & H).
  apply bind_ok in H as (r2 & Er2 & H).
  apply bind_ok in H as (df1 & E1 & H).
  apply bind_ok in H as (df2 & E2 & H).
  apply bind_ok in H as (df3 & E3 & H).
  apply bind_ok in H as (df4 & E4 & H).
  injection H as <- _.
  rewrite getcol_setcol_other in Ecr by discriminate.
  rewrite getcol_setcol_other, getcol_setcol_same in Ea2 by discriminate.
  rewrite getcol_setcol_same in Er2.
  injection Ea2 as <-. injection Er2 as <-.
  exists ca, cr, (restar ca' cr').
  split; [assumption|]. split; [assumption|]. split.
  - rewrite (@getcol_select _ _ _ "Cantidad"%string E4) by (simpl; tauto).
    rewrite (@getcol_transformar _ _ _ _ "Cantidad"%string E3) by discriminate.
    rewrite (@getcol_transformar _ _ _ _ "Cantidad"%string E2) by discriminate.
    rewrite (@getcol_transformar _ _ _ _ "Cantidad"%string E1) by discriminate.
    rewrite getcol_rename by apply mapeo_marzo_cantidad.
    apply getcol_setcol_same.
  - intros i va vr Hva Hvr.
    unfold columna_entera in Eca', Ecr'.
    apply bind_ok in Eca' as (za & Eza & Eca'). injection Eca' as <-.
    apply bind_ok in Ecr' as (zr & Ezr & Ecr'). injection Ecr' as <-.
    destruct (@apply_nth _ _ _ _ _ _ _ Eza Hva) as (x & Hx & Hnx).
    destruct (@apply_nth _ _ _ _ _ _ _ Ezr Hvr) as (y & Hy & Hny).
    exists x, y.
    assert (R : nth_error (restar (map SInt za) (map SInt zr)) i
                = Some (SInt (wrap64 (x - y)))).
    { apply restar_nth; rewrite nth_error_map.
      - now rewrite Hnx.
      - now rewrite Hny. }
    split; [assumption|]. split; [assumption|].
    split; [now apply (a_entero_en_int64 numeric_text va)|].
    split; [now apply (a_entero_en_int64 numeric_text vr)|].
    split; [exact R|].
    intros Hd. now rewrite <- (wrap64_en_int64 _ Hd).
Qed.

(** The March parser on the two-row file. *)
Lemma marzo_cantidad_neta_witness :
  exists cant,
    nth_error cant 0 = Some (SInt 85)
    /\ nth_error cant 1 = Some (SInt (-15)).
Proof.
  destruct (@marzo_cantidad_neta numeric_text_float marzo_ejemplo _ _
              numeric_text_float_digits eq_refl eq_refl
              marzo_ejemplo_procesado)
    as ((ca & cr & cant & Ha & Hr & _ & Hrow) & _).
  vm_compute in Ha. vm_compute in Hr.
  injection Ha as <-. injection Hr as <-.
  exists cant. split.
  - destruct (Hrow 0%nat (SInt 100) (SInt 15) eq_refl eq_refl)
      as (za & zr & Hza & Hzr & _ & _ & _ & Hn).
    vm_compute in Hza. vm_compute in Hzr.
    injection Hza as <-. injection Hzr as <-. now apply Hn.
  - destruct (Hrow 1%nat (SInt 10) (SInt 25) eq_refl eq_refl)
      as (za & zr & Hza & Hzr & _ & _ & _ & Hn).
    vm_compute in Hza. vm_compute in Hzr.
    injection Hza as <-. injection Hzr as <-. now apply Hn.
Defined.

(** ** Merge: order by date *)

Lemma str_leb_total a : forall b, str_leb a b = true \/ str_leb b a = true.
Proof.
  induction a as [|x a IH]; intros [|y b]; simpl; auto.
  destruct (N.ltb_spec x y); [now left|].
  destruct (N.ltb_spec y x); [now right|].
  assert (x = y) as -> by lia. rewrite N.eqb_refl. simpl.
  apply IH.
Qed.

Lemma str_leb_trans a : forall b c,
  str_leb a b = true -> str_leb b c = true -> str_leb a c = true.
Proof.
  induction a as [|x a IH]; intros [|y b] [|z c]; simpl; auto;
    try discriminate.
  rewrite !orb_true_iff, !andb_true_iff, !N.ltb_lt, !N.eqb_eq.
  intros [H1|[-> H1]] [H2|[-> H2]].
  - left. lia.
  - now left.
  - now left.
  - right. split; [reflexivity|]. eapply IH; eauto.
Qed.

Lemma fecha_leb_total a b : fecha_leb a b = true \/ fecha_leb b a = true.
Proof.
  unfold fecha_leb. destruct (fecha_key a), (fecha_key b); auto.
  apply str_leb_total.
Qed.

Lemma fecha_leb_trans a b c :
  fecha_leb a b = true -> fecha_leb b c = true -> fecha_leb a c = true.
Proof.
  unfold fecha_leb.
  destruct (fecha_key a), (fecha_key b), (fecha_key c); auto;
    try discriminate.
  apply str_leb_trans.
Qed.

Lemma insertar_perm x l : Permutation (x :: l) (insertar x l).
Proof.
  induction l as [|y r IH]; simpl; [reflexivity|].
  destruct (fecha_leb x y); [reflexivity|].
  rewrite perm_swap. now apply perm_skip.
Qed.

Lemma sort_values_perm l : Permutation l (sort_values l).
Proof.
  induction l as [|x r IH]; simpl; [constructor|].
  rewrite <- insertar_perm. now apply perm_skip.
Qed.

Lemma insertar_sorted x l :
  StronglySorted fecha_le l -> StronglySorted fecha_le (insertar x l).
Proof.
  induction 1 as [|y r Hr IH Hy]; simpl.
  - repeat constructor.
  - destruct (fecha_leb x y) eqn:E.
    + constructor; [now constructor|].
      constructor; [exact E|].
      eapply Forall_impl; [|exact Hy].
      intros z Hz. eapply fecha_leb_trans; eauto.
    + assert (Hyx : fecha_le y x).
      { destruct (fecha_leb_total x y) as [H|H]; [congruence|exact H]. }
      constructor; [exact IH|].
      rewrite <- insertar_perm. constructor; assumption.
Qed.

(** The sorted table is in ascending order of date. *)
Lemma sort_values_sorted l : StronglySorted fecha_le (sort_values l).
Proof.
  induction l as [|x r IH]; simpl; [constructor|].
  now apply insertar_sorted.
Qed.

(** ** Merge: exact duplicates *)

Lemma str_eqb_refl a : str_eqb a a = true.
Proof. induction a; simpl; [reflexivity|]. now rewrite N.eqb_refl. Qed.

Lemma scalar_eqb_eq a b : scalar_eqb a b = true <-> a = b.
Proof.
  split.
  - destruct a, b; simpl; intros H; try discriminate; try reflexivity.
    + now apply str_eqb_eq in H as ->.
    + now apply Z.eqb_eq in H as ->.
    + now apply Bool.eqb_prop in H as ->.
    + now apply str_eqb_eq in H as ->.
  - intros <-. destruct a; simpl; auto using str_eqb_refl, Z.eqb_refl.
    now destruct b.
Qed.

Lemma fila_eqb_eq a : forall b, fila_eqb a b = true <-> a = b.
Proof.
  induction a as [|x a IH]; intros [|y b]; simpl; split; intros H;
    try discriminate; try reflexivity.
  - apply andb_true_iff in H as [H1 H2].
    apply scalar_eqb_eq in H1. apply IH in H2. congruence.
  - injection H as -> ->. apply andb_true_iff. split.
    + now apply scalar_eqb_eq.
    + now apply IH.
Qed.

Lemma seen_In x seen : existsb (fila_eqb x) seen = true <-> In x seen.
Proof.
  rewrite existsb_exists. split.
  - intros (y & Hy & E). apply fila_eqb_eq in E. now subst.
  - intros H. exists x. split; [exact H|]. now apply fila_eqb_eq.
Qed.

Lemma duplicated_from_length l : forall seen,
  List.length (duplicated_from seen l) = List.length l.
Proof. induction l; intros seen; simpl; auto. Qed.

(** A row is marked exactly when an equal row stands before it. *)
Lemma duplicated_from_nth l : forall seen i x,
  nth_error l i = Some x ->
  (nth_error (duplicated_from seen l) i = Some true
   <-> In x seen \/ In x (firstn i l)).
Proof.
  induction l as [|y r IH]; intros seen i x Hn; [destruct i; discriminate|].
  destruct i as [|i]; simpl in Hn |- *.
  - injection Hn as ->. rewrite <- seen_In.
    split; [intros [= H]; now left|intros [H|[]]; now rewrite H].
  - rewrite (IH (y :: seen) i x Hn). simpl. tauto.
Qed.

(** The rows kept are those of the table that were not seen before,
    each once. *)
Lemma unmarked_from l : forall seen,
  NoDup (unmarked l (duplicated_from seen l))
  /\ forall x, In x (unmarked l (duplicated_from seen l))
               <-> In x l /\ ~ In x seen.
Proof.
  induction l as [|y r IH]; intros seen; simpl.
  - split; [constructor|]. tauto.
  - destruct (IH (y :: seen)) as [Hnd Hin].
    destruct (existsb (fila_eqb y) seen) eqn:E.
    + apply seen_In in E. split; [exact Hnd|].
      intros x. rewrite Hin. simpl. split.
      * intros [H1 H2]. split; [now right|]. intros H. apply H2. now right.
      * intros [[<-|H] Hs]; [contradiction|]. split; [exact H|].
        intros [<-|H']; contradiction.
    + assert (Hy : ~ In y seen).
      { intros H. apply seen_In in H. congruence. }
      split.
      * constructor; [|exact Hnd]. rewrite Hin. simpl.
        intros [_ H]. apply H. now left.
      * intros x. simpl. rewrite Hin. simpl. split.
        -- intros [<-|[H1 H2]]; [split; [now left|exact Hy]|].
           split; [now right|]. intros H. apply H2. now right.
        -- intros [[<-|H] Hs]; [now left|].
           destruct (fila_eqb y x) eqn:Q.
           ++ apply fila_eqb_eq in Q. now left.
           ++ right. split; [exact H|]. intros [->|H']; [|contradiction].
              rewrite (proj2 (fila_eqb_eq x x) eq_refl) in Q. discriminate.
Qed.

Lemma unmarked_count l : forall marks,
  List.length marks = List.length l ->
  (List.length (unmarked l marks) + suma marks = List.length l)%nat.
Proof.
  unfold suma.
  induction l as [|x r IH]; intros [|m ms] H; simpl in *; try lia.
  injection H as H. specialize (IH ms H).
  destruct m; simpl;
    repeat match goal with
           | |- context [bool_dec ?a ?b] => destruct (bool_dec a b)
           end; try congruence; lia.
Qed.

Lemma unmarked_none l : forall marks,
  List.length marks = List.length l -> suma marks = 0%nat ->
  unmarked l marks = l.
Proof.
  unfold suma.
  induction l as [|x r IH]; intros [|m ms] H H0; simpl in *;
    try reflexivity; try discriminate.
  destruct m; simpl in H0;
    repeat match goal with
           | H : context [bool_dec ?a ?b] |- _ => destruct (bool_dec a b)
           end; try congruence; try discriminate.
  f_equal. apply IH; [lia|assumption].
Qed.

Lemma unmarked_Forall (P : fila -> Prop) l : forall marks,
  Forall P l -> Forall P (unmarked l marks).
Proof.
  induction l as [|x r IH]; intros [|m ms] H; simpl; try constructor.
  inversion H; subst. destruct m; [auto|constructor; auto].
Qed.

(** Dropping rows keeps the order of those that stay. *)
Lemma unmarked_sorted l : forall marks,
  StronglySorted fecha_le l -> StronglySorted fecha_le (unmarked l marks).
Proof.
  induction l as [|x r IH]; intros [|m ms] H; simpl; try constructor.
  inversion H; subst. destruct m; [auto|].
  constructor; [auto|]. now apply unmarked_Forall.
Qed.

Lemma unificar_spec dfs :
  fst (unificar dfs)
  = unmarked (tabla_ordenada dfs) (duplicated (tabla_ordenada dfs))
  /\ snd (unificar dfs) = suma (duplicated (tabla_ordenada dfs)).
Proof.
  unfold unificar. fold (tabla_concatenada dfs). fold (tabla_ordenada dfs).
  destruct (Nat.ltb_spec 0 (suma (duplicated (tabla_ordenada dfs)))).
  - split; reflexivity.
  - split; [|reflexivity]. cbn [fst]. symmetry.
    apply unmarked_none; [apply duplicated_from_length|lia].
Qed.

Lemma filas_de_length df : List.length (filas_de df) = nfilas df.
Proof. unfold filas_de. now rewrite length_map, length_seq. Qed.

Lemma tabla_concatenada_length dfs :
  List.length (tabla_concatenada dfs) = list_sum (map nfilas dfs).
Proof.
  unfold tabla_concatenada. induction dfs as [|df dfs IH]; [reflexivity|].
  simpl. now rewrite length_app, filas_de_length, IH.
Qed.

Lemma salida_unificar nt resto fs maestro :
  salida (ejecutar_etl nt resto fs) = Some maestro ->
  maestro = fst (unificar (exitos nt fs)).
Proof.
  unfold ejecutar_etl, exitos.
  destruct (fase1 fs (procesadores nt) [] []) as [[dfs errs]|e];
    [|discriminate].
  destruct dfs as [|df dfs]; [discriminate|].
  now intros [= <-].
Qed.

Example corrida_ejemplo :
  salida (ejecutar_etl numeric_text_float resto_ok fs_ejemplo)
  = Some
      [[SStr (txt "2026-01-03"); SStr (txt "Tuerca Hex"); SInt 0;
        SStr (txt "Torno-A"); SStr (txt "Luis"); SStr (txt "Enero")];
       [SStr (txt "2026-01-05"); SStr (txt "Eje Principal"); SInt 100;
        SStr (txt "CNC-01"); SStr (txt "Ana"); SStr (txt "Enero")];
       [SStr (txt "2026-03-02"); SStr (txt "Eje Principal"); SInt 85;
        SStr (txt "CNC-01"); SStr (txt "Ana"); SStr (txt "Marzo")];
       [SStr (txt "2026-03-03"); SStr (txt "Buje de Bronce"); SInt (-15);
        SStr (txt "Fresadora-B"); SStr (txt "Luis"); SStr (txt "Marzo")]].
Proof. vm_compute. reflexivity. Qed.

(** C3: the master table a run writes is in ascending order of Fecha
    under code-point comparison of the texts (rows without a date
    last), holds no two equal rows, holds exactly the rows of the
    concatenated tables of the parsers that succeeded, and its length
    is the number of rows concatenated minus the number of duplicates
    reported. *)
Theorem maestro_ordenado_sin_duplicados
  (numeric_text : str -> option pyfloat)
  (resto_informe : list fila -> res unit)
  (fs : string -> fuente) (maestro : list fila) :
  salida (ejecutar_etl numeric_text resto_informe fs) = Some maestro ->
  StronglySorted fecha_le maestro
  /\ NoDup maestro
  /\ (forall x, In x maestro
                <-> In x (tabla_concatenada (exitos numeric_text fs)))
  /\ List.length (tabla_concatenada (exitos numeric_text fs))
     = list_sum (map nfilas (exitos numeric_text fs))
  /\ List.length maestro
     = (list_sum (map nfilas (exitos numeric_text fs))
        - snd (unificar (exitos numeric_text fs)))%nat.
Proof.
  intros H. apply salida_unificar in H.
  destruct (unificar_spec (exitos numeric_text fs)) as [Hm Hd].
  rewrite Hm in H. subst maestro. rewrite Hd.
  set (dfs := exitos numeric_text fs).
  destruct (unmarked_from (tabla_ordenada dfs) []) as [Hnd Hin].
  fold (duplicated (tabla_ordenada dfs)) in Hnd, Hin.
  repeat split.
  - apply unmarked_sorted, sort_values_sorted.
  - exact Hnd.
  - intros Hx. apply Hin in Hx as [Hx _].
    eapply Permutation_in; [symmetry; apply sort_values_perm|exact Hx].
  - intros Hx. apply Hin. split; [|tauto].
    eapply Permutation_in; [apply sort_values_perm|exact Hx].
  - apply tabla_concatenada_length.
  - pose proof (unmarked_count (tabla_ordenada dfs)
                  (duplicated (tabla_ordenada dfs))
                  (duplicated_from_length _ _)) as Hc.
    rewrite <- tabla_concatenada_length.
    assert (L : List.length (tabla_ordenada dfs)
                = List.length (tabla_concatenada dfs)).
    { symmetry. apply Permutation_length, sort_values_perm. }
    lia.
Qed.

(** The run on the example files: five rows concatenated, one
    duplicate, four rows written. *)
Lemma maestro_ordenado_sin_duplicados_witness :
  exists maestro,
    salida (ejecutar_etl numeric_text_float resto_ok fs_ejemplo)
    = Some maestro
    /\ NoDup maestro /\ List.length maestro = (5 - 1)%nat.
Proof.
  eexists. split; [exact corrida_ejemplo|].
  destruct (maestro_ordenado_sin_duplicados numeric_text_float resto_ok
              fs_ejemplo corrida_ejemplo) as (_ & Hnd & _ & _ & Hlen).
  split; [exact Hnd|]. exact Hlen.
Defined.

(** ** Merge: which duplicate is kept *)

(** C9: in the sorted table a row is dropped exactly when an equal row
    stands before it, so of equal rows the first in sorted order is
    the one kept; every row of the sorted table is still in the master
    table, once; and the number of duplicates reported is the number
    of rows dropped. *)
Theorem primer_duplicado_se_conserva (dataframes : list frame) :
  fst (unificar dataframes)
  = unmarked (tabla_ordenada dataframes)
      (duplicated (tabla_ordenada dataframes))
  /\ (forall i x,
        nth_error (tabla_ordenada dataframes) i = Some x ->
        (nth_error (duplicated (tabla_ordenada dataframes)) i = Some true
         <-> In x (firstn i (tabla_ordenada dataframes))))
  /\ (forall x, In x (tabla_ordenada dataframes)
                <-> In x (fst (unificar dataframes)))
  /\ NoDup (fst (unificar dataframes))
  /\ snd (unificar dataframes)
     = (List.length (tabla_ordenada dataframes)
        - List.length (fst (unificar dataframes)))%nat.
Proof.
  destruct (unificar_spec dataframes) as [Hm Hd]. rewrite Hm, Hd.
  set (t := tabla_ordenada dataframes).
  destruct (unmarked_from t []) as [Hnd Hin].
  fold (duplicated t) in Hnd, Hin.
  split; [reflexivity|]. split; [|split; [|split]].
  - intros i x Hx. unfold duplicated.
    rewrite (duplicated_from_nth t [] i Hx). simpl. tauto.
  - intros x. rewrite Hin. simpl. tauto.
  - exact Hnd.
  - pose proof (unmarked_count t (duplicated t)
                  (duplicated_from_length _ _)). lia.
Qed.

(** The example files: the second of the two equal January rows is
    the one marked, and one duplicate is reported. *)
Lemma primer_duplicado_se_conserva_witness :
  nth_error
    (duplicated
       (tabla_ordenada (exitos numeric_text_float fs_ejemplo))) 2
  = Some true
  /\ snd (unificar (exitos numeric_text_float fs_ejemplo)) = 1%nat.
Proof.
  destruct (primer_duplicado_se_conserva
              (exitos numeric_text_float fs_ejemplo))
    as (_ & Hnth & _ & _ & Hcount).
  split.
  - eapply Hnth; [vm_compute; reflexivity|]. vm_compute. tauto.
  - rewrite Hcount. vm_compute. reflexivity.
Defined.

(** ** The run: failures per source and exit code *)

(** With nothing but [Exception]s raised, the loop visits every source
    and sorts each into the frames or into the failed names. *)
Lemma fase1_collect fs ps : forall d0 e0,
  solo_excepciones fs ps = true ->
  fase1 fs ps d0 e0 = Ok (d0 ++ exitos_de fs ps, e0 ++ fallos_de fs ps).
Proof.
  induction ps as [|p ps IH]; intros d0 e0 H.
  - simpl. now rewrite !app_nil_r.
  - unfold solo_excepciones in H. cbn [forallb] in H.
    apply andb_true_iff in H as [Hp Hps]. fold (solo_excepciones fs ps) in Hps.
    cbn [fase1 exitos_de fallos_de flat_map].
    destruct (intento p (fs (archivo p))) as [df|e].
    + rewrite (IH _ _ Hps). now rewrite <- app_assoc.
    + rewrite Hp, (IH _ _ Hps). now rewrite <- app_assoc.
Qed.


Example corrida_con_fallos :
  errores_de (ejecutar_etl numeric_text_float resto_ok fs_con_fallos)
    = ["produccion_feb_sucio.csv"; "prod_marzo_v2.csv"]%string
  /\ codigo_salida numeric_text_float resto_ok fs_con_fallos = 0%Z
  /\ List.length (exitos numeric_text_float fs_con_fallos) = 1%nat.
Proof. vm_compute. auto. Qed.

Example corrida_sin_archivos :
  codigo_salida numeric_text_float resto_ok fs_vacio = 1%Z
  /\ salida (ejecutar_etl numeric_text_float resto_ok fs_vacio) = None.
Proof. vm_compute. auto. Qed.




(** * Further properties *)

Unset Implicit Arguments.

(** ** Quantities: what the clean-up reads *)

(** X1: when what is left of the text, once lowercased and freed of
    letters, whitespace and slashes, is a run of at most fifteen digits
    (so that the float holds their value exactly), the quantity is the
    value of those digits, wherever the noise stood (before, after or
    between the digits). *)
Theorem cantidad_digitos_con_ruido (s ds : str) :
  sub_class_plus_empty qty_noise (lower s) = ds ->
  ds <> [] -> forallb isdigit ds = true ->
  (List.length ds <=? 15)%nat = true ->
  limpiar_cantidad (SStr s) = Ok (FNum (digits_value ds) 0).
Proof.
  intros Hs Hne Hd Hl. unfold limpiar_cantidad. cbn [isna py_str].
  rewrite cleaned_strip, Hs, py_float_digits by assumption. reflexivity.
Qed.

(** 250 between blanks and a unit. *)
Lemma cantidad_digitos_con_ruido_witness :
  limpiar_cantidad (SStr (txt "  250   und ")) = Ok (FNum 250 0).
Proof.
  apply (@cantidad_digitos_con_ruido (txt "  250   und ") (txt "250"));
    [reflexivity|discriminate|reflexivity|reflexivity].
Defined.

Lemma lower_char_digit c : isdigit c = true -> lower_char c = c.
Proof.
  intros H. unfold lower_char.
  destruct (in_range 65 90 c || in_range 192 214 c || in_range 216 222 c)
    eqn:E; [exfalso; revert H E; charb|reflexivity].
Qed.

Lemma cleaned_digits ds :
  forallb isdigit ds = true ->
  sub_class_plus_empty qty_noise (lower ds) = ds.
Proof.
  unfold sub_class_plus_empty, lower.
  induction ds as [|c ds IH]; [reflexivity|]. simpl. intros H.
  apply andb_true_iff in H as [Hc Hds].
  rewrite (lower_char_digit _ Hc).
  assert (qty_noise c = false) as -> by (revert Hc; charb).
  simpl. now rewrite IH.
Qed.

(** X2: a letter, a blank or a slash that stands between two runs of
    digits (of at most fifteen digits together) is dropped and the
    runs are joined: exponent notation and fractions are not
    understood (1e3 is read as 13, 1/2 as 12). *)
Theorem cantidad_une_los_digitos (a b : str) (c : N) :
  qty_noise (lower_char c) = true ->
  a <> [] -> forallb isdigit a = true -> forallb isdigit b = true ->
  (List.length (a ++ b) <=? 15)%nat = true ->
  limpiar_cantidad (SStr (a ++ c :: b))
  = Ok (FNum (digits_value (a ++ b)) 0).
Proof.
  intros Hc Ha Hda Hdb Hl. unfold limpiar_cantidad. cbn [isna py_str].
  rewrite cleaned_strip.
  assert (E : sub_class_plus_empty qty_noise (lower (a ++ c :: b)) = a ++ b).
  { unfold sub_class_plus_empty, lower.
    rewrite map_app, filter_app. cbn [map filter]. rewrite Hc. cbn [negb].
    fold (lower a) (lower b).
    fold (sub_class_plus_empty qty_noise (lower a)).
    fold (sub_class_plus_empty qty_noise (lower b)).
    now rewrite !cleaned_digits. }
  rewrite E, py_float_digits; [reflexivity| | |exact Hl].
  - destruct a; [congruence|discriminate].
  - rewrite forallb_app. now rewrite Hda, Hdb.
Qed.

(** One half, and a thousand in exponent notation. *)
Lemma cantidad_une_los_digitos_witness :
  limpiar_cantidad (SStr (txt "1/2")) = Ok (FNum 12 0)
  /\ limpiar_cantidad (SStr (txt "1E3")) = Ok (FNum 13 0).
Proof.
  split.
  - apply (@cantidad_une_los_digitos (txt "1") (txt "2") 47);
      [reflexivity|discriminate|reflexivity|reflexivity|reflexivity].
  - apply (@cantidad_une_los_digitos (txt "1") (txt "3") 69);
      [reflexivity|discriminate|reflexivity|reflexivity|reflexivity].
Defined.

Lemma cantidad_entera_steps cells :
  forallb texto_corto cells = true ->
  exists fs zs,
    apply limpiar_cantidad cells = Ok fs
    /\ apply astype_int fs = Ok zs
    /\ List.length zs = List.length cells
    /\ forall i v, nth_error cells i = Some v -> isna v = true ->
                   nth_error zs i = Some 0%Z.
Proof.
  induction cells as [|v cells IH]; intros Hc.
  - exists [], []. repeat split. intros [|i] v H; discriminate.
  - cbn [forallb] in Hc. apply andb_true_iff in Hc as [Hv Hc].
    destruct (IH Hc) as (fs & zs & E1 & E2 & L & H0).
    destruct (limpiar_cantidad_finite v Hv) as (m & k & Ev & Hk & Hna & _).
    exists (FNum m k :: fs),
      ((if en_int64 (truncar m k) then truncar m k else INT64_MIN) :: zs).
    cbn [apply]. rewrite Ev, E1. cbn [bind astype_int].
    rewrite E2. cbn [bind].
    repeat split; [simpl; lia|].
    intros [|i] w Hw Hn; simpl in Hw |- *.
    + injection Hw as <-. destruct (Hna Hn) as [-> ->]. reflexivity.
    + eauto.
Qed.

(** X3: the quantity column of the January and February parsers never
    fails on cells of fewer than 300 code points: every column is
    turned into as many integers as it has cells, with 0 at each
    missing cell. *)
Theorem cantidad_entera_total (cells : list scalar) :
  forallb texto_corto cells = true ->
  exists zs,
    cantidad_entera cells = Ok (map SInt zs)
    /\ List.length zs = List.length cells
    /\ forall i v, nth_error cells i = Some v -> isna v = true ->
                   nth_error zs i = Some 0%Z.
Proof.
  intros Hc.
  destruct (cantidad_entera_steps cells Hc) as (fs & zs & E1 & E2 & L & H0).
  exists zs. unfold cantidad_entera. rewrite E1. cbn [bind].
  rewrite E2. cbn [bind]. auto.
Qed.

(** A column of three cells, the second missing. *)
Lemma cantidad_entera_total_witness :
  exists zs,
    cantidad_entera [SStr (txt "100 pzas"); SNaN; SFloat (txt "250.0")]
    = Ok (map SInt zs)
    /\ nth_error zs 1 = Some 0%Z.
Proof.
  destruct (cantidad_entera_total
              [SStr (txt "100 pzas"); SNaN; SFloat (txt "250.0")] eq_refl)
    as (zs & E & _ & H0).
  exists zs. split; [exact E|]. now apply (H0 1%nat SNaN).
Defined.

(** ** Dates: the day-first hint, and the shape of the result *)

Section PatternShape.
Variable R : Type.
Variable k : N -> str -> option R.

(** A day that is read takes one or two code points, and the rest of
    the pattern accepts what follows. *)
Lemma re_d_some s x :
  re_d k s = Some x ->
  exists v r, k v r = Some x
              /\ ((exists a, s = a :: r) \/ (exists a b, s = a :: b :: r)).
Proof.
  unfold re_d, two, one, space_one, orelse.
  destruct s as [|a [|b r]]; try discriminate;
    repeat match goal with
           | |- context [if ?c then _ else _] => destruct c
           end;
    repeat match goal with
           | |- context [match k ?v ?r with _ => _ end] =>
               let E := fresh "E" in destruct (k v r) eqn:E
           end;
    intros H; try discriminate; try (injection H as <-); eauto 8.
Qed.
End PatternShape.

Lemma mf_lit_some c rest f s y :
  match_format (FmtLit c :: rest) f s = Some y -> exists r, s = c :: r.
Proof.
  destruct s as [|c' r]; [discriminate|]. cbn [match_format].
  destruct (N.eqb_spec c c') as [->|]; [eauto|discriminate].
Qed.

(** A text read day first with slashes is not read year first. *)
Lemma dmy_slash_excludes_iso s f f' y :
  match_format fmt_dmy_slash f s = Some y ->
  match_format fmt_iso f' s = None.
Proof.
  unfold fmt_dmy_slash, fmt_iso. rewrite mf_D. intros H.
  apply re_d_some in H as (v & r & Hk & Hs).
  apply mf_lit_some in Hk as (r' & ->).
  rewrite mf_Y. unfold re_Y.
  destruct Hs as [(a & ->)|(a & b & ->)].
  - destruct r' as [|c [|d r']]; try reflexivity.
    now rewrite andb_false_r.
  - destruct r' as [|d r']; [reflexivity|].
    now rewrite andb_false_r.
Qed.

Lemma strptime_ok_match s fmt d :
  strptime s fmt = Ok d ->
  exists f, match_format fmt default_fields s = Some (f, []).
Proof.
  unfold strptime. destruct (repeated_directive fmt); [discriminate|].
  destruct (match_format fmt default_fields s) as [[f [|c r]]|];
    try discriminate.
  eauto.
Qed.

(** The list of formats with the day-first format put in front gives
    what the list alone gives. *)
Lemma probar_con_hint t :
  probar_formatos t (fmt_dmy_slash :: formatos_fijos)
  = probar_formatos t formatos_fijos.
Proof.
  destruct (strptime t fmt_dmy_slash) as [d|e] eqn:E.
  - destruct (strptime_ok_match _ _ _ E) as (f & Hf).
    rewrite (@probar_step_ok _ _ formatos_fijos _ E).
    unfold formatos_fijos. rewrite probar_step_fail.
    + symmetry. now apply probar_step_ok.
    + apply strptime_fail; [reflexivity|].
      eapply dmy_slash_excludes_iso; eauto.
  - rewrite (@strptime_raises t fmt_dmy_slash e eq_refl E) in E.
    now apply probar_step_fail.
Qed.

Lemma fecha_hint_redundante_aux v :
  isna v = false ->
  estandarizar_fecha v (Some fmt_dmy_slash)
  = probar_formatos (strip (py_str v)) formatos_fijos.
Proof.
  intros H. unfold estandarizar_fecha. rewrite H.
  apply probar_con_hint.
Qed.

(** X4: the day-first hint the February parser passes changes nothing:
    for every input the date is normalized as it is without a hint,
    because no text is read both year first and day first. *)
Theorem fecha_hint_redundante (v : scalar) :
  estandarizar_fecha v (Some fmt_dmy_slash) = estandarizar_fecha v None.
Proof.
  destruct (isna v) eqn:Hv.
  - unfold estandarizar_fecha. now rewrite Hv.
  - rewrite fecha_hint_redundante_aux by exact Hv.
    unfold estandarizar_fecha. now rewrite Hv.
Qed.

(** A February date with the hint and without it. *)
Lemma fecha_hint_redundante_witness :
  estandarizar_fecha (SStr (txt "05/02/2026")) (Some fmt_dmy_slash)
  = Ok (SStr (txt "2026-02-05")).
Proof.
  rewrite (fecha_hint_redundante (SStr (txt "05/02/2026"))). reflexivity.
Defined.




(** X6: each of the six formats of the list reads back, as the same
    date, the text it writes for a date of the calendar. *)
Theorem formatos_ida_y_vuelta (d : date) :
  valid d = true ->
  strptime (render_ymd 45 d) fmt_iso = Ok d
  /\ strptime (render_dmy 47 d) fmt_dmy_slash = Ok d
  /\ strptime (render_mdy 47 d) fmt_mdy_slash = Ok d
  /\ strptime (render_dmy 45 d) fmt_dmy_dash = Ok d
  /\ strptime (render_ymd 47 d) fmt_ymd_slash = Ok d
  /\ strptime (render_dmy 46 d) fmt_dmy_dot = Ok d.
Proof.
  intros H.
  repeat split; apply strptime_ok; try reflexivity; try assumption.
  - now apply (match_ymd 45).
  - now apply (match_dmy 47).
  - now apply (match_mdy 47).
  - now apply (match_dmy 45).
  - now apply (match_ymd 47).
  - now apply (match_dmy 46).
Qed.

(** The last day of a leap February, day first with dots. *)
Lemma formatos_ida_y_vuelta_witness :
  strptime (txt "29.02.2024") fmt_dmy_dot = Ok (mkDate 2024 2 29).
Proof.
  exact (proj2 (proj2 (proj2 (proj2 (proj2
           (@formatos_ida_y_vuelta (mkDate 2024 2 29) eq_refl)))))).
Defined.

(** ** Dates: ISO texts and chronological order *)

Lemma pad2_value n :
  n < 100 -> dval (digit_at n 10) * 10 + dval (digit_at n 1) = n.
Proof.
  intros H. rewrite !dval_digit_at, N.div_1_r.
  pose proof (N.div_mod n 10 ltac:(lia)).
  pose proof (N.mod_lt n 10 ltac:(lia)).
  assert (n / 10 < 10) by (apply N.Div0.div_lt_upper_bound; lia).
  rewrite (N.mod_small (n / 10) 10) by assumption.
  set (q := n / 10) in *. set (r := n mod 10) in *. clearbody q r. lia.
Qed.

Lemma digit_at_bounds n p : 48 <= digit_at n p <= 57.
Proof.
  pose proof (digit_at_isdigit n p) as H. revert H. charb.
Qed.

Lemma digit_at_dval n p : digit_at n p = 48 + dval (digit_at n p).
Proof. pose proof (digit_at_bounds n p). unfold dval. lia. Qed.

Ltac bool_eq_lia :=
  apply Bool.eq_true_iff_eq;
  repeat rewrite ?andb_true_iff, ?orb_true_iff, ?N.ltb_lt, ?N.leb_le,
    ?N.eqb_eq;
  lia.

(** Two digits compare as the numbers they write. *)
Lemma str_leb_pad2 m1 m2 r1 r2 :
  m1 < 100 -> m2 < 100 ->
  str_leb (pad2 m1 ++ r1) (pad2 m2 ++ r2)
  = (m1 <? m2) || ((m1 =? m2) && str_leb r1 r2).
Proof.
  intros H1 H2. unfold pad2. cbn [app str_leb].
  pose proof (pad2_value _ H1) as E1. pose proof (pad2_value _ H2) as E2.
  pose proof (digit_at_bounds m1 10). pose proof (digit_at_bounds m1 1).
  pose proof (digit_at_bounds m2 10). pose proof (digit_at_bounds m2 1).
  unfold dval in *.
  set (a1 := digit_at m1 10) in *. set (a2 := digit_at m1 1) in *.
  set (b1 := digit_at m2 10) in *. set (b2 := digit_at m2 1) in *.
  clearbody a1 a2 b1 b2.
  destruct (str_leb r1 r2); bool_eq_lia.
Qed.

(** Four digits compare as the number they write. *)
Lemma str_leb_pad4 y1 y2 r1 r2 :
  y1 < 10000 -> y2 < 10000 ->
  str_leb (pad4 y1 ++ r1) (pad4 y2 ++ r2)
  = (y1 <? y2) || ((y1 =? y2) && str_leb r1 r2).
Proof.
  intros H1 H2. unfold pad4. cbn [app str_leb].
  pose proof (pad4_value H1) as E1. pose proof (pad4_value H2) as E2.
  pose proof (digit_at_bounds y1 1000). pose proof (digit_at_bounds y1 100).
  pose proof (digit_at_bounds y1 10). pose proof (digit_at_bounds y1 1).
  pose proof (digit_at_bounds y2 1000). pose proof (digit_at_bounds y2 100).
  pose proof (digit_at_bounds y2 10). pose proof (digit_at_bounds y2 1).
  unfold dval in *.
  set (a1 := digit_at y1 1000) in *. set (a2 := digit_at y1 100) in *.
  set (a3 := digit_at y1 10) in *. set (a4 := digit_at y1 1) in *.
  set (b1 := digit_at y2 1000) in *. set (b2 := digit_at y2 100) in *.
  set (b3 := digit_at y2 10) in *. set (b4 := digit_at y2 1) in *.
  clearbody a1 a2 a3 a4 b1 b2 b3 b4.
  destruct (str_leb r1 r2); bool_eq_lia.
Qed.

Lemma str_leb_same c r1 r2 : str_leb (c :: r1) (c :: r2) = str_leb r1 r2.
Proof. cbn [str_leb]. now rewrite N.ltb_irrefl, N.eqb_refl. Qed.

Lemma str_leb_refl s : str_leb s s = true.
Proof.
  induction s as [|c s IH]; [reflexivity|]. simpl.
  now rewrite N.eqb_refl, IH, orb_true_r.
Qed.

Lemma iso_compare d1 d2 :
  valid d1 = true -> valid d2 = true ->
  str_leb (strftime_iso d1) (strftime_iso d2) = date_leb d1 d2.
Proof.
  intros V1 V2.
  destruct (valid_bounds d1 V1) as (Y1 & _ & M1 & D1).
  destruct (valid_bounds d2 V2) as (Y2 & _ & M2 & D2).
  unfold strftime_iso, date_leb.
  rewrite str_leb_pad4 by assumption. cbn [app].
  rewrite str_leb_same, str_leb_pad2 by lia. cbn [app].
  rewrite str_leb_same.
  rewrite <- (app_nil_r (pad2 (day d1))), <- (app_nil_r (pad2 (day d2))).
  rewrite str_leb_pad2 by lia. cbn [str_leb].
  rewrite andb_true_r.
  assert (L : (day d1 <? day d2) || (day d1 =? day d2)
              = (day d1 <=? day d2)) by bool_eq_lia.
  now rewrite L.
Qed.

(** Before the year 1000 the texts written are not in the order of
    the dates: 5 January 999 is written 999-01-05, which comes after
    2026-01-01. *)
Example fecha_anno_corto_desordenada :
  str_leb (strftime_ymd (mkDate 2026 1 1)) (strftime_ymd (mkDate 999 1 5))
  = true
  /\ date_leb (mkDate 2026 1 1) (mkDate 999 1 5) = false.
Proof. split; reflexivity. Qed.

(** X7: on dates of the calendar from the year 1000 on, the texts
    written for two dates compare, code point by code point, as the
    dates do in time; in particular two different dates never get the
    same text. *)
Theorem fecha_iso_orden (d1 d2 : date) :
  valid d1 = true -> valid d2 = true ->
  1000 <= year d1 -> 1000 <= year d2 ->
  str_leb (strftime_ymd d1) (strftime_ymd d2) = date_leb d1 d2
  /\ (strftime_ymd d1 = strftime_ymd d2 -> d1 = d2).
Proof.
  intros V1 V2 Y1 Y2.
  rewrite (strftime_ymd_iso d1 V1 Y1), (strftime_ymd_iso d2 V2 Y2).
  split; [now apply iso_compare|].
  intros E.
  assert (A : date_leb d1 d2 = true).
  { rewrite <- (@iso_compare d1 d2 V1 V2), E. apply str_leb_refl. }
  assert (B : date_leb d2 d1 = true).
  { rewrite <- (@iso_compare d2 d1 V2 V1), <- E. apply str_leb_refl. }
  unfold date_leb in A, B. destruct d1 as [y1 m1 dd1], d2 as [y2 m2 dd2].
  cbn [year month day] in *.
  repeat rewrite ?andb_true_iff, ?orb_true_iff, ?N.ltb_lt, ?N.leb_le,
    ?N.eqb_eq in A, B.
  assert (y1 = y2 /\ m1 = m2 /\ dd1 = dd2) as (-> & -> & ->) by lia.
  reflexivity.
Qed.

(** 29 February and 1 March of a leap year. *)
Lemma fecha_iso_orden_witness :
  str_leb (strftime_ymd (mkDate 2024 2 29)) (strftime_ymd (mkDate 2024 3 1))
  = date_leb (mkDate 2024 2 29) (mkDate 2024 3 1).
Proof.
  exact (proj1 (@fecha_iso_orden (mkDate 2024 2 29) (mkDate 2024 3 1)
                  eq_refl eq_refl ltac:(cbn [year]; lia)
                  ltac:(cbn [year]; lia))).
Defined.

(** ** Frames: labels and sizes through the parsers *)

Lemma getcol_tiene df n :
  (exists c, getcol df n = Ok c /\ In (n, List.length c) (forma df))
  \/ (getcol df n = Raise KeyError /\ tiene df n = false).
Proof.
  unfold tiene, nombres, forma.
  induction df as [|[m c] df IH]; [now right|]. cbn [getcol map existsb fst snd].
  rewrite (String.eqb_sym n m).
  destruct (String.eqb_spec m n) as [->|Hn].
  - left. exists c. split; [reflexivity|now left].
  - destruct IH as [(c' & E & Hin)|[E Ht]].
    + left. exists c'. split; [exact E|now right].
    + right. now rewrite E, Ht.
Qed.

Lemma tiene_getcol df n : tiene df n = true -> exists c, getcol df n = Ok c.
Proof.
  intros H. destruct (getcol_tiene df n) as [(c & E & _)|[_ E]];
    [eauto|congruence].
Qed.

Lemma getcol_ok_tiene df n c : getcol df n = Ok c -> tiene df n = true.
Proof.
  intros H. destruct (getcol_tiene df n) as [(c' & E & _)|[E _]];
    [|congruence].
  unfold tiene, nombres. clear E c'.
  induction df as [|[m c'] df IH]; [discriminate|].
  cbn [getcol] in H. cbn [map existsb fst]. rewrite (String.eqb_sym n m).
  destruct (String.eqb m n); [reflexivity|auto].
Qed.

Lemma getcol_raises df n e : getcol df n = Raise e -> e = KeyError.
Proof.
  intros H. destruct (getcol_tiene df n) as [(c & E & _)|[E _]]; congruence.
Qed.

(** Assigning to a column that exists keeps the labels, and keeps the
    sizes when the new cells are as many as the old ones. *)
Lemma forma_setcol df n c c' :
  getcol df n = Ok c -> List.length c' = List.length c ->
  forma (setcol n c' df) = forma df.
Proof.
  unfold forma. induction df as [|[m d] df IH]; [discriminate|].
  cbn [getcol setcol]. intros H L.
  destruct (String.eqb m n).
  - injection H as <-. cbn [map fst snd]. now rewrite L.
  - cbn [map fst snd]. now rewrite IH.
Qed.

Lemma apply_length {A B} (f : A -> res B) l : forall l',
  apply f l = Ok l' -> List.length l' = List.length l.
Proof.
  induction l as [|a l IH]; intros l' H; cbn [apply] in H.
  - now injection H as <-.
  - bind_inv H. bind_inv H. injection H as <-. simpl. f_equal. eauto.
Qed.

Lemma apply_ok {A B} (f : A -> res B) l :
  (forall a, exists b, f a = Ok b) -> exists l', apply f l = Ok l'.
Proof.
  intros H. induction l as [|a l (l' & E)]; [now exists []|].
  destruct (H a) as (b & Eb). exists (b :: l').
  cbn [apply]. now rewrite Eb, E.
Qed.

Lemma forma_transformar col f df df' :
  transformar col f df = Ok df' -> forma df' = forma df.
Proof.
  unfold transformar. intros H. bind_inv H. bind_inv H. injection H as <-.
  eapply forma_setcol; eauto using apply_length.
Qed.

(** A column transformed by a function that never raises: fails only
    when the column is not there. *)
Lemma transformar_ok col f df :
  (forall a, exists b, f a = Ok b) -> tiene df col = true ->
  exists df', transformar col f df = Ok df'.
Proof.
  intros Hf Ht. destruct (tiene_getcol _ _ Ht) as (c & E).
  destruct (apply_ok f c Hf) as (c' & E').
  unfold transformar. rewrite E. cbn [bind]. rewrite E'. cbn [bind]. eauto.
Qed.

Lemma transformar_raises col f df e :
  (forall a, exists b, f a = Ok b) ->
  transformar col f df = Raise e -> e = KeyError.
Proof.
  intros Hf. unfold transformar.
  destruct (getcol df col) as [c|e'] eqn:E.
  - cbn [bind]. destruct (apply_ok f c Hf) as (c' & E').
    rewrite E'. discriminate.
  - cbn [bind]. intros [= <-]. eapply getcol_raises; eauto.
Qed.

Lemma nombres_forma df : nombres df = map fst (forma df).
Proof. unfold nombres, forma. rewrite map_map. reflexivity. Qed.

Lemma tiene_forma df df' n : forma df' = forma df -> tiene df' n = tiene df n.
Proof. unfold tiene. rewrite !nombres_forma. now intros ->. Qed.

Lemma nfilas_forma df df' : forma df' = forma df -> nfilas df' = nfilas df.
Proof.
  unfold forma, nfilas. destruct df as [|[n c] df], df' as [|[n' c'] df'];
    try discriminate; [reflexivity|].
  cbn [map fst snd]. now intros [= _ -> _].
Qed.

(** Selecting labels succeeds exactly when they are all there. *)
Lemma select_ok names df :
  forallb (tiene df) names = true -> exists out, select names df = Ok out.
Proof.
  induction names as [|n names IH]; [now exists []|]. cbn [forallb select].
  intros H. apply andb_true_iff in H as [Hn Hr].
  destruct (tiene_getcol _ _ Hn) as (c & E). destruct (IH Hr) as (r & Er).
  rewrite E, Er. cbn [bind]. eauto.
Qed.

Lemma select_tiene names df out :
  select names df = Ok out -> forallb (tiene df) names = true.
Proof.
  revert out. induction names as [|n names IH]; intros out H; [reflexivity|].
  cbn [select] in H. bind_inv H. bind_inv H. cbn [forallb].
  rewrite (getcol_ok_tiene _ _ _ E). eauto.
Qed.

Lemma select_raises names df e : select names df = Raise e -> e = KeyError.
Proof.
  induction names as [|n names IH]; [discriminate|]. cbn [select].
  destruct (getcol df n) as [c|e'] eqn:E.
  - cbn [bind]. destruct (select names df) as [r|e'']; [discriminate|].
    cbn [bind]. intros [= <-]. now apply IH.
  - cbn [bind]. intros [= <-]. eapply getcol_raises; eauto.
Qed.

(** What a selection holds: the labels asked for, each with the size
    it has in the frame. *)
Lemma select_forma names df out :
  select names df = Ok out ->
  nombres out = names
  /\ forall n k, In (n, k) (forma out) -> In (n, k) (forma df).
Proof.
  revert out. induction names as [|n names IH]; intros out H.
  - injection H as <-. split; [reflexivity|]. intros n k [].
  - cbn [select] in H. bind_inv H. bind_inv H. injection H as <-.
    destruct (IH _ E0) as [Hn Hf]. split.
    + unfold nombres in *. cbn [map fst]. now rewrite Hn.
    + intros m k [[= <- <-]|Hin].
      * destruct (getcol_tiene df n) as [(c & Ec & Hc)|[Ec _]];
          [|congruence].
        rewrite E in Ec. now injection Ec as ->.
      * now apply Hf.
Qed.

Lemma fecha_ok h :
  h = None \/ h = Some fmt_dmy_slash ->
  forall a, exists b, estandarizar_fecha a h = Ok b.
Proof.
  intros Hh a. unfold estandarizar_fecha. destruct (isna a); [eauto|].
  destruct Hh as [->| ->].
  - destruct (probar_formatos_total (strip (py_str a)) formatos_fijos eq_refl)
      as (t & Ht). cbn [app]. eauto.
  - destruct (probar_formatos_total (strip (py_str a))
                (fmt_dmy_slash :: formatos_fijos) eq_refl) as (t & Ht).
    eauto.
Qed.

Lemma producto_ok a : exists b, estandarizar_producto a = Ok b.
Proof. unfold estandarizar_producto. destruct (isna a); eauto. Qed.

Lemma maquina_ok a : exists b, estandarizar_maquina a = Ok b.
Proof. unfold estandarizar_maquina. destruct (isna a); eauto. Qed.

Lemma cantidad_entera_length c c' :
  cantidad_entera c = Ok c' -> List.length c' = List.length c.
Proof.
  unfold cantidad_entera. intros H. bind_inv H. bind_inv H.
  injection H as <-. rewrite length_map.
  rewrite (apply_length _ _ _ E0). eapply apply_length; eauto.
Qed.

(** On short cells the quantity column is always turned into
    integers. *)
Lemma cantidad_entera_ok c :
  forallb texto_corto c = true ->
  exists c', cantidad_entera c = Ok c' /\ List.length c' = List.length c.
Proof.
  intros Hc.
  destruct (cantidad_entera_steps c Hc) as (fs & zs & E1 & E2 & L & _).
  exists (map SInt zs). unfold cantidad_entera.
  rewrite E1. cbn [bind]. rewrite E2. cbn [bind].
  split; [reflexivity|now rewrite length_map].
Qed.

(** ** The January and February parsers *)

Ltac step_raise :=
  match goal with
  | |- context [bind (getcol ?df ?n) _] =>
      let E := fresh "E" in
      destruct (getcol df n) eqn:E; cbn [bind];
      [|intros [= <-]; eapply getcol_raises; eauto]
  | |- context [bind (transformar ?c ?f ?df) _] =>
      let E := fresh "E" in
      destruct (transformar c f df) eqn:E; cbn [bind];
      [|intros [= <-]; eapply transformar_raises; [|eauto];
        intros ?; cbn beta;
        first [apply producto_ok | apply maquina_ok
              | apply fecha_ok; auto]]
  | |- context [bind (select ?ns ?df) _] =>
      let E := fresh "E" in
      destruct (select ns df) eqn:E; cbn [bind];
      [|intros [= <-]; eapply select_raises; eauto]
  end.

(** The January parser on a frame whose quantity cells are short
    raises nothing but [KeyError]. *)
Lemma enero_raises df e :
  cantidades_cortas df = true ->
  procesar_enero (Ok df) = Raise e -> e = KeyError.
Proof.
  unfold procesar_enero, cantidades_cortas. cbn [bind]. intros Hc.
  destruct (getcol df "Cantidad") as [c|e'] eqn:E; cbn [bind];
    [|intros [= <-]; eapply getcol_raises; eauto].
  destruct (cantidad_entera_ok c Hc) as (c' & Ec & L).
  rewrite Ec. cbn [bind].
  repeat step_raise. discriminate.
Qed.

Lemma febrero_raises df e :
  cantidades_cortas (rename mapeo_febrero df) = true ->
  procesar_febrero (Ok df) = Raise e -> e = KeyError.
Proof.
  unfold procesar_febrero, cantidades_cortas. cbn [bind]. intros Hc.
  step_raise.
  rewrite (@getcol_transformar _ _ _ _ "Cantidad"%string E)
    by discriminate.
  destruct (getcol (rename mapeo_febrero df) "Cantidad") as [c|e'] eqn:E';
    cbn [bind]; [|intros [= <-]; eapply getcol_raises; eauto].
  destruct (cantidad_entera_ok c Hc) as (c' & Ec & L).
  rewrite Ec. cbn [bind].
  repeat step_raise. discriminate.
Qed.

(** What the January parser returns: the five labels, the row count
    it read, and the sizes the columns had. *)
Lemma enero_ok df out n :
  procesar_enero (Ok df) = Ok (out, n) ->
  nombres out = COLUMNAS_FINALES /\ n = nfilas df
  /\ (forall m k, In (m, k) (forma out) -> In (m, k) (forma df))
  /\ forallb (tiene df) COLUMNAS_FINALES = true.
Proof.
  unfold procesar_enero. cbn [bind]. intros H.
  apply bind_ok in H as (c & Ec & H).
  apply bind_ok in H as (c' & Ec' & H).
  apply bind_ok in H as (df2 & E2 & H).
  apply bind_ok in H as (df3 & E3 & H).
  apply bind_ok in H as (df4 & E4 & H).
  apply bind_ok in H as (df5 & E5 & H).
  injection H as <- <-.
  pose proof (cantidad_entera_length _ _ Ec') as L.
  assert (F : forma df4 = forma df).
  { rewrite (forma_transformar _ _ _ _ E4), (forma_transformar _ _ _ _ E3),
      (forma_transformar _ _ _ _ E2).
    eapply forma_setcol; eauto. }
  destruct (select_forma _ _ _ E5) as [Hn Hf].
  split; [exact Hn|]. split; [reflexivity|]. split.
  - intros m k Hin. rewrite <- F. now apply Hf.
  - apply select_tiene in E5. rewrite forallb_forall in *.
    intros x Hx. rewrite <- (@tiene_forma df df4 x F). auto.
Qed.

(** ** Sizes of the columns through the parsers *)

Lemma bien_formado_uniforme df : bien_formado df = uniforme (nfilas df) df.
Proof. reflexivity. Qed.

Lemma uniforme_forma n df df' :
  forma df' = forma df -> uniforme n df' = uniforme n df.
Proof.
  unfold uniforme, forma. revert df'.
  induction df as [|[m c] df IH]; intros [|[m' c'] df'] H;
    try discriminate; [reflexivity|].
  cbn [map fst snd] in H. injection H as _ L H.
  cbn [forallb snd]. now rewrite L, (IH _ H).
Qed.

Lemma uniforme_setcol n m c df :
  uniforme n df = true -> List.length c = n ->
  uniforme n (setcol m c df) = true.
Proof.
  unfold uniforme. intros H L.
  induction df as [|[k d] df IH]; cbn [setcol forallb snd].
  - now rewrite L, Nat.eqb_refl.
  - cbn [forallb snd] in H. apply andb_true_iff in H as [Hd Hr].
    destruct (String.eqb k m); cbn [forallb snd].
    + now rewrite L, Nat.eqb_refl, Hr.
    + now rewrite Hd, IH.
Qed.

Lemma uniforme_rename n m df : uniforme n (rename m df) = uniforme n df.
Proof.
  unfold uniforme, rename. induction df as [|[k d] df IH]; [reflexivity|].
  cbn [map forallb fst snd]. now rewrite IH.
Qed.

Lemma uniforme_getcol n df m c :
  uniforme n df = true -> getcol df m = Ok c -> List.length c = n.
Proof.
  unfold uniforme. induction df as [|[k d] df IH]; [discriminate|].
  cbn [forallb getcol snd]. intros H E.
  apply andb_true_iff in H as [Hd Hr].
  destruct (String.eqb k m); [|auto].
  injection E as <-. now apply Nat.eqb_eq.
Qed.

Lemma uniforme_transformar n col f df df' :
  transformar col f df = Ok df' -> uniforme n df = true ->
  uniforme n df' = true.
Proof.
  intros H U. now rewrite (uniforme_forma n df df' (forma_transformar _ _ _ _ H)).
Qed.

Lemma uniforme_select n names df out :
  select names df = Ok out -> uniforme n df = true -> uniforme n out = true.
Proof.
  revert out. induction names as [|m names IH]; intros out H U.
  - now injection H as <-.
  - cbn [select] in H. bind_inv H. bind_inv H. injection H as <-.
    unfold uniforme. cbn [forallb snd].
    rewrite (uniforme_getcol _ _ _ _ U E), Nat.eqb_refl. now apply IH.
Qed.

Lemma select_nombres names df out :
  select names df = Ok out -> nombres out = names.
Proof. intros H. now destruct (select_forma _ _ _ H). Qed.

(** A frame with the five labels whose columns all have [n] cells has
    [n] rows and is well formed. *)
Lemma uniforme_final n out :
  nombres out = COLUMNAS_FINALES -> uniforme n out = true ->
  nfilas out = n /\ bien_formado out = true.
Proof.
  intros Hn U. destruct out as [|[m c] out]; [discriminate|].
  assert (L : nfilas ((m, c) :: out) = n).
  { unfold uniforme in U. cbn [forallb snd] in U.
    apply andb_true_iff in U as [U _]. now apply Nat.eqb_eq in U. }
  split; [exact L|]. now rewrite bien_formado_uniforme, L.
Qed.

Lemma nfilas_rename m df : nfilas (rename m df) = nfilas df.
Proof. now destruct df as [|[k d] df]. Qed.

Lemma enero_uniforme df out n :
  procesar_enero (Ok df) = Ok (out, n) ->
  nombres out = COLUMNAS_FINALES /\ n = nfilas df
  /\ (bien_formado df = true ->
      nfilas out = nfilas df /\ bien_formado out = true).
Proof.
  intros H. destruct (enero_ok _ _ _ H) as (Hn & -> & _ & _).
  split; [exact Hn|]. split; [reflexivity|]. intros B.
  apply uniforme_final; [exact Hn|].
  unfold procesar_enero in H. cbn [bind] in H.
  apply bind_ok in H as (c & Ec & H).
  apply bind_ok in H as (c' & Ec' & H).
  apply bind_ok in H as (df2 & E2 & H).
  apply bind_ok in H as (df3 & E3 & H).
  apply bind_ok in H as (df4 & E4 & H).
  apply bind_ok in H as (df5 & E5 & H).
  injection H as <-.
  pose proof (cantidad_entera_length _ _ Ec') as L.
  rewrite bien_formado_uniforme in B.
  eapply uniforme_select; [exact E5|].
  eapply uniforme_transformar; [exact E4|].
  eapply uniforme_transformar; [exact E3|].
  eapply uniforme_transformar; [exact E2|].
  apply uniforme_setcol; [exact B|].
  rewrite L. eapply uniforme_getcol; eauto.
Qed.

Lemma febrero_uniforme df out n :
  procesar_febrero (Ok df) = Ok (out, n) ->
  nombres out = COLUMNAS_FINALES /\ n = nfilas df
  /\ (bien_formado df = true ->
      nfilas out = nfilas df /\ bien_formado out = true).
Proof.
  intros H. unfold procesar_febrero in H. cbn [bind] in H.
  apply bind_ok in H as (df2 & E2 & H).
  apply bind_ok in H as (c & Ec & H).
  apply bind_ok in H as (c' & Ec' & H).
  apply bind_ok in H as (df3 & E3 & H).
  apply bind_ok in H as (df4 & E4 & H).
  apply bind_ok in H as (df5 & E5 & H).
  injection H as <- <-.
  pose proof (cantidad_entera_length _ _ Ec') as L.
  pose proof (select_nombres _ _ _ E5) as Hn.
  split; [exact Hn|]. split; [reflexivity|]. intros B.
  apply uniforme_final; [exact Hn|].
  rewrite bien_formado_uniforme in B.
  assert (U2 : uniforme (nfilas df) df2 = true).
  { eapply uniforme_transformar; [exact E2|]. now rewrite uniforme_rename. }
  eapply uniforme_select; [exact E5|].
  eapply uniforme_transformar; [exact E4|].
  eapply uniforme_transformar; [exact E3|].
  apply uniforme_setcol; [exact U2|].
  rewrite L. eapply uniforme_getcol; eauto.
Qed.

Lemma columna_entera_length nt c c' :
  columna_entera nt c = Ok c' -> List.length c' = List.length c.
Proof.
  unfold columna_entera. intros H. bind_inv H. injection H as <-.
  rewrite length_map. eapply apply_length; eauto.
Qed.

Lemma restar_length a b :
  List.length (restar a b) = Nat.min (List.length a) (List.length b).
Proof. unfold restar. now rewrite length_map, length_combine. Qed.

Lemma marzo_uniforme nt df out n :
  procesar_marzo nt (Ok df) = Ok (out, n) ->
  nombres out = COLUMNAS_FINALES /\ n = nfilas df
  /\ (bien_formado df = true ->
      nfilas out = nfilas df /\ bien_formado out = true).
Proof.
  intros H. unfold procesar_marzo in H. cbn [bind] in H.
  apply bind_ok in H as (ca & Eca & H).
  apply bind_ok in H as (ca' & Eca' & H).
  apply bind_ok in H as (cr & Ecr & H).
  apply bind_ok in H as (cr' & Ecr' & H).
  apply bind_ok in H as (a2 & Ea2 & H).
  apply bind_ok in H as (r2 & Er2 & H).
  apply bind_ok in H as (df1 & E1 & H).
  apply bind_ok in H as (df2 & E2 & H).
  apply bind_ok in H as (df3 & E3 & H).
  apply bind_ok in H as (df4 & E4 & H).
  injection H as <- <-.
  pose proof (select_nombres _ _ _ E4) as Hn.
  split; [exact Hn|]. split; [reflexivity|]. intros B.
  apply uniforme_final; [exact Hn|].
  rewrite bien_formado_uniforme in B.
  set (N := nfilas df) in *.
  assert (La : List.length ca' = N).
  { rewrite (columna_entera_length _ _ _ Eca').
    eapply uniforme_getcol; eauto. }
  assert (U1 : uniforme N (setcol "CANT_APROBADA" ca' df) = true)
    by now apply uniforme_setcol.
  assert (Lr : List.length cr' = N).
  { rewrite (columna_entera_length _ _ _ Ecr').
    eapply uniforme_getcol; eauto. }
  assert (U2 : uniforme N (setcol "CANT_RECHAZADA" cr'
                             (setcol "CANT_APROBADA" ca' df)) = true)
    by now apply uniforme_setcol.
  eapply uniforme_select; [exact E4|].
  eapply uniforme_transformar; [exact E3|].
  eapply uniforme_transformar; [exact E2|].
  eapply uniforme_transformar; [exact E1|].
  rewrite uniforme_rename. apply uniforme_setcol; [exact U2|].
  rewrite restar_length.
  rewrite (uniforme_getcol _ _ _ _ U2 Ea2), (uniforme_getcol _ _ _ _ U2 Er2).
  apply Nat.min_id.
Qed.

(** X8: each of the three parsers, when it returns on a frame whose
    labels are all different once the parser has renamed them, returns
    a frame with exactly the five final columns in their order, and
    reports as the number of rows read the number of rows of the frame
    it was given; on a frame whose columns all have that many cells
    the frame returned has the same number of rows and is again well
    formed: no parser drops or adds a row. *)
Theorem parsers_conservan_filas (numeric_text : str -> option pyfloat)
  (df out : frame) (n : nat) :
  (distintas (nombres df) = true ->
   procesar_enero (Ok df) = Ok (out, n) ->
   nombres out = COLUMNAS_FINALES /\ n = nfilas df
   /\ (bien_formado df = true ->
       nfilas out = nfilas df /\ bien_formado out = true))
  /\ (distintas (nombres (rename mapeo_febrero df)) = true ->
      procesar_febrero (Ok df) = Ok (out, n) ->
      nombres out = COLUMNAS_FINALES /\ n = nfilas df
      /\ (bien_formado df = true ->
          nfilas out = nfilas df /\ bien_formado out = true))
  /\ (distintas (nombres (rename mapeo_marzo df)) = true ->
      procesar_marzo numeric_text (Ok df) = Ok (out, n) ->
      nombres out = COLUMNAS_FINALES /\ n = nfilas df
      /\ (bien_formado df = true ->
          nfilas out = nfilas df /\ bien_formado out = true)).
Proof.
  split; [|split]; intros _ H.
  - now apply enero_uniforme.
  - now apply febrero_uniforme.
  - now apply (marzo_uniforme numeric_text).
Qed.

(** The March parser on the two-row file. *)
Lemma parsers_conservan_filas_witness :
  exists out,
    procesar_marzo numeric_text_float (Ok marzo_ejemplo) = Ok (out, 2%nat)
    /\ nfilas out = 2%nat /\ bien_formado out = true.
Proof.
  pose proof marzo_ejemplo_procesado as E.
  match type of E with
  | _ = Ok (?o, _) =>
      exists o; split; [exact E|];
      destruct (parsers_conservan_filas numeric_text_float
                  marzo_ejemplo o 2%nat) as (_ & _ & Hm)
  end.
  destruct (Hm eq_refl E) as (_ & _ & H).
  exact (H eq_refl).
Defined.

(** ** When the January and February parsers succeed *)

Lemma tiene_all_forma df df' names :
  forma df' = forma df ->
  forallb (tiene df') names = forallb (tiene df) names.
Proof.
  intros F. induction names as [|n names IH]; [reflexivity|].
  cbn [forallb]. now rewrite IH, (tiene_forma df df' n F).
Qed.

Lemma enero_presentes df :
  cantidades_cortas df = true ->
  forallb (tiene df) COLUMNAS_FINALES = true ->
  exists out, procesar_enero (Ok df) = Ok (out, nfilas df).
Proof.
  intros Hc H. pose proof H as H'. cbn [forallb COLUMNAS_FINALES] in H'.
  repeat (apply andb_true_iff in H' as [? H']).
  destruct (tiene_getcol df "Cantidad" ltac:(assumption)) as (c & Ec).
  unfold cantidades_cortas in Hc. rewrite Ec in Hc.
  destruct (cantidad_entera_ok c Hc) as (c' & Ec' & L).
  assert (F1 : forma (setcol "Cantidad" c' df) = forma df)
    by (eapply forma_setcol; eauto).
  destruct (transformar_ok "Fecha" (fun x => estandarizar_fecha x None)
              (setcol "Cantidad" c' df)) as (df2 & E2).
  { apply fecha_ok. now left. }
  { now rewrite (tiene_forma df _ _ F1). }
  pose proof (forma_transformar _ _ _ _ E2) as F2. rewrite F1 in F2.
  destruct (transformar_ok "Producto" estandarizar_producto df2)
    as (df3 & E3).
  { apply producto_ok. }
  { now rewrite (tiene_forma df _ _ F2). }
  pose proof (forma_transformar _ _ _ _ E3) as F3. rewrite F2 in F3.
  destruct (transformar_ok "Maquina" estandarizar_maquina df3)
    as (df4 & E4).
  { apply maquina_ok. }
  { now rewrite (tiene_forma df _ _ F3). }
  pose proof (forma_transformar _ _ _ _ E4) as F4. rewrite F3 in F4.
  destruct (select_ok COLUMNAS_FINALES df4) as (out & E5).
  { now rewrite (tiene_all_forma df df4 _ F4). }
  exists out. unfold procesar_enero. cbn [bind].
  rewrite Ec. cbn [bind]. rewrite Ec'. cbn [bind].
  rewrite E2. cbn [bind]. rewrite E3. cbn [bind].
  rewrite E4. cbn [bind]. rewrite E5. reflexivity.
Qed.

Lemma febrero_presentes df :
  cantidades_cortas (rename mapeo_febrero df) = true ->
  forallb (tiene (rename mapeo_febrero df)) COLUMNAS_FINALES = true ->
  exists out, procesar_febrero (Ok df) = Ok (out, nfilas df).
Proof.
  set (df0 := rename mapeo_febrero df).
  intros Hc H. pose proof H as H'. cbn [forallb COLUMNAS_FINALES] in H'.
  repeat (apply andb_true_iff in H' as [? H']).
  destruct (transformar_ok "Fecha"
              (fun x => estandarizar_fecha x (Some fmt_dmy_slash)) df0)
    as (df2 & E2).
  { apply fecha_ok. now right. }
  { assumption. }
  pose proof (forma_transformar _ _ _ _ E2) as F2.
  destruct (tiene_getcol df2 "Cantidad") as (c & Ec).
  { now rewrite (tiene_forma df0 _ _ F2). }
  unfold cantidades_cortas in Hc.
  rewrite <- (@getcol_transformar _ _ _ _ "Cantidad"%string E2) in Hc
    by discriminate.
  rewrite Ec in Hc.
  destruct (cantidad_entera_ok c Hc) as (c' & Ec' & L).
  assert (F1 : forma (setcol "Cantidad" c' df2) = forma df0).
  { rewrite <- F2. eapply forma_setcol; eauto. }
  destruct (transformar_ok "Producto" estandarizar_producto
              (setcol "Cantidad" c' df2)) as (df3 & E3).
  { apply producto_ok. }
  { now rewrite (tiene_forma df0 _ _ F1). }
  pose proof (forma_transformar _ _ _ _ E3) as F3. rewrite F1 in F3.
  destruct (transformar_ok "Maquina" estandarizar_maquina df3)
    as (df4 & E4).
  { apply maquina_ok. }
  { now rewrite (tiene_forma df0 _ _ F3). }
  pose proof (forma_transformar _ _ _ _ E4) as F4. rewrite F3 in F4.
  destruct (select_ok COLUMNAS_FINALES df4) as (out & E5).
  { now rewrite (tiene_all_forma df0 df4 _ F4). }
  exists out. unfold procesar_febrero. cbn [bind]. fold df0.
  rewrite E2. cbn [bind]. rewrite Ec. cbn [bind]. rewrite Ec'. cbn [bind].
  rewrite E3. cbn [bind]. rewrite E4. cbn [bind]. rewrite E5. reflexivity.
Qed.

Lemma febrero_tiene df out n :
  procesar_febrero (Ok df) = Ok (out, n) ->
  forallb (tiene (rename mapeo_febrero df)) COLUMNAS_FINALES = true.
Proof.
  intros H. unfold procesar_febrero in H. cbn [bind] in H.
  apply bind_ok in H as (df2 & E2 & H).
  apply bind_ok in H as (c & Ec & H).
  apply bind_ok in H as (c' & Ec' & H).
  apply bind_ok in H as (df3 & E3 & H).
  apply bind_ok in H as (df4 & E4 & H).
  apply bind_ok in H as (df5 & E5 & H).
  pose proof (cantidad_entera_length _ _ Ec') as L.
  apply select_tiene in E5.
  assert (F : forma df4 = forma (rename mapeo_febrero df)).
  { rewrite (forma_transformar _ _ _ _ E4), (forma_transformar _ _ _ _ E3).
    rewrite <- (forma_transformar _ _ _ _ E2).
    eapply forma_setcol; eauto. }
  now rewrite <- (tiene_all_forma _ _ _ F).
Qed.

(** X9: on a frame that was read, with labels all different and
    quantity cells of fewer than 300 code points, the January parser
    returns exactly when the five columns Fecha, Producto, Cantidad,
    Maquina and Operador are present, and the February parser, when
    the labels are still different once its five source labels are
    renamed, exactly when the five are present then; when one is
    missing the parser raises [KeyError] and nothing else; dirty cells
    do not make either parser fail. *)
Theorem enero_febrero_exito (df : frame) :
  (distintas (nombres df) = true -> cantidades_cortas df = true ->
     (forallb (tiene df) COLUMNAS_FINALES = true ->
        exists out, procesar_enero (Ok df) = Ok (out, nfilas df))
     /\ (forallb (tiene df) COLUMNAS_FINALES = false ->
        procesar_enero (Ok df) = Raise KeyError))
  /\ (distintas (nombres (rename mapeo_febrero df)) = true ->
      cantidades_cortas (rename mapeo_febrero df) = true ->
     (forallb (tiene (rename mapeo_febrero df)) COLUMNAS_FINALES = true ->
        exists out, procesar_febrero (Ok df) = Ok (out, nfilas df))
     /\ (forallb (tiene (rename mapeo_febrero df)) COLUMNAS_FINALES = false ->
        procesar_febrero (Ok df) = Raise KeyError)).
Proof.
  split; intros _ Hc; split.
  - now apply enero_presentes.
  - intros H. destruct (procesar_enero (Ok df)) as [[out n]|e] eqn:E.
    + destruct (enero_ok _ _ _ E) as (_ & _ & _ & Ht). congruence.
    + now rewrite (enero_raises _ _ Hc E).
  - now apply febrero_presentes.
  - intros H. destruct (procesar_febrero (Ok df)) as [[out n]|e] eqn:E.
    + pose proof (febrero_tiene _ _ _ E). congruence.
    + now rewrite (febrero_raises _ _ Hc E).
Qed.

(** The February file without its quantity column, and the January
    example. *)
Lemma enero_febrero_exito_witness :
  procesar_febrero (Ok febrero_sin_qty) = Raise KeyError
  /\ exists out, procesar_enero (Ok enero_ejemplo) = Ok (out, 3%nat).
Proof.
  destruct (enero_febrero_exito febrero_sin_qty) as (_ & Hf).
  destruct (enero_febrero_exito enero_ejemplo) as (He & _).
  split; [apply (Hf eq_refl eq_refl); reflexivity
         |apply (He eq_refl eq_refl); reflexivity].
Defined.

(** ** The March parser: how it fails and when it returns *)

Lemma astype_int_raises f e : astype_int f = Raise e -> e = ValueError.
Proof.
  destruct f as [m k| |]; cbn [astype_int].
  - discriminate.
  - now intros [= <-].
  - now intros [= <-].
Qed.

Lemma a_entero_raises nt v e : a_entero nt v = Raise e -> e = ValueError.
Proof.
  unfold a_entero. destruct (to_numeric nt v); [|discriminate].
  apply astype_int_raises.
Qed.

Lemma apply_raises {A B} (f : A -> res B) (P : exn -> Prop) l e :
  (forall a e', f a = Raise e' -> P e') -> apply f l = Raise e -> P e.
Proof.
  intros Hf. induction l as [|a l IH]; [discriminate|]. cbn [apply].
  destruct (f a) as [b|e'] eqn:E; cbn [bind].
  - destruct (apply f l) as [r|e'']; [discriminate|].
    cbn [bind]. intros [= <-]. now apply IH.
  - intros [= <-]. eauto.
Qed.

Lemma columna_entera_raises nt c e :
  columna_entera nt c = Raise e -> e = ValueError.
Proof.
  unfold columna_entera.
  destruct (apply (a_entero nt) c) as [zs|e'] eqn:E; [discriminate|].
  cbn [bind]. intros [= <-].
  eapply (apply_raises (a_entero nt) (fun x => x = ValueError)); eauto.
  intros a e''. apply a_entero_raises.
Qed.

Lemma marzo_raises nt df e :
  procesar_marzo nt (Ok df) = Raise e -> e = KeyError \/ e = ValueError.
Proof.
  unfold procesar_marzo. cbn [bind].
  destruct (getcol df "CANT_APROBADA") as [ca|e1] eqn:E1; cbn [bind];
    [|intros [= <-]; left; eapply getcol_raises; eauto].
  destruct (columna_entera nt ca) as [ca'|e2] eqn:E2; cbn [bind];
    [|intros [= <-]; right; eapply columna_entera_raises; eauto].
  destruct (getcol _ "CANT_RECHAZADA") as [cr|e3] eqn:E3; cbn [bind];
    [|intros [= <-]; left; eapply getcol_raises; eauto].
  destruct (columna_entera nt cr) as [cr'|e4] eqn:E4; cbn [bind];
    [|intros [= <-]; right; eapply columna_entera_raises; eauto].
  rewrite getcol_setcol_other, getcol_setcol_same by discriminate.
  rewrite getcol_setcol_same. cbn [bind].
  intros H. left. revert H. repeat step_raise. discriminate.
Qed.

Lemma columna_entera_limpia nt c :
  forallb entero_o_nulo c = true -> exists c', columna_entera nt c = Ok c'.
Proof.
  intros H. unfold columna_entera.
  assert (T : exists zs, apply (a_entero nt) c = Ok zs).
  { induction c as [|v c IH]; [now exists []|].
    cbn [forallb] in H. apply andb_true_iff in H as [Hv Hc].
    destruct (IH Hc) as (zs & E).
    assert (exists z, a_entero nt v = Ok z) as (z & Ez).
    { destruct v; try discriminate; unfold a_entero, to_numeric;
        cbn [astype_int Z.leb Z.compare]; eauto. }
    exists (z :: zs). cbn [apply]. now rewrite Ez, E. }
  destruct T as (zs & ->). cbn [bind]. eauto.
Qed.

(** Labels only grow when a column is assigned. *)
Lemma tiene_setcol df k c n :
  tiene (setcol k c df) n = tiene df n || String.eqb n k.
Proof.
  unfold tiene, nombres. induction df as [|[m d] df IH]; cbn [setcol].
  - cbn [map existsb fst]. now rewrite orb_false_r.
  - destruct (String.eqb_spec m k) as [->|Hk]; cbn [map existsb fst].
    + destruct (String.eqb n k) eqn:E; [now rewrite !orb_true_r|].
      now rewrite orb_false_r.
    + rewrite IH. now rewrite orb_assoc.
Qed.

Lemma tiene_rename_setcol m df k c n :
  tiene (rename m df) n = true ->
  tiene (rename m (setcol k c df)) n = true.
Proof.
  unfold tiene, nombres, rename.
  induction df as [|[j d] df IH]; [discriminate|].
  cbn [setcol map existsb fst snd].
  intros H. apply orb_true_iff in H as [H|H].
  - destruct (String.eqb j k); cbn [map existsb fst snd]; now rewrite H.
  - destruct (String.eqb j k); cbn [map existsb fst snd].
    + now rewrite H, orb_true_r.
    + now rewrite (IH H), orb_true_r.
Qed.

Lemma tiene_rename_cantidad df c :
  tiene (rename mapeo_marzo (setcol "Cantidad" c df)) "Cantidad" = true.
Proof.
  unfold tiene, nombres, rename.
  induction df as [|[j d] df IH]; [reflexivity|].
  cbn [setcol]. destruct (String.eqb_spec j "Cantidad") as [->|Hj];
    cbn [map existsb fst snd]; [reflexivity|].
  rewrite IH. apply orb_true_r.
Qed.

(** X10: on a frame that was read, the March parser raises nothing
    but [KeyError] (a column is missing) or [ValueError] (a count that
    is not finite); it raises [KeyError] when CANT_APROBADA is missing;
    and it returns, with the row count of the frame, whenever the two
    count columns hold only integers and missing cells, FECHA,
    PRODUCTO, MAQUINA and OPERADOR are present under their source or
    final names, and the labels are all different once renamed. *)
Theorem marzo_resultado (numeric_text : str -> option pyfloat) (df : frame) :
  (forall e, procesar_marzo numeric_text (Ok df) = Raise e ->
             e = KeyError \/ e = ValueError)
  /\ (tiene df "CANT_APROBADA" = false ->
      procesar_marzo numeric_text (Ok df) = Raise KeyError)
  /\ (forall ca cr,
        getcol df "CANT_APROBADA" = Ok ca ->
        getcol df "CANT_RECHAZADA" = Ok cr ->
        forallb entero_o_nulo ca = true ->
        forallb entero_o_nulo cr = true ->
        forallb (tiene (rename mapeo_marzo df)) COLUMNAS_MARZO = true ->
        distintas (nombres (rename mapeo_marzo df)) = true ->
        exists out,
          procesar_marzo numeric_text (Ok df) = Ok (out, nfilas df)).
Proof.
  split; [intros e; apply marzo_raises|]. split.
  - intros H. unfold procesar_marzo. cbn [bind].
    destruct (getcol_tiene df "CANT_APROBADA") as [(c & E & _)|[E _]].
    + apply getcol_ok_tiene in E. congruence.
    + now rewrite E.
  - intros ca cr Eca Ecr Ha Hr Ht _.
    destruct (columna_entera_limpia numeric_text ca Ha) as (ca' & Eca').
    destruct (columna_entera_limpia numeric_text cr Hr) as (cr' & Ecr').
    set (df1 := setcol "CANT_RECHAZADA" cr' (setcol "CANT_APROBADA" ca' df)).
    set (df2 := rename mapeo_marzo
                  (setcol "Cantidad" (restar ca' cr') df1)).
    assert (T : forallb (tiene df2) COLUMNAS_FINALES = true).
    { cbn [forallb COLUMNAS_MARZO COLUMNAS_FINALES] in Ht |- *.
      repeat (apply andb_true_iff in Ht as [? Ht]).
      unfold df2, df1.
      rewrite tiene_rename_cantidad.
      repeat (apply andb_true_iff; split); try reflexivity;
        do 3 apply tiene_rename_setcol; assumption. }
    pose proof T as T'. cbn [forallb COLUMNAS_FINALES] in T'.
    repeat (apply andb_true_iff in T' as [? T']).
    destruct (transformar_ok "Fecha" (fun x => estandarizar_fecha x None) df2)
      as (df3 & E3); [apply fecha_ok; now left|assumption|].
    pose proof (forma_transformar _ _ _ _ E3) as F3.
    destruct (transformar_ok "Producto" estandarizar_producto df3)
      as (df4 & E4);
      [apply producto_ok|now rewrite (tiene_forma df2 _ _ F3)|].
    pose proof (forma_transformar _ _ _ _ E4) as F4. rewrite F3 in F4.
    destruct (transformar_ok "Maquina" estandarizar_maquina df4)
      as (df5 & E5);
      [apply maquina_ok|now rewrite (tiene_forma df2 _ _ F4)|].
    pose proof (forma_transformar _ _ _ _ E5) as F5. rewrite F4 in F5.
    destruct (select_ok COLUMNAS_FINALES df5) as (out & E6);
      [now rewrite (tiene_all_forma df2 df5 _ F5)|].
    exists out. unfold procesar_marzo. cbn [bind].
    rewrite Eca. cbn [bind]. rewrite Eca'. cbn [bind].
    rewrite getcol_setcol_other, Ecr by discriminate. cbn [bind].
    rewrite Ecr'. cbn [bind].
    rewrite getcol_setcol_other, getcol_setcol_same by discriminate.
    rewrite getcol_setcol_same. cbn [bind].
    fold df1. fold df2.
    rewrite E3. cbn [bind]. rewrite E4. cbn [bind].
    rewrite E5. cbn [bind]. rewrite E6. reflexivity.
Qed.

(** The March file of two rows returns, with two rows read. *)
Lemma marzo_resultado_witness :
  exists out,
    procesar_marzo numeric_text_float (Ok marzo_ejemplo) = Ok (out, 2%nat).
Proof.
  destruct (marzo_resultado numeric_text_float marzo_ejemplo)
    as (_ & _ & H).
  apply (H [SInt 100; SInt 10] [SInt 15; SInt 25]); reflexivity.
Defined.

(** ** The run: how the sources are sorted into successes and failures *)

Lemma exitos_fallos_length fs ps :
  (List.length (exitos_de fs ps) + List.length (fallos_de fs ps)
   = List.length ps)%nat.
Proof.
  unfold exitos_de, fallos_de. induction ps as [|p ps IH]; [reflexivity|].
  cbn [flat_map]. rewrite !length_app.
  destruct (intento p (fs (archivo p))); simpl; lia.
Qed.

Lemma fallos_de_In fs ps a :
  In a (fallos_de fs ps)
  <-> exists p, In p ps /\ archivo p = a
                /\ exists e, intento p (fs (archivo p)) = Raise e.
Proof.
  unfold fallos_de. rewrite in_flat_map. split.
  - intros (p & Hp & Hin). exists p. split; [exact Hp|].
    destruct (intento p (fs (archivo p))) as [df|e]; [destruct Hin|].
    destruct Hin as [<-|[]]. eauto.
  - intros (p & Hp & <- & e & He). exists p. split; [exact Hp|].
    rewrite He. now left.
Qed.

(** X11: in a run that is not interrupted each of the three sources is
    accounted for exactly once: its frame is among the frames merged
    when its parser returned, and its file name is in the list of
    failed files when its attempt raised; the two lists together have
    three entries, and the list of failed files is the same whether or
    not the run goes on to write its output. *)
Theorem corrida_reparte_fuentes (numeric_text : str -> option pyfloat)
  (resto_informe : list fila -> res unit) (fs : string -> fuente) :
  solo_excepciones fs (procesadores numeric_text) = true ->
  exitos numeric_text fs = exitos_de fs (procesadores numeric_text)
  /\ errores_de (ejecutar_etl numeric_text resto_informe fs)
     = fallos_de fs (procesadores numeric_text)
  /\ (List.length (exitos numeric_text fs)
      + List.length (errores_de (ejecutar_etl numeric_text resto_informe fs))
      = 3)%nat
  /\ (forall a,
        In a (errores_de (ejecutar_etl numeric_text resto_informe fs))
        <-> exists p, In p (procesadores numeric_text) /\ archivo p = a
                      /\ exists e, intento p (fs (archivo p)) = Raise e).
Proof.
  intros H.
  assert (A : exitos numeric_text fs
              = exitos_de fs (procesadores numeric_text)).
  { unfold exitos. now rewrite (fase1_collect _ _ [] [] H). }
  assert (B : errores_de (ejecutar_etl numeric_text resto_informe fs)
              = fallos_de fs (procesadores numeric_text)).
  { unfold ejecutar_etl. rewrite (fase1_collect _ _ [] [] H). cbn [app].
    now destruct (exitos_de fs (procesadores numeric_text)). }
  split; [exact A|]. split; [exact B|]. split.
  - rewrite A, B. apply (exitos_fallos_length fs (procesadores numeric_text)).
  - intros a. rewrite B. apply fallos_de_In.
Qed.

(** One good file, one without a column, one of zero bytes. *)
Lemma corrida_reparte_fuentes_witness :
  (List.length (exitos numeric_text_float fs_con_fallos)
   + List.length
       (errores_de (ejecutar_etl numeric_text_float resto_ok fs_con_fallos))
   = 3)%nat.
Proof.
  destruct (corrida_reparte_fuentes numeric_text_float resto_ok
              fs_con_fallos eq_refl) as (_ & _ & H & _).
  exact H.
Defined.

(** ** The master table: order of the dates *)

Lemma sorted_nth (R : fila -> fila -> Prop) l :
  StronglySorted R l ->
  forall i j a b, (i < j)%nat ->
    nth_error l i = Some a -> nth_error l j = Some b -> R a b.
Proof.
  induction 1 as [|x l Hs IH Hx]; intros i j a b Hij Ha Hb.
  - destruct i; discriminate.
  - destruct j as [|j]; [lia|]. cbn [nth_error] in Hb.
    destruct i as [|i]; cbn [nth_error] in Ha.
    + injection Ha as <-. rewrite Forall_forall in Hx. apply Hx.
      eapply nth_error_In; eauto.
    + apply (IH i j a b); [lia|assumption|assumption].
Qed.

Lemma maestro_sorted nt resto fs maestro :
  salida (ejecutar_etl nt resto fs) = Some maestro ->
  StronglySorted fecha_le maestro.
Proof.
  intros H. apply salida_unificar in H.
  destruct (unificar_spec (exitos nt fs)) as [Hm _].
  rewrite Hm in H. subst maestro.
  apply unmarked_sorted, sort_values_sorted.
Qed.

(** X13: in the table a run writes, a row that has no date is
    followed only by rows that have none, and of two rows that carry
    the ISO texts of dates of the calendar the one written first has
    the earlier date, or the same: the table is in chronological
    order, with the undated rows at the end. *)
Theorem maestro_cronologico (numeric_text : str -> option pyfloat)
  (resto_informe : list fila -> res unit) (fs : string -> fuente)
  (maestro : list fila) (i j : nat) (a b : fila) :
  salida (ejecutar_etl numeric_text resto_informe fs) = Some maestro ->
  (i < j)%nat ->
  nth_error maestro i = Some a -> nth_error maestro j = Some b ->
  (fecha_key a = None -> fecha_key b = None)
  /\ (forall d1 d2, valid d1 = true -> valid d2 = true ->
        fecha_key a = Some (strftime_iso d1) ->
        fecha_key b = Some (strftime_iso d2) ->
        date_leb d1 d2 = true).
Proof.
  intros H Hij Ha Hb.
  pose proof (sorted_nth fecha_le maestro
                (maestro_sorted _ _ _ _ H) i j a b Hij Ha Hb) as Hle.
  unfold fecha_le, fecha_leb in Hle. split.
  - intros Hn. rewrite Hn in Hle.
    destruct (fecha_key b); [discriminate|reflexivity].
  - intros d1 d2 V1 V2 K1 K2. rewrite K1, K2 in Hle.
    now rewrite <- (iso_compare d1 d2 V1 V2).
Qed.

(** The example run: the first row written is of 3 January, the last
    of 3 March. *)
Lemma maestro_cronologico_witness :
  date_leb (mkDate 2026 1 3) (mkDate 2026 3 3) = true.
Proof.
  destruct (maestro_cronologico numeric_text_float resto_ok fs_ejemplo
              _ 0 3 _ _ corrida_ejemplo ltac:(lia) eq_refl eq_refl)
    as (_ & H).
  apply H; reflexivity.
Defined.

(** ** The rows of the master table *)



























(** ** Product names: letter case and double quotes *)

Lemma lower_char_idem c : lower_char (lower_char c) = lower_char c.
Proof. unfold lower_char, in_range. compare_all. Qed.

Lemma title_char_lower c : title_char (lower_char c) = title_char c.
Proof.
  unfold title_char, lower_char, in_range.
  compare_all.
Qed.

Lemma iscased_lower c : iscased (lower_char c) = iscased c.
Proof.
  unfold iscased, isalpha, lower_char, in_range.
  compare_all.
Qed.

Lemma title_from_lower s : forall b,
  title_from b (lower s) = title_from b s.
Proof.
  induction s as [|c r IH]; intros b; [reflexivity|].
  cbn [lower map title_from]. fold (lower r).
  now rewrite lower_char_idem, title_char_lower, iscased_lower, IH.
Qed.

Lemma replace_quote_lower s :
  replace [34] [] (lower s) = lower (replace [34] [] s).
Proof.
  rewrite !replace_quote_filter. unfold lower.
  induction s as [|c r IH]; [reflexivity|].
  cbn [map filter]. rewrite lower_char_quote, IH.
  now destruct (c =? 34).
Qed.

Lemma titulo_lower s :
  title (replace [34] [] (strip (lower s)))
  = title (replace [34] [] (strip s)).
Proof.
  rewrite strip_lower, replace_quote_lower. apply title_from_lower.
Qed.

(** X14: the name given to a product does not depend on the case of
    its letters: two Latin-1 texts that are equal once lowered get the
    same name, so EJE PRINCIPAL and eje principal are one product. *)
Theorem producto_ignora_mayusculas (s1 s2 : str) :
  forallb latin1 s1 = true -> lower s1 = lower s2 ->
  estandarizar_producto (SStr s1) = estandarizar_producto (SStr s2).
Proof.
  intros _ H. unfold estandarizar_producto. cbn [isna py_str].
  now rewrite <- (titulo_lower s1), <- (titulo_lower s2), H.
Qed.

Lemma producto_ignora_mayusculas_witness :
  estandarizar_producto (SStr (txt "EJE PRINCIPAL"))
  = estandarizar_producto (SStr (txt "eje Principal")).
Proof.
  apply (producto_ignora_mayusculas (txt "EJE PRINCIPAL")
           (txt "eje Principal")); reflexivity.
Defined.

(** X15: no double quote is left in the name of a product, wherever
    the quotes stood in the text read. *)
Theorem producto_sin_comillas (v : scalar) (t : str) :
  estandarizar_producto v = Ok (SStr t) -> ~ In 34 t.
Proof.
  unfold estandarizar_producto. intros H Hin.
  destruct (isna v) eqn:Hv.
  - injection H as ->. discriminate.
  - injection H as <-.
    apply replace_from_In in Hin as [Hin|Hin];
      [cbn in Hin; intuition discriminate|].
    apply replace_from_In in Hin as [Hin|Hin];
      [cbn in Hin; intuition discriminate|].
    apply title_from_quote in Hin.
    rewrite replace_quote_filter in Hin.
    apply filter_In in Hin as [_ Hq]. discriminate.
Qed.

Lemma producto_sin_comillas_witness :
  ~ In 34 (txt "Tornillo 1/4 Hex").
Proof.
  apply (producto_sin_comillas (SStr (34 :: txt "tornillo 1/4" ++ 34 :: txt " hex"))).
  reflexivity.
Defined.

(** ** The final report: rows read and rows kept *)

Lemma fase1_ok_solo fs ps : forall d0 e0 r,
  fase1 fs ps d0 e0 = Ok r -> solo_excepciones fs ps = true.
Proof.
  unfold solo_excepciones.
  induction ps as [|p ps IH]; intros d0 e0 r H; [reflexivity|].
  cbn [fase1] in H. cbn [forallb].
  destruct (intento p (fs (archivo p))) as [d|e].
  - cbn [andb]. eauto.
  - destruct (is_Exception e); [|discriminate]. cbn [andb]. eauto.
Qed.

Lemma nfilas_origen d c :
  nombres d = COLUMNAS_FINALES -> nfilas (setcol "Origen" c d) = nfilas d.
Proof. destruct d as [|[k x] d]; [discriminate|]. now intros [= -> _]. Qed.

Lemma procesador_uniforme nt p l d n :
  In p (procesadores nt) -> funcion p l = Ok (d, n) ->
  exists df0, l = Ok df0 /\ nombres d = COLUMNAS_FINALES /\ n = nfilas df0
    /\ (bien_formado df0 = true ->
        nfilas d = nfilas df0 /\ bien_formado d = true).
Proof.
  intros Hp H. destruct l as [df0|e].
  2:{ destruct Hp as [<-|[<-|[<-|[]]]]; discriminate. }
  exists df0. split; [reflexivity|].
  destruct Hp as [<-|[<-|[<-|[]]]]; cbn [funcion] in H.
  - now apply enero_uniforme.
  - now apply febrero_uniforme.
  - now apply (marzo_uniforme nt).
Qed.

(** The rows counted under "Filas Limpias" are those of the frames
    merged. *)
Lemma resumen_finales fs ps :
  map (fun e => snd (snd e)) (resumen_de fs ps)
  = map nfilas (exitos_de fs ps).
Proof.
  unfold resumen_de, exitos_de.
  induction ps as [|p ps IH]; [reflexivity|].
  cbn [flat_map]. rewrite !map_app, IH. f_equal.
  unfold intento.
  destruct (negb (existe (fs (archivo p)))); [reflexivity|].
  destruct (tamano (fs (archivo p)) =? 0); [reflexivity|].
  destruct (funcion p (lectura (fs (archivo p)))) as [[d n]|e];
    reflexivity.
Qed.

Lemma resumen_estado nt fs ps :
  incl ps (procesadores nt) ->
  (forall a df0, lectura (fs a) = Ok df0 -> bien_formado df0 = true) ->
  forallb estado_ok (resumen_de fs ps) = true.
Proof.
  intros Hps Hb. unfold resumen_de.
  induction ps as [|p ps IH]; [reflexivity|].
  cbn [flat_map]. rewrite forallb_app.
  rewrite IH by (intros q Hq; apply Hps; now right).
  rewrite andb_true_r.
  destruct (negb (existe (fs (archivo p)))); [reflexivity|].
  destruct (tamano (fs (archivo p)) =? 0); [reflexivity|].
  destruct (funcion p (lectura (fs (archivo p)))) as [[d n]|e] eqn:E;
    [|reflexivity].
  destruct (procesador_uniforme nt p _ d n (Hps p (or_introl eq_refl)) E)
    as (df0 & El & Hn & -> & Hu).
  destruct (Hu (Hb _ _ El)) as [Hr _].
  cbn [forallb andb]. unfold estado_ok. cbn [fst snd].
  rewrite andb_true_r, (nfilas_origen _ _ Hn), Hr.
  apply Nat.eqb_refl.
Qed.

Lemma estado_totales r :
  forallb estado_ok r = true -> total_originales r = total_finales r.
Proof.
  unfold total_originales, total_finales.
  induction r as [|e r IH]; [reflexivity|]. cbn [forallb].
  intros H. apply andb_true_iff in H as [He Hr].
  apply Nat.eqb_eq in He. specialize (IH Hr).
  change (fst (snd e) + list_sum (map (fun e => fst (snd e)) r)
          = snd (snd e) + list_sum (map (fun e => snd (snd e)) r))%nat.
  now rewrite He, IH.
Qed.

(** X16: in the final report of a run that writes its table, every
    month shows as many rows kept as rows read (the Estado column
    never shows a difference), the two totals agree, the total is the
    number of rows concatenated, and the number of rows written is
    that total less the duplicates reported.  The frames read from
    the files have columns of one length. *)
Theorem informe_cuadra (numeric_text : str -> option pyfloat)
  (resto_informe : list fila -> res unit) (fs : string -> fuente)
  (maestro : list fila) :
  (forall a df0, lectura (fs a) = Ok df0 -> bien_formado df0 = true) ->
  salida (ejecutar_etl numeric_text resto_informe fs) = Some maestro ->
  let resumen := resumen_de fs (procesadores numeric_text) in
  forallb estado_ok resumen = true
  /\ total_originales resumen = total_finales resumen
  /\ total_finales resumen
     = List.length (tabla_concatenada (exitos numeric_text fs))
  /\ (List.length maestro + snd (unificar (exitos numeric_text fs))
      = total_finales resumen)%nat.
Proof.
  intros Hb H resumen.
  assert (He : forallb estado_ok resumen = true).
  { apply (resumen_estado numeric_text); [apply incl_refl|exact Hb]. }
  assert (Hs : solo_excepciones fs (procesadores numeric_text) = true).
  { revert H. unfold ejecutar_etl.
    destruct (fase1 fs (procesadores numeric_text) [] []) as [r|e] eqn:E;
      [|discriminate].
    intros _. exact (fase1_ok_solo _ _ _ _ _ E). }
  assert (Ht : total_finales resumen
               = List.length (tabla_concatenada (exitos numeric_text fs))).
  { rewrite tabla_concatenada_length. unfold total_finales, resumen.
    rewrite resumen_finales. unfold exitos.
    now rewrite (fase1_collect _ _ [] [] Hs). }
  split; [exact He|]. split; [now apply estado_totales|].
  split; [exact Ht|].
  apply salida_unificar in H.
  destruct (unificar_spec (exitos numeric_text fs)) as [Hm Hd].
  rewrite Hm in H. subst maestro. rewrite Hd, Ht.
  set (dfs := exitos numeric_text fs).
  rewrite (unmarked_count (tabla_ordenada dfs)
             (duplicated (tabla_ordenada dfs))
             (duplicated_from_length _ _)).
  symmetry. apply Permutation_length, sort_values_perm.
Qed.

(** The example run: three rows of January and two of March are read
    and kept, and four are written after one duplicate is dropped. *)
Lemma informe_cuadra_witness :
  total_originales (resumen_de fs_ejemplo (procesadores numeric_text_float))
  = 5%nat
  /\ total_finales (resumen_de fs_ejemplo (procesadores numeric_text_float))
     = 5%nat.
Proof.
  destruct (informe_cuadra numeric_text_float resto_ok fs_ejemplo _
              ltac:(intros a df0; unfold fs_ejemplo;
                    destruct (String.eqb a "reporte_produccion_enero.csv");
                    [intros [= <-]; reflexivity|];
                    destruct (String.eqb a "prod_marzo_v2.csv");
                    [intros [= <-]; reflexivity|discriminate])
              corrida_ejemplo) as (_ & H1 & H2 & _).
  split; [rewrite H1|]; exact H2.
Defined.

(** ** Machine names: a second pass changes nothing *)

Lemma gap_then_primero right w r :
  isspace w = true -> gap_then right (w :: r) = primero right r.
Proof.
  intros H. unfold gap_then, primero. cbn [take_while drop_while].
  rewrite H. now destruct (drop_while isspace r).
Qed.

Lemma gap_then_le right r :
  gap_then right r = true -> primero right r = true.
Proof.
  unfold gap_then, primero.
  destruct (take_while isspace r); [discriminate|].
  now destruct (drop_while isspace r).
Qed.

Lemma primero_space right w r :
  isspace w = true -> primero right (w :: r) = primero right r.
Proof. intros H. unfold primero. cbn [drop_while]. now rewrite H. Qed.

Lemma primero_nospace right d r :
  isspace d = false -> primero right (d :: r) = right d r.
Proof. intros H. unfold primero. cbn [drop_while]. now rewrite H. Qed.

Lemma gap_then_head right d r :
  isspace d = false -> gap_then right (d :: r) = false.
Proof. intros H. unfold gap_then. cbn [take_while]. now rewrite H. Qed.

Lemma gap_then_espacios right s :
  forallb isspace s = true -> gap_then right s = false.
Proof.
  intros H. unfold gap_then.
  assert (E : drop_while isspace s = []).
  { induction s as [|c r IH]; [reflexivity|]. cbn [forallb] in H.
    apply andb_true_iff in H as [Hc Hr]. cbn [drop_while].
    rewrite Hc. auto. }
  rewrite E. now destruct (take_while isspace s).
Qed.

Lemma fin_limpio_cons c x :
  fin_limpio x = true -> x <> [] -> fin_limpio (c :: x) = true.
Proof. destruct x; [congruence|auto]. Qed.

Section Idempotencia.
Variable left : char -> bool.
Variable right : char -> str -> bool.

Lemma sub_gap_head c r :
  exists z, sub_gap left right false (c :: r) = c :: z.
Proof. cbn [sub_gap]. destruct (left c && gap_then right r); eauto. Qed.

Lemma sub_gap_true_gap (R : char -> str -> bool) s :
  gap_then R (sub_gap left right true s) = false.
Proof.
  induction s as [|c r IH]; [reflexivity|]. cbn [sub_gap].
  destruct (isspace c) eqn:E; [exact IH|]. now apply gap_then_head.
Qed.

Lemma sub_gap_espacios s :
  forallb isspace s = true -> sub_gap left right false s = s.
Proof.
  induction s as [|c r IH]; [reflexivity|]. cbn [forallb sub_gap].
  intros H. apply andb_true_iff in H as [_ Hr].
  now rewrite (gap_then_espacios right r Hr), andb_false_r, (IH Hr).
Qed.

(** A text in which the pattern does not match is returned as it
    is. *)
Lemma sub_gap_sin_hueco s :
  hay_hueco left right s = false -> sub_gap left right false s = s.
Proof.
  induction s as [|c r IH]; [reflexivity|]. cbn [hay_hueco sub_gap].
  intros H. apply orb_false_iff in H as [H1 H2].
  now rewrite H1, (IH H2).
Qed.

Lemma sub_gap_no_vacio s : forall b,
  fin_limpio s = true -> s <> [] -> sub_gap left right b s <> [].
Proof.
  induction s as [|c r IH]; intros b H Hs; [congruence|].
  cbn [sub_gap]. destruct b.
  - destruct (isspace c) eqn:E; [|discriminate].
    destruct r as [|c' r']; [cbn in H; rewrite E in H; discriminate|].
    apply IH; [exact H|discriminate].
  - destruct (left c && gap_then right r); discriminate.
Qed.

Lemma fin_limpio_sub_gap s : forall b,
  fin_limpio s = true -> fin_limpio (sub_gap left right b s) = true.
Proof.
  induction s as [|c r IH]; intros b H; [reflexivity|].
  destruct r as [|c' r'].
  - cbn [fin_limpio] in H. apply negb_true_iff in H.
    cbn [sub_gap]. rewrite H.
    unfold gap_then. cbn [take_while]. rewrite andb_false_r.
    destruct b; cbn [fin_limpio]; now rewrite H.
  - assert (Hr : fin_limpio (c' :: r') = true) by exact H.
    assert (Hn : forall b', sub_gap left right b' (c' :: r') <> [])
      by (intros b'; apply sub_gap_no_vacio; [exact Hr|discriminate]).
    change (sub_gap left right b (c :: c' :: r'))
      with (if b
            then (if isspace c then sub_gap left right true (c' :: r')
                  else c :: sub_gap left right false (c' :: r'))
            else if left c && gap_then right (c' :: r')
                 then c :: 45 :: sub_gap left right true (c' :: r')
                 else c :: sub_gap left right false (c' :: r')).
    destruct b.
    + destruct (isspace c); [now apply IH|].
      apply fin_limpio_cons; [now apply IH|apply Hn].
    + destruct (left c && gap_then right (c' :: r')).
      * apply fin_limpio_cons; [|discriminate].
        apply fin_limpio_cons; [now apply IH|apply Hn].
      * apply fin_limpio_cons; [now apply IH|apply Hn].
Qed.

Lemma limpio_sub_gap s :
  limpio s = true -> limpio (sub_gap left right false s) = true.
Proof.
  unfold limpio. intros H. apply andb_true_iff in H as [H1 H2].
  rewrite (fin_limpio_sub_gap s false H2), andb_true_r.
  destruct s as [|c r]; [reflexivity|].
  destruct (sub_gap_head c r) as (z & ->). exact H1.
Qed.

(** What [right] needs for the output to hold no match: a code point
    it accepts is refused by [left] or followed by whitespace only,
    and one it refuses is still refused once the text after it has
    been rewritten. *)
Hypothesis right_left : forall d r,
  right d r = true -> left d = false \/ forallb isspace r = true.
Hypothesis right_estable : forall d r z,
  right d r = false -> sub_gap left right false (d :: r) = d :: z ->
  right d z = false.

Lemma primero_estable s :
  primero right s = false ->
  primero right (sub_gap left right false s) = false.
Proof.
  induction s as [|x r IH]; intros H; [reflexivity|].
  destruct (isspace x) eqn:E.
  - rewrite primero_space in H by exact E.
    assert (G : gap_then right r = false).
    { destruct (gap_then right r) eqn:G; [|reflexivity].
      apply gap_then_le in G. congruence. }
    cbn [sub_gap]. rewrite G, andb_false_r.
    rewrite primero_space by exact E. auto.
  - rewrite primero_nospace in H by exact E.
    destruct (sub_gap_head x r) as (z & Ez). rewrite Ez.
    rewrite primero_nospace by exact E. eauto.
Qed.

Lemma gap_then_estable r :
  gap_then right r = false ->
  gap_then right (sub_gap left right false r) = false.
Proof.
  destruct r as [|w rest]; intros H; [reflexivity|].
  destruct (isspace w) eqn:E.
  - rewrite gap_then_primero in H by exact E.
    assert (G : gap_then right rest = false).
    { destruct (gap_then right rest) eqn:G; [|reflexivity].
      apply gap_then_le in G. congruence. }
    cbn [sub_gap]. rewrite G, andb_false_r.
    rewrite gap_then_primero by exact E. now apply primero_estable.
  - destruct (sub_gap_head w rest) as (z & ->). now apply gap_then_head.
Qed.

Lemma sin_hueco_salida s :
  hay_hueco left right (sub_gap left right false s) = false
  /\ (primero right s = true ->
      hay_hueco left right (sub_gap left right true s) = false).
Proof.
  induction s as [|c r [I1 I2]]; [split; reflexivity|].
  assert (Paso : left c && gap_then right r = false ->
            hay_hueco left right (c :: sub_gap left right false r) = false).
  { intros M. cbn [hay_hueco]. rewrite I1, orb_false_r.
    destruct (left c); [|reflexivity]. cbn [andb] in M |- *.
    now apply gap_then_estable. }
  split.
  - cbn [sub_gap]. destruct (left c && gap_then right r) eqn:M.
    + apply andb_true_iff in M as [_ G]. apply gap_then_le in G.
      cbn [hay_hueco]. rewrite (I2 G), orb_false_r.
      rewrite (gap_then_head right 45 _ eq_refl), sub_gap_true_gap.
      now rewrite !andb_false_r.
    + now apply Paso.
  - intros Hp. cbn [sub_gap]. destruct (isspace c) eqn:E.
    + rewrite primero_space in Hp by exact E. auto.
    + rewrite primero_nospace in Hp by exact E.
      destruct (right_left c r Hp) as [Hl|Hr].
      * apply Paso. now rewrite Hl.
      * apply Paso. now rewrite (gap_then_espacios right r Hr), andb_false_r.
Qed.

Lemma sub_gap_idem s :
  sub_gap left right false (sub_gap left right false s)
  = sub_gap left right false s.
Proof. apply sub_gap_sin_hueco, sin_hueco_salida. Qed.

End Idempotencia.

Lemma at_end_sub_gap left right r :
  at_end (sub_gap left right false r) = at_end r.
Proof.
  destruct r as [|c [|c' r']]; [reflexivity| |].
  - cbn [sub_gap]. unfold gap_then. cbn [take_while].
    now rewrite andb_false_r.
  - destruct (sub_gap_head left right c' r') as (z & Ez).
    cbn [sub_gap] in Ez |- *.
    destruct (left c && gap_then right (c' :: r')); [reflexivity|].
    now rewrite Ez.
Qed.

Lemma numero_sin_hueco s :
  hay_hueco (fun c => negb (isdigit c)) (fun d _ => isdigit d)
    (sub_numero s) = false.
Proof.
  unfold sub_numero. apply sin_hueco_salida.
  - intros d r H. left. now rewrite H.
  - intros d r z H _. exact H.
Qed.

Lemma letra_sin_hueco s :
  hay_hueco isword (fun d r => isupper_ascii d && at_end r)
    (sub_letra s) = false.
Proof.
  unfold sub_letra. apply sin_hueco_salida.
  - intros d r H. right. apply andb_true_iff in H as [_ H].
    destruct r as [|c [|c' r']]; [reflexivity| |discriminate].
    cbn [at_end] in H. apply N.eqb_eq in H. now subst c.
  - intros d r z H E.
    destruct (isupper_ascii d); [|reflexivity]. cbn [andb] in H |- *.
    cbn [sub_gap] in E.
    destruct (isword d && gap_then _ r).
    + injection E as <-. now destruct (sub_gap _ _ true r).
    + injection E as <-. now rewrite at_end_sub_gap.
Qed.

(** The second rule does not bring about a match of the first. *)
Lemma primero_numero_letra s :
  primero (fun d _ => isdigit d) (sub_letra s)
  = primero (fun d _ => isdigit d) s.
Proof.
  unfold sub_letra. induction s as [|x r IH]; [reflexivity|].
  destruct (isspace x) eqn:E.
  - assert (W : isword x = false).
    { destruct (isword x) eqn:W; [|reflexivity].
      apply word_not_space in W. congruence. }
    cbn [sub_gap]. rewrite W. cbn [andb].
    now rewrite !primero_space by exact E.
  - destruct (sub_gap_head isword
                (fun d r => isupper_ascii d && at_end r) x r) as (z & ->).
    now rewrite !primero_nospace by exact E.
Qed.

Lemma gap_numero_letra s :
  gap_then (fun d _ => isdigit d) (sub_letra s)
  = gap_then (fun d _ => isdigit d) s.
Proof.
  destruct s as [|w rest]; [reflexivity|].
  destruct (isspace w) eqn:E.
  - assert (W : isword w = false).
    { destruct (isword w) eqn:W; [|reflexivity].
      apply word_not_space in W. congruence. }
    unfold sub_letra. cbn [sub_gap]. rewrite W. cbn [andb].
    rewrite !gap_then_primero by exact E. apply primero_numero_letra.
  - unfold sub_letra.
    destruct (sub_gap_head isword
                (fun d r => isupper_ascii d && at_end r) w rest) as (z & ->).
    now rewrite !gap_then_head by exact E.
Qed.

Lemma hueco_numero_letra s :
  hay_hueco (fun c => negb (isdigit c)) (fun d _ => isdigit d) s = false ->
  forall b,
    hay_hueco (fun c => negb (isdigit c)) (fun d _ => isdigit d)
      (sub_gap isword (fun d r => isupper_ascii d && at_end r) b s) = false.
Proof.
  induction s as [|c r IH]; intros H b; [reflexivity|].
  cbn [hay_hueco] in H. apply orb_false_iff in H as [H1 H2].
  specialize (IH H2).
  assert (Paso : hay_hueco (fun c => negb (isdigit c)) (fun d _ => isdigit d)
                   (c :: sub_letra r) = false).
  { cbn [hay_hueco]. rewrite gap_numero_letra, H1. apply (IH false). }
  cbn [sub_gap]. destruct b.
  - destruct (isspace c); [apply IH|exact Paso].
  - destruct (isword c && gap_then _ r); [|exact Paso].
    cbn [hay_hueco]. rewrite (IH true), orb_false_r.
    rewrite (gap_then_head (fun d _ => isdigit d) 45 _ eq_refl).
    rewrite sub_gap_true_gap. now rewrite !andb_false_r.
Qed.

Lemma strip_limpio s : limpio s = true -> strip s = s.
Proof.
  unfold limpio. intros H. apply andb_true_iff in H as [H1 H2].
  destruct s as [|c r]; [reflexivity|].
  apply negb_true_iff in H1.
  destruct r as [|c' r'].
  - apply strip_nospace. cbn. unfold nospace. now rewrite H1.
  - assert (Hn : c' :: r' <> []) by discriminate.
    destruct (exists_last Hn) as (u & d & E). rewrite E in *.
    apply strip_ends; [exact H1|].
    clear -H2. revert c H2. induction u as [|a u IH]; intros c H2.
    + cbn in H2. now apply negb_true_iff in H2.
    + apply (IH a). destruct u; exact H2.
Qed.

Lemma limpio_strip s : limpio (strip s) = true.
Proof.
  unfold strip.
  destruct (rstrip_cases (lstrip s)) as [[-> _]|(u & c & ws & E & _ & Hc & ->)];
    [reflexivity|].
  unfold limpio. apply andb_true_iff. split.
  - destruct u as [|a u]; cbn [app]; [now rewrite Hc|].
    destruct (lstrip_cases s) as [[E' _]|(ws' & a' & r' & _ & _ & Ha & E')];
      rewrite E' in E; [discriminate|].
    injection E as -> _. now rewrite Ha.
  - clear E. induction u as [|a u IH]; [cbn; now rewrite Hc|].
    cbn [app fin_limpio]. destruct u; exact IH.
Qed.

Lemma maquina_fija s :
  let m := sub_letra (sub_numero (strip s)) in
  sub_letra (sub_numero (strip m)) = m.
Proof.
  intros m.
  assert (L : limpio m = true).
  { unfold m, sub_letra, sub_numero.
    do 2 apply limpio_sub_gap. apply limpio_strip. }
  rewrite (strip_limpio m L).
  assert (N : sub_numero m = m).
  { unfold sub_numero at 1. apply sub_gap_sin_hueco.
    unfold m. unfold sub_letra.
    apply hueco_numero_letra, numero_sin_hueco. }
  rewrite N. unfold sub_letra at 1. apply sub_gap_sin_hueco.
  apply letra_sin_hueco.
Qed.

(** X17: the machine name that comes out of the normalizer is left
    as it is by a second pass: both hyphenation rules find nothing
    more to join, and there is nothing to trim. *)
Theorem maquina_idempotente (v w : scalar) :
  estandarizar_maquina v = Ok w -> estandarizar_maquina w = Ok w.
Proof.
  unfold estandarizar_maquina at 1. destruct (isna v) eqn:Hv.
  - intros [= <-]. unfold estandarizar_maquina. now rewrite Hv.
  - intros [= <-]. unfold estandarizar_maquina. cbn [isna py_str].
    now rewrite maquina_fija.
Qed.

Lemma maquina_idempotente_witness :
  estandarizar_maquina (SStr (txt "CNC-01 - Linea-2-B"))
  = Ok (SStr (txt "CNC-01 - Linea-2-B")).
Proof.
  apply (maquina_idempotente (SStr (txt " CNC  01 - Linea 2 B "))).
  reflexivity.
Defined.
